(** * Regression helpers of biology-ai-compute: a shallow embedding

    This development embeds [regression.py] (OLS fit helper, prediction
    helper, growth-rate reporter and the slope comparison test) and proves
    properties of the embedded functions.

    Numbers.  The program computes with numpy float64 values.  They are
    idealised here as real numbers extended with the IEEE special values
    [+inf], [-inf] and [NaN]: finite arithmetic is exact (no rounding, no
    overflow, no signed zero), and the special values follow the IEEE rules
    that numpy applies without raising (division by zero, square root and
    logarithm outside their domain).

    Libraries.  pandas frames are lists of labelled rows, a row being a
    finite map from column names to cells; the row labels of a frame are
    meant to be distinct, as pandas expects of an index that is aligned
    on.  The regression solver ([statsmodels]) and the Student t
    distribution ([scipy.stats]) are parameters of the embedding.  A
    fitted result is either a result of the formula interface, whose
    coefficients and intervals are pandas objects indexed by the
    coefficient names, or a result fitted on arrays, whose coefficients
    and intervals are arrays. *)

From Stdlib Require Import Reals Lra ZArith QArith List String.
From stdpp Require Import base option list gmap strings.

Open Scope R_scope.
Open Scope string_scope.

(** ** numpy floats *)

Module NP.

Inductive npfloat : Type :=
| Fin (r : R)
| PInf
| NInf
| NaN.

Definition of_Z (z : Z) : npfloat := Fin (IZR z).
Definition of_nat (n : nat) : npfloat := Fin (INR n).

Definition neg (a : npfloat) : npfloat :=
  match a with
  | Fin r => Fin (- r)
  | PInf => NInf
  | NInf => PInf
  | NaN => NaN
  end.

Definition add (a b : npfloat) : npfloat :=
  match a, b with
  | NaN, _ | _, NaN => NaN
  | Fin x, Fin y => Fin (x + y)
  | PInf, NInf | NInf, PInf => NaN
  | PInf, _ | _, PInf => PInf
  | NInf, _ | _, NInf => NInf
  end.

Definition sub (a b : npfloat) : npfloat := add a (neg b).

(** [inf * x] and [inf / x] for a finite [x]: the sign of [x] decides. *)
Definition scale_inf (positive : bool) (x : R) (zero : npfloat) : npfloat :=
  if Rlt_dec 0 x then (if positive then PInf else NInf)
  else if Rlt_dec x 0 then (if positive then NInf else PInf)
  else zero.

Definition mul (a b : npfloat) : npfloat :=
  match a, b with
  | NaN, _ | _, NaN => NaN
  | Fin x, Fin y => Fin (x * y)
  | Fin x, PInf | PInf, Fin x => scale_inf true x NaN
  | Fin x, NInf | NInf, Fin x => scale_inf false x NaN
  | PInf, PInf | NInf, NInf => PInf
  | PInf, NInf | NInf, PInf => NInf
  end.

(** Division never raises on numpy scalars: [x / 0] is [+-inf] for
    [x <> 0] and [NaN] for [x = 0]. *)
Definition div (a b : npfloat) : npfloat :=
  match a, b with
  | NaN, _ | _, NaN => NaN
  | Fin x, Fin y =>
      if Req_dec_T y 0 then scale_inf true x NaN else Fin (x / y)
  | Fin _, (PInf | NInf) => Fin 0
  | PInf, Fin y => scale_inf true y PInf
  | NInf, Fin y => scale_inf false y NInf
  | (PInf | NInf), (PInf | NInf) => NaN
  end.

(** [np.sqrt]: NaN on negative arguments. *)
Definition sqrt (a : npfloat) : npfloat :=
  match a with
  | Fin r => if Rlt_dec r 0 then NaN else Fin (R_sqrt.sqrt r)
  | PInf => PInf
  | NInf | NaN => NaN
  end.

Definition abs (a : npfloat) : npfloat :=
  match a with
  | Fin r => Fin (Rabs r)
  | PInf | NInf => PInf
  | NaN => NaN
  end.

(** [np.log10]: [-inf] at zero, NaN on negative arguments, no exception. *)
Definition log10 (a : npfloat) : npfloat :=
  match a with
  | Fin r =>
      if Rlt_dec 0 r then Fin (ln r / ln 10)
      else if Rlt_dec r 0 then NaN
      else NInf
  | PInf => PInf
  | NInf | NaN => NaN
  end.

(** [x ** 2] *)
Definition square (a : npfloat) : npfloat := mul a a.

(** [np.clip(x, -1, 1)] *)
Definition clip1 (a : npfloat) : npfloat :=
  match a with
  | Fin r => if Rlt_dec 1 r then Fin 1 else if Rlt_dec r (-1) then Fin (-1) else Fin r
  | PInf => Fin 1
  | NInf => Fin (-1)
  | NaN => NaN
  end.

(** *** arrays *)

Abbreviation vector := (list npfloat).
Abbreviation matrix := (list (list npfloat)).

Definition sum (v : vector) : npfloat := fold_right add (Fin 0) v.

Definition mean (v : vector) : npfloat := div (sum v) (of_nat (length v)).

(** elementwise [a - b] *)
Definition vsub (a b : vector) : vector := zip_with sub a b.

(** [np.dot] of two one-dimensional arrays *)
Definition dot (a b : vector) : npfloat := sum (zip_with mul a b).

Definition center (v : vector) : vector := map (fun a => sub a (mean v)) v.

(** An entry of [np.cov([x, y])]: the normalisation is [n - 1], replaced
    by [0] when it is not positive. *)
Definition cov (x y : vector) : npfloat :=
  div (dot (center x) (center y)) (of_nat (length x - 1)).

(** [np.corrcoef(x, y)[0, 1]]: the covariance is divided by the first
    standard deviation, then by the second, and clipped to [-1, 1]. *)
Definition corrcoef (x y : vector) : npfloat :=
  clip1 (div (div (cov x y) (sqrt (cov x x))) (sqrt (cov y y))).

End NP.

Export NP (npfloat, Fin, PInf, NInf, NaN, vector, matrix).

(** ** Exceptions and fallible computations *)

(** The exceptions the embedded code can raise.  [ValueError] is the one
    [get_predictions] raises itself; its payload is the set printed in the
    message.  [KeyError] (a column that does not exist), [TypeError] (a
    text cell where a number is needed), [IndexError] and
    [AttributeError] (an array has no [index]) come from pandas and numpy,
    [LibraryError] from the numeric libraries: the regression solver, and
    numpy and statsmodels on arrays whose shapes do not fit. *)
Inductive exn : Type :=
| ValueError (missing_features : gset string)
| KeyError (cols : list string)
| TypeError
| IndexError
| AttributeError
| ReferenceError
| LibraryError (msg : string).

Inductive result (A : Type) : Type :=
| Ok (a : A)
| Raise (e : exn).
Arguments Ok {A} a.
Arguments Raise {A} e.

Definition bind {A B : Type} (m : result A) (k : A -> result B) : result B :=
  match m with
  | Ok a => k a
  | Raise e => Raise e
  end.

#[global] Instance result_ret : MRet result := fun A a => Ok a.
#[global] Instance result_bind : MBind result := fun A B k m => bind m k.
#[global] Instance result_fmap : FMap result := fun A B f m =>
  match m with
  | Ok a => Ok (f a)
  | Raise e => Raise e
  end.

(** all elements of a list of fallible computations, first error wins *)
Fixpoint sequence {A : Type} (l : list (result A)) : result (list A) :=
  match l with
  | [] => Ok []
  | m :: l' => a ← m; r ← sequence l'; Ok (a :: r)
  end.

(** [a[i]] on an array *)
Definition index {A : Type} (l : list A) (i : nat) : result A :=
  match l !! i with
  | Some a => Ok a
  | None => Raise IndexError
  end.

(** ** pandas frames *)

Inductive cell : Type :=
| Num (v : npfloat)
| Str (s : string).

#[global] Instance npfloat_eq_dec : EqDecision npfloat.
Proof.
  intros a b; unfold Decision.
  destruct a as [x| | |], b as [y| | |];
    try (left; reflexivity); try (right; discriminate).
  destruct (Req_dec_T x y) as [->|Hne]; [left; reflexivity|].
  right; intros [= H]; exact (Hne H).
Defined.

#[global] Instance cell_eq_dec : EqDecision cell.
Proof. solve_decision. Defined.

(** [pd.isna] on a cell *)
Definition isna (c : cell) : bool :=
  match c with
  | Num NaN => true
  | _ => false
  end.

(** A row: its index label and its cells by column name.  A column that
    the row does not fill reads as NaN, as in a frame built from records. *)
Abbreviation row := (Z * gmap string cell)%type.

Definition label (r : row) : Z := r.1.

Definition cell_at (r : row) (c : string) : cell :=
  default (Num NaN) (r.2 !! c).

Record DataFrame : Type := mkDataFrame {
  columns : list string;
  rows : list row
}.

(** A pandas Series: values by index label, in row order. *)
Abbreviation Series A := (list (Z * A)).

Definition values {A : Type} (s : Series A) : list A := map snd s.

Definition has_column (d : DataFrame) (c : string) : bool :=
  bool_decide (c ∈ columns d).

Definition missing_columns (d : DataFrame) (cols : list string) : list string :=
  List.filter (fun c => negb (has_column d c)) cols.

(** [data[c]] *)
Definition column (d : DataFrame) (c : string) : result (Series cell) :=
  if has_column d c
  then Ok (map (fun r => (label r, cell_at r c)) (rows d))
  else Raise (KeyError [c]).

Definition complete_row (cols : list string) (r : row) : bool :=
  forallb (fun c => negb (isna (cell_at r c))) cols.

(** [data.dropna(subset=cols)]: a new frame with the rows that have no
    missing value in [cols]. *)
Definition dropna (d : DataFrame) (cols : list string) : result DataFrame :=
  match missing_columns d cols with
  | [] => Ok (mkDataFrame (columns d) (List.filter (complete_row cols) (rows d)))
  | missing => Raise (KeyError missing)
  end.

Definition to_float (c : cell) : result npfloat :=
  match c with
  | Num v => Ok v
  | Str _ => Raise TypeError
  end.

(** [data[cols].to_numpy()] as a float array *)
Definition to_numpy (d : DataFrame) (cols : list string) : result matrix :=
  match missing_columns d cols with
  | [] => sequence (map (fun r => sequence (map (fun c => to_float (cell_at r c)) cols)) (rows d))
  | missing => Raise (KeyError missing)
  end.

(** [data[c].to_numpy()] as a float array *)
Definition column_to_numpy (d : DataFrame) (c : string) : result vector :=
  s ← column d c; sequence (map to_float (values s)).

(** [s.isin(other)] *)
Definition isin (s other : Series cell) : Series bool :=
  map (fun p => (p.1, bool_decide (p.2 ∈ values other))) s.

(** the value of a Series at a label *)
Definition lookup_label {A : Type} (s : Series A) (i : Z) : option A :=
  snd <$> List.find (fun p => bool_decide (p.1 = i)) s.

(** [a & b] on boolean Series: the operands are aligned on the union of
    their index labels and a label missing on either side gives [False]. *)
Definition series_and (a b : Series bool) : Series bool :=
  (map (fun p => (p.1, p.2 && default false (lookup_label b p.1))) a
   ++ map (fun p => (p.1, false))
        (List.filter (fun p => negb (bool_decide (p.1 ∈ map fst a))) b))%list.

(** builtin [any] over the values of a Series *)
Definition any (s : Series bool) : bool := existsb (fun b => b) (values s).

(** [data.loc[mask]]: the mask is read at the label of each row, and the
    rows marked [True] are kept. *)
Definition loc (d : DataFrame) (mask : Series bool) : DataFrame :=
  mkDataFrame (columns d)
    (List.filter (fun r => default false (lookup_label mask (label r))) (rows d)).

(** [data[c] = s] for a Series carrying the index of [data] *)
Definition assign_column (d : DataFrame) (c : string) (s : Series cell) : DataFrame :=
  mkDataFrame (if has_column d c then columns d else (columns d ++ [c])%list)
    (zip_with (fun (r : row) (p : Z * cell) => (r.1, <[c := p.2]> r.2)) (rows d) s).

(** [np.log10(s)] on a Series *)
Definition series_log10 (s : Series cell) : result (Series cell) :=
  sequence (map (fun p => v ← to_float p.2; Ok (p.1, Num (NP.log10 v))) s).

(** Column [j] of an array. *)
Definition column_at (X : matrix) (j : nat) : vector :=
  map (fun x => nth j x NaN) X.

Definition width (X : matrix) : nat :=
  match X with
  | x :: _ => length x
  | [] => O
  end.

(** [np.ptp(v) == 0 and np.all(v != 0)]: the entries of [v] are one and
    the same number, and it is not zero. *)
Definition nonzero_constant (v : vector) : bool :=
  match v with
  | Fin c :: v' =>
      if Req_dec_T c 0 then false
      else forallb (fun a => bool_decide (a = Fin c)) v'
  | _ => false
  end.

(** the array has a column that can serve as the constant *)
Definition has_constant (X : matrix) : bool :=
  existsb (fun j => nonzero_constant (column_at X j)) (seq 0 (width X)).

(** [sm.add_constant(X)], with its default [has_constant='skip']: a
    column of ones is put in front of the array, unless a column of the
    array is a non-zero constant already: then the array is returned as
    it is.  The test takes the range of each column, which numpy refuses
    on an array without rows. *)
Definition add_constant (X : matrix) : result matrix :=
  match X with
  | [] => Raise (LibraryError "zero-size array to reduction operation")
  | _ => Ok (if has_constant X then X else map (cons (Fin 1)) X)
  end.

(** The design matrix of a formula [target ~ f1 + ... + fk] on the values
    of its features: the column of the Intercept, then the features. *)
Definition dmatrix (X : matrix) : matrix := map (cons (Fin 1)) X.

(** ** Regression results *)

(** What the program reads from a fitted statsmodels result: the
    coefficient names ([params.index]), the coefficients and their
    standard errors (intercept first), the residual degrees of freedom and
    the adjusted R^2.  A result of the formula interface names its
    coefficients, the Intercept first; a result fitted on arrays has
    arrays for coefficients, without names: its [params_index] is empty. *)
Record RegressionResults : Type := mkResults {
  params_index : list string;
  params : vector;
  bse : vector;
  df_resid : Z;
  rsquared_adj : npfloat
}.

(** [model.predict(exog=X)]: the product of the design matrix and the
    coefficient vector; numpy refuses the product unless the matrix has as
    many columns as there are coefficients. *)
Definition predict (model : RegressionResults) (X : matrix) : result vector :=
  if forallb (fun x => bool_decide (length x = length (params model))) X
  then Ok (map (fun x => NP.dot x (params model)) X)
  else Raise (LibraryError "shapes not aligned").

(** ** Memory: frames are objects *)

Abbreviation heap := (gmap positive DataFrame).

(** A computation that reads and writes frames and may raise. *)
Definition M (A : Type) : Type := heap -> result A * heap.

#[global] Instance M_ret : MRet M := fun A a h => (Ok a, h).
#[global] Instance M_bind : MBind M := fun A B k m h =>
  match m h with
  | (Ok a, h') => k a h'
  | (Raise e, h') => (Raise e, h')
  end.

Definition lift {A : Type} (m : result A) : M A := fun h => (m, h).

Definition read (l : positive) : M DataFrame := fun h =>
  match h !! l with
  | Some d => (Ok d, h)
  | None => (Raise ReferenceError, h)
  end.

(** a new object *)
Definition alloc (d : DataFrame) : M positive := fun h =>
  let l := fresh (dom h) in (Ok l, <[l := d]> h).

Definition write (l : positive) (d : DataFrame) : M unit := fun h =>
  (Ok tt, <[l := d]> h).

(** ** Printed output *)

(** A formatted field [{v:.kf}] or literal text. *)
Inductive piece : Type :=
| Text (s : string)
| Float (decimals : nat) (v : npfloat).

Abbreviation line := (list piece).

(** The numbers a line shows, left to right. *)
Definition floats (l : line) : list npfloat :=
  omap (fun p => match p with Float _ v => Some v | Text _ => None end) l.

(** [print] of each line in turn, up to the first one that raises. *)
Fixpoint print_lines (ls : list (result line)) : list line * result unit :=
  match ls with
  | [] => ([], Ok tt)
  | Ok l :: ls' => let (out, r) := print_lines ls' in (l :: out, r)
  | Raise e :: _ => ([], Raise e)
  end.

(** ** The program *)

(** What [regression_slope_t_test] computes (and prints): the values of
    its local variables at the end of the call. *)
Record SlopeTest : Type := mkSlopeTest {
  data12 : option DataFrame;
  model1 : RegressionResults;
  model2 : RegressionResults;
  b1 : npfloat;
  SE1 : npfloat;
  b2 : npfloat;
  SE2 : npfloat;
  residuals : option (vector * vector);
  rho : npfloat;
  t_stat : npfloat;
  df : Z;
  p_value : npfloat
}.

(** The overlapping data of [regression_slope_t_test]: [data12], [X12],
    [y1_common], [y2_common]. *)
Record Common : Type := mkCommon {
  common_data : DataFrame;
  X12 : matrix;
  y1_common : vector;
  y2_common : vector
}.

Section Program.

(** [smf.ols(formula, data).fit()] for the formula [target ~ f1 + ... + fk] *)
Variable smf_ols : string -> list string -> DataFrame -> result RegressionResults.
(** [sm.OLS(y, X).fit()] *)
Variable sm_OLS : vector -> matrix -> result RegressionResults.
(** [stats.t.cdf(x, df)] and [stats.t.ppf(q, df)] *)
Variable t_cdf : npfloat -> Z -> npfloat.
Variable t_ppf : npfloat -> Z -> npfloat.
(** the helpers of [utils] *)
Variable ooms_to_factor_per_year : npfloat -> npfloat.
Variable ooms_to_doubling_time_months : npfloat -> npfloat.

(** [model.conf_int()]: one row [(lower, upper)] per coefficient, at the
    95% level. *)
Definition conf_int (model : RegressionResults) : list (npfloat * npfloat) :=
  let q := t_ppf (Fin (1 - 0.05 / 2)) (df_resid model) in
  zip_with (fun b se => (NP.sub b (NP.mul q se), NP.add b (NP.mul q se)))
    (params model) (bse model).

(** [model.conf_int()[i][j]].  For a result fitted on arrays the table is
    an array: [[i]] is its row [i], the interval of coefficient [i], and
    [[j]] entry [j] of that row.  For a result of the formula interface
    the table is a frame with the columns 0 (lower bounds) and 1 (upper
    bounds), indexed by the coefficient names: [[i]] is column [i], and
    [[j]], an integer on an index of names, the entry of that column at
    position [j], the bound of coefficient [j]. *)
Definition conf_int_entry (model : RegressionResults) (i j : nat) : result npfloat :=
  if bool_decide (params_index model = [])
  then
    interval ← index (conf_int model) i;
    index [interval.1; interval.2] j
  else
    bounds ← match i with
             | O => Ok (map fst (conf_int model))
             | S O => Ok (map snd (conf_int model))
             | _ => Raise (KeyError [])
             end;
    index bounds j.

Definition fit_ols_regression (data : positive) (features : list string)
    (target : string) (logy : bool) : M RegressionResults :=
  (* data = data.dropna(subset=features + [target]) *)
  d ← read data;
  d ← lift (dropna d (features ++ [target])%list);
  data ← alloc d;
  (* if logy: data[target] = np.log10(data[target]) *)
  _ ← (if logy then
         d ← read data;
         s ← lift (column d target);
         s ← lift (series_log10 s);
         write data (assign_column d target s)
       else mret tt);
  (* model = smf.ols(formula=formula, data=data).fit() *)
  d ← read data;
  lift (smf_ols target features d).

Definition get_predictions (model : RegressionResults) (data : DataFrame)
    (features : list string) : result vector :=
  (* model_features = model.params.index[1:] *)
  if bool_decide (params_index model = [])
  then Raise AttributeError
  else
    let model_features := tail (params_index model) in
    let missing_features : gset string :=
      list_to_set model_features ∖ list_to_set (columns data) in
    if bool_decide (missing_features ≠ ∅)
    then Raise (ValueError missing_features)
    else
      (* predictions = model.predict(data): the formula of the model is
         evaluated on the data *)
      X ← to_numpy data model_features;
      predict model (dmatrix X).

Definition print_growth_rates (model : RegressionResults) : list line * result unit :=
  let slope := index (params model) 1 in
  let ci_1_0 := conf_int_entry model 1 0 in
  let ci_1_1 := conf_int_entry model 1 1 in
  print_lines [
    Ok [Text "Adj. R^2="; Float 2 (rsquared_adj model)];
    (b ← slope; c0 ← ci_1_0; c1 ← ci_1_1;
     Ok [Float 2 b; Text " OOMs/year (95% CI: "; Float 2 c0; Text ", ";
         Float 2 c1; Text ")"]);
    (b ← slope; c0 ← ci_1_0; c1 ← ci_1_1;
     Ok [Float 1 (ooms_to_factor_per_year b); Text "x/year (95% CI: ";
         Float 1 (ooms_to_factor_per_year c0); Text "x, ";
         Float 1 (ooms_to_factor_per_year c1); Text "x)"]);
    (b ← slope; c1 ← ci_1_1; c0 ← ci_1_0;
     Ok [Text "doubling time of "; Float 0 (ooms_to_doubling_time_months b);
         Text " months (95% CI: "; Float 0 (ooms_to_doubling_time_months c1);
         Text ", "; Float 0 (ooms_to_doubling_time_months c0); Text ")"])
  ].

(** Lines 81-84 (and 86-89): filter, design matrix with constant, target. *)
Definition design (data : DataFrame) (features : list string) (target : string)
    : result (DataFrame * matrix * vector) :=
  data ← dropna data (features ++ [target])%list;
  X ← to_numpy data features;
  X ← add_constant X;
  y ← column_to_numpy data target;
  Ok (data, X, y).

(** Line 91: the mask of the rows taken as common. *)
Definition common_systems (data1 data2 : DataFrame) : result (Series bool) :=
  s1 ← column data1 "System";
  s2 ← column data2 "System";
  Ok (series_and (isin s1 s2) (isin s2 s1)).

(** Lines 92-97, on the filtered frames. *)
Definition common_part (data1 data2 : DataFrame) (mask : Series bool)
    (features : list string) (target : string) : result (option Common) :=
  if any mask then
    d12 ← dropna (loc data1 mask) (features ++ [target])%list;
    X ← to_numpy d12 features;
    X ← add_constant X;
    y1c ← column_to_numpy (loc data1 mask) target;
    y2c ← column_to_numpy (loc data2 mask) target;
    Ok (Some (mkCommon d12 X y1c y2c))
  else Ok None.

Definition log10_common (c : Common) : Common :=
  mkCommon (common_data c) (X12 c)
    (map NP.log10 (y1_common c)) (map NP.log10 (y2_common c)).

(** Line 129: [SE1 ** 2 + SE2 ** 2 - 2 * SE1 * SE2 * rho] and the
    statistic [(b1 - b2) / np.sqrt(...)]. *)
Definition adjusted_variance (SE1 SE2 rho : npfloat) : npfloat :=
  NP.sub (NP.add (NP.square SE1) (NP.square SE2))
         (NP.mul (NP.mul (NP.mul (NP.of_Z 2) SE1) SE2) rho).

Definition test_statistic (b1 SE1 b2 SE2 rho : npfloat) : npfloat :=
  NP.div (NP.sub b1 b2) (NP.sqrt (adjusted_variance SE1 SE2 rho)).

(** Lines 118-120: the residuals of the overlapping data as predicted by
    each model, when there is overlapping data. *)
Definition residuals_of (common : option Common)
    (model1 model2 : RegressionResults) : result (option (vector * vector)) :=
  match common with
  | Some c =>
      p1 ← predict model1 (X12 c);
      p2 ← predict model2 (X12 c);
      Ok (Some (NP.vsub (y1_common c) p1, NP.vsub (y2_common c) p2))
  | None => Ok None
  end.

(** Lines 122-137: the correlation of the residuals, the statistic, the
    degrees of freedom and the p-value, from the two fits, their slopes
    and the numbers of rows of the two designs. *)
Definition compare_slopes (data12 : option DataFrame)
    (residuals : option (vector * vector))
    (model1 model2 : RegressionResults) (b1 SE1 b2 SE2 : npfloat)
    (n1 n2 : nat) (adj_corr : bool) : SlopeTest :=
  let rho :=
    match residuals with
    | Some (residuals_model1, residuals_model2) =>
        if adj_corr then NP.corrcoef residuals_model1 residuals_model2 else Fin 0
    | None => Fin 0
    end in
  let t_stat := test_statistic b1 SE1 b2 SE2 rho in
  let df1 := (Z.of_nat n1 - 2)%Z in
  let df2 := (Z.of_nat n2 - 2)%Z in
  let df := (df1 + df2)%Z in
  let p_value :=
    NP.mul (NP.of_Z 2) (NP.sub (NP.of_Z 1) (t_cdf (NP.abs t_stat) df)) in
  mkSlopeTest data12 model1 model2 b1 SE1 b2 SE2
    residuals rho t_stat df p_value.

Definition regression_slope_t_test (data1 data2 : DataFrame)
    (features : list string) (target : string) (logy adj_corr : bool)
    : result SlopeTest :=
  '(data1, X1, y1) ← design data1 features target;
  '(data2, X2, y2) ← design data2 features target;
  mask ← common_systems data1 data2;
  common ← common_part data1 data2 mask features target;
  (* if logy: ... *)
  let y1 := if logy then map NP.log10 y1 else y1 in
  let y2 := if logy then map NP.log10 y2 else y2 in
  let common := if logy then log10_common <$> common else common in
  (* separate regressions, slopes and standard errors *)
  model1 ← sm_OLS y1 X1;
  model2 ← sm_OLS y2 X2;
  b1 ← index (params model1) 1;
  SE1 ← index (bse model1) 1;
  b2 ← index (params model2) 1;
  SE2 ← index (bse model2) 1;
  (* residuals of the overlapping data *)
  residuals ← residuals_of common model1 model2;
  Ok (compare_slopes (common_data <$> common) residuals model1 model2
        b1 SE1 b2 SE2 (length X1) (length X2) adj_corr).

End Program.

(** ** The prediction table *)

(** The interval columns of a prediction summary, for one row of the
    design: [mean_se], [mean_ci_lower], [mean_ci_upper], [obs_ci_lower],
    [obs_ci_upper]. *)
Record Bounds : Type := mkBounds {
  mean_se : npfloat;
  mean_ci_lower : npfloat;
  mean_ci_upper : npfloat;
  obs_ci_lower : npfloat;
  obs_ci_upper : npfloat
}.

(** [data[c] = s] for a Series with an index of its own (of distinct
    labels): the Series is aligned on the row labels of [data], and a
    label it does not have gives NaN. *)
Definition assign_aligned (d : DataFrame) (c : string) (s : Series cell) : DataFrame :=
  mkDataFrame (if has_column d c then columns d else (columns d ++ [c])%list)
    (map (fun r : row =>
            (r.1, <[c := default (Num NaN) (lookup_label s (label r))]> r.2))
       (rows d)).

(** the columns of a prediction summary *)
Definition summary_columns : list string :=
  ["mean"; "mean_se"; "mean_ci_lower"; "mean_ci_upper"; "obs_ci_lower"; "obs_ci_upper"].

Section PredictionTable.

(** the standard error and interval bounds statsmodels computes for the
    prediction at one row of the design *)
Variable prediction_bounds : RegressionResults -> vector -> Bounds.

Definition summary_row (model : RegressionResults) (i : nat) (x : vector) : row :=
  let b := prediction_bounds model x in
  (Z.of_nat i,
   {[ "mean" := Num (NP.dot x (params model));
      "mean_se" := Num (mean_se b);
      "mean_ci_lower" := Num (mean_ci_lower b);
      "mean_ci_upper" := Num (mean_ci_upper b);
      "obs_ci_lower" := Num (obs_ci_lower b);
      "obs_ci_upper" := Num (obs_ci_upper b) ]}).

(** [model.get_prediction(X).summary_frame()] for an array [X].  A
    result of the formula interface wants a frame to evaluate its formula
    on and rejects an array; for a result fitted on arrays the product of
    [X] and the coefficients needs as many columns in [X] as there are
    coefficients, and the rows of the summary are numbered from 0. *)
Definition summary_frame (model : RegressionResults) (X : matrix) : result DataFrame :=
  if bool_decide (params_index model <> [])
  then Raise (LibraryError "predict requires a DataFrame")
  else if forallb (fun x => bool_decide (length x = length (params model))) X
  then Ok (mkDataFrame summary_columns (imap (summary_row model) X))
  else Raise (LibraryError "shapes not aligned").

Definition get_prediction_df (model : RegressionResults) (data : DataFrame)
    (features : list string) : result DataFrame :=
  (* X = data[features].to_numpy(); X = sm.add_constant(X) *)
  X ← to_numpy data features;
  X ← add_constant X;
  (* pred_df = model.get_prediction(X).summary_frame() *)
  pred_df ← summary_frame model X;
  (* pred_df[features] = data[features] *)
  cols ← sequence (map (column data) features);
  Ok (fold_left (fun df (fs : string * Series cell) => assign_aligned df fs.1 fs.2)
        (zip features cols) pred_df).

End PredictionTable.

(** ** Reference numeric library

    Closed forms that stand for the external libraries when the program is
    run on concrete data. *)

(** Ordinary least squares by the normal equations, for a design made of
    the constant and one feature: slope [Sxy / Sxx], intercept
    [ybar - slope * xbar], residual variance [RSS / (n - 2)]. *)
Definition ols_simple (y : vector) (X : matrix) : result RegressionResults :=
  if forallb (fun r => bool_decide (length r = 2%nat)) X then
    let x := map (fun r => nth 1 r NaN) X in
    let n := Z.of_nat (length y) in
    let xbar := NP.mean x in
    let ybar := NP.mean y in
    let Sxx := NP.dot (NP.center x) (NP.center x) in
    let Sxy := NP.dot (NP.center x) (NP.center y) in
    let slope := NP.div Sxy Sxx in
    let intercept := NP.sub ybar (NP.mul slope xbar) in
    let resid := NP.vsub y (map (fun xi => NP.add intercept (NP.mul slope xi)) x) in
    let rss := NP.dot resid resid in
    let sigma2 := NP.div rss (NP.of_Z (n - 2)) in
    let se_slope := NP.sqrt (NP.div sigma2 Sxx) in
    let se_intercept :=
      NP.sqrt (NP.mul sigma2
                 (NP.add (NP.div (Fin 1) (NP.of_Z n)) (NP.div (NP.square xbar) Sxx))) in
    let tss := NP.dot (NP.center y) (NP.center y) in
    let r2_adj :=
      NP.sub (Fin 1) (NP.div sigma2 (NP.div tss (NP.of_Z (n - 1)))) in
    Ok (mkResults [] [intercept; slope] [se_intercept; se_slope] (n - 2) r2_adj)
  else Raise (LibraryError "design not supported").


(** The formula interface over [ols_simple]: rows with a missing value in
    a formula variable are dropped, the design gets the intercept first and
    the coefficients are named. *)
Definition smf_ols_simple (target : string) (features : list string)
    (data : DataFrame) : result RegressionResults :=
  data ← dropna data (features ++ [target])%list;
  X ← to_numpy data features;
  y ← column_to_numpy data target;
  m ← ols_simple y (dmatrix X);
  Ok (mkResults ("Intercept" :: features) (params m) (bse m) (df_resid m)
        (rsquared_adj m)).

(** Student's t distribution function for a positive integer number of
    degrees of freedom, by the finite trigonometric sums in
    [theta = atan (t / sqrt df)]. *)
Fixpoint cos_sum (ratio : nat -> R) (q : R) (j : nat) (term : R) (m : nat) : R :=
  match m with
  | O => 0
  | S m' => term + cos_sum ratio q (S j) (term * ratio (S j) * q) m'
  end.

Definition student_area (t : R) (nu : nat) : R :=
  let theta := atan (t / R_sqrt.sqrt (INR nu)) in
  let q := cos theta * cos theta in
  if Nat.even nu
  then sin theta * cos_sum (fun j => (2 * INR j - 1) / (2 * INR j)) q 0 1 (nu / 2)
  else 2 / PI * (theta + sin theta *
         cos_sum (fun j => (2 * INR j) / (2 * INR j + 1)) q 0 (cos theta) ((nu - 1) / 2)).

Definition student_t_cdf (x : npfloat) (df : Z) : npfloat :=
  if (df <=? 0)%Z then NaN
  else match x with
       | Fin t => Fin (1 / 2 + student_area t (Z.to_nat df) / 2)
       | PInf => Fin 1
       | NInf => Fin 0
       | NaN => NaN
       end.

(** Modelled from the spec: [ooms_to_factor_per_year] and
    [ooms_to_doubling_time_months] of the module [utils], which is not
    among the sources.  The factor per year is [10 ^ slope]; the doubling
    time is [log10(2) / slope] years, in months. *)
Definition ooms_to_factor_per_year (ooms : npfloat) : npfloat :=
  match ooms with
  | Fin r => Fin (exp (r * ln 10))
  | PInf => PInf
  | NInf => Fin 0
  | NaN => NaN
  end.

Definition ooms_to_doubling_time_months (ooms : npfloat) : npfloat :=
  NP.mul (Fin 12) (NP.div (NP.log10 (Fin 2)) ooms).

(** ** The Common Subset as the specification words it *)

Definition systems (d : DataFrame) : list cell :=
  map (fun r => cell_at r "System") (rows d).

(** The rows of the first dataset whose System occurs in the second one
    (so in both), then the missing-value filter. *)
Definition spec_common_subset (data1 data2 : DataFrame)
    (features : list string) (target : string) : DataFrame :=
  mkDataFrame (columns data1)
    (List.filter (complete_row (features ++ [target])%list)
       (List.filter (fun r => bool_decide (cell_at r "System" ∈ systems data2))
          (rows data1))).

(** Both datasets are row selections (in order) of one table whose rows
    have distinct labels and distinct Systems. *)
Record selections_of (table data1 data2 : DataFrame) : Prop := {
  sel_labels : NoDup (map label (rows table));
  sel_systems : NoDup (systems table);
  sel_rows1 : rows data1 `sublist_of` rows table;
  sel_rows2 : rows data2 `sublist_of` rows table
}.

(** ** The logarithm of the target, taken beforehand

    [data.assign(target=np.log10(data[target]))]: the frame with the
    base-10 logarithm of the target column in place of it, to compare
    the log flag with. *)
Definition log10_row (target : string) (r : row) : row :=
  (r.1, <[target := match cell_at r target with
                    | Num v => Num (NP.log10 v)
                    | Str s => Str s
                    end]> r.2).

Definition log10_target (d : DataFrame) (target : string) : DataFrame :=
  mkDataFrame (columns d) (map (log10_row target) (rows d)).

(** A target that is missing or a number [>= 0]. *)
Definition loggable (target : string) (r : row) : Prop :=
  cell_at r target = Num NaN \/
  exists x : R, cell_at r target = Num (Fin x) /\ 0 <= x.

(** ** Example data *)

Module Examples.

Definition observation (i : Z) (system : string) (x y : R) : row :=
  (i, {[ "System" := Str system; "x" := Num (Fin x); "y" := Num (Fin y) ]}).

Definition frame (rs : list row) : DataFrame := mkDataFrame ["System"; "x"; "y"] rs.

(** slope 1, intercept 0, residuals (-1, 1, 1, -1) *)
Definition A : DataFrame :=
  frame [observation 0 "a" 0 (-1); observation 1 "b" 1 2;
         observation 2 "c" (-1) 0; observation 3 "d" 0 (-1)].

(** the same observations shifted by [x]: slope 2, same residuals *)
Definition A2 : DataFrame :=
  frame [observation 0 "a" 0 (-1); observation 1 "b" 1 3;
         observation 2 "c" (-1) (-1); observation 3 "d" 0 (-1)].

(** a table of its own, numbered from 0 like [A]; it holds systems "a"
    and "b" too, in the other order and with other values *)
Definition B : DataFrame :=
  frame [observation 0 "b" (-4) 2; observation 1 "a" 0 (-2);
         observation 2 "e" 0 (-2); observation 3 "f" 4 2].

(** the rows of [A], numbered from 10 *)
Definition A_renumbered : DataFrame :=
  frame [observation 10 "a" 0 (-1); observation 11 "b" 1 2;
         observation 12 "c" (-1) 0; observation 13 "d" 0 (-1)].

(** the rows of [A] but the first *)
Definition A_tail : DataFrame :=
  frame [observation 1 "b" 1 2; observation 2 "c" (-1) 0; observation 3 "d" 0 (-1)].

(** other systems than those of [A] *)
Definition C : DataFrame :=
  frame [observation 0 "e" (-4) 2; observation 1 "f" 0 (-2);
         observation 2 "g" 0 (-2); observation 3 "h" 4 2].

(** a formula fit on the feature "x", and one on "x" and "z" *)
Definition model_x : RegressionResults :=
  mkResults ["Intercept"; "x"] [Fin 0; Fin (1 / 2)] [Fin (1 / 5); Fin (1 / 10)] 2
    (Fin (9 / 10)).

Definition model_xz : RegressionResults :=
  mkResults ["Intercept"; "x"; "z"] [Fin 0; Fin (1 / 2); Fin 3]
    [Fin (1 / 5); Fin (1 / 10); Fin 1] 1 (Fin (9 / 10)).

(** [A] without the column of Systems *)
Definition A_unnamed : DataFrame :=
  mkDataFrame ["x"; "y"] (rows A).


(** a fit with the intercept alone *)
Definition model_const : RegressionResults :=
  mkResults ["Intercept"] [Fin 3] [Fin (1 / 5)] 3 (Fin 0).

(** an array fit: intercept 0, slope 1/2 *)
Definition model_array : RegressionResults :=
  mkResults [] [Fin 0; Fin (1 / 2)] [Fin (1 / 5); Fin (1 / 10)] 2 (Fin (9 / 10)).

(** positive targets *)
Definition G : DataFrame :=
  frame [observation 0 "a" 0 1; observation 1 "b" 1 10;
         observation 2 "c" 2 1000; observation 3 "d" 3 100].

Definition G2 : DataFrame :=
  frame [observation 0 "a" 0 10; observation 1 "b" 1 100;
         observation 2 "e" 2 1].




(** bounds of width 1 around the prediction *)
Definition unit_bounds (model : RegressionResults) (x : vector) : Bounds :=
  let m := NP.dot x (params model) in
  mkBounds (Fin (1 / 2)) (NP.sub m (Fin 1)) (NP.add m (Fin 1))
    (NP.sub m (Fin 2)) (NP.add m (Fin 2)).

End Examples.

(** * Properties *)

(** ** Fallible computations *)

Lemma bind_Ok {A B : Type} (m : result A) (k : A -> result B) (b : B) :
  m ≫= k = Ok b <-> exists a, m = Ok a /\ k a = Ok b.
Proof.
  destruct m as [a|e]; simpl; split.
  - intros H; exists a; auto.
  - intros (a' & [= <-] & H); exact H.
  - discriminate.
  - intros (a' & [=] & _).
Qed.

Lemma sequence_Ok {A : Type} (l : list (result A)) (r : list A) :
  sequence l = Ok r <-> Forall2 (fun m a => m = Ok a) l r.
Proof.
  revert r; induction l as [|m l IH]; intros r; simpl.
  - split.
    + intros [= <-]; constructor.
    + intros H; inversion H; reflexivity.
  - split.
    + intros H. apply bind_Ok in H as (a & -> & H).
      apply bind_Ok in H as (r' & Hr & [= <-]).
      constructor; [reflexivity|]. apply IH, Hr.
    + intros H; inversion H as [|? a ? r' Hm Hl]; subst.
      apply IH in Hl. cbn. rewrite Hl. reflexivity.
Qed.

Lemma sequence_map_Ok {A B : Type} (f : A -> result B) (l : list A) (r : list B) :
  sequence (map f l) = Ok r <-> Forall2 (fun a b => f a = Ok b) l r.
Proof.
  rewrite sequence_Ok. split; intros H.
  - apply Forall2_fmap_l in H. exact H.
  - apply Forall2_fmap_l. exact H.
Qed.


Lemma sequence_Raise {A : Type} (l : list (result A)) (e : exn) :
  sequence l = Raise e -> Raise e ∈ l.
Proof.
  induction l as [|m l IH]; simpl; [discriminate|].
  destruct m as [a|e']; cbn.
  - destruct (sequence l) as [r|e'']; cbn; [discriminate|].
    intros [= ->]. right. apply IH. reflexivity.
  - intros [= ->]. left.
Qed.

Lemma sequence_to_float (cs : list cell) (y : vector) :
  sequence (map to_float cs) = Ok y <-> cs = map Num y.
Proof.
  rewrite sequence_map_Ok. revert y.
  induction cs as [|c cs IH]; intros y.
  - split.
    + intros H; inversion H; reflexivity.
    + destruct y; [constructor|discriminate].
  - split.
    + intros H; inversion H as [|? v ? y' Hc Hy]; subst.
      apply IH in Hy as ->. destruct c; [|discriminate].
      injection Hc as ->. reflexivity.
    + destruct y as [|v y]; [discriminate|]. intros [= -> Hy].
      constructor; [reflexivity|]. apply IH, Hy.
Qed.

(** ** Lists *)

(** The rows of a filtered frame have no missing value in the filtered
    columns, so filtering again changes nothing. *)
Lemma filter_filter_same {A : Type} (p q : A -> bool) (l : list A) :
  List.filter p (List.filter q (List.filter p l)) = List.filter q (List.filter p l).
Proof.
  induction l as [|a l IH]; simpl; [reflexivity|].
  destruct (p a) eqn:Hp; simpl; [|exact IH].
  destruct (q a); simpl; [|exact IH].
  rewrite Hp, IH. reflexivity.
Qed.

Lemma filter_comm {A : Type} (p q : A -> bool) (l : list A) :
  List.filter p (List.filter q l) = List.filter q (List.filter p l).
Proof.
  induction l as [|a l IH]; simpl; [reflexivity|].
  destruct (p a) eqn:Hp, (q a) eqn:Hq; simpl; rewrite ?Hp, ?Hq, IH; reflexivity.
Qed.

Lemma filter_nonempty_iff {A : Type} (p : A -> bool) (l : list A) :
  List.filter p l <> [] <-> exists x, x ∈ l /\ p x = true.
Proof.
  induction l as [|a l IH]; simpl.
  - split; [intros H; destruct H; reflexivity|intros (x & Hx & _); inversion Hx].
  - destruct (p a) eqn:Hp.
    + split; [intros _; exists a; split; [left|exact Hp] | discriminate].
    + rewrite IH. split.
      * intros (x & Hx & Hpx). exists x. split; [right; exact Hx|exact Hpx].
      * intros (x & Hx & Hpx). apply elem_of_cons in Hx as [->|Hx]; [congruence|eauto].
Qed.

Lemma Forall2_filter_l {A B : Type} (P : A -> B -> Prop) (p : A -> bool)
    (l : list A) (k : list B) :
  Forall2 P l k -> exists k', Forall2 P (List.filter p l) k'.
Proof.
  induction 1 as [|a b l k Hab _ (k' & IH)]; simpl.
  - exists []. constructor.
  - destruct (p a); [exists (b :: k'); constructor; assumption | exists k'; exact IH].
Qed.

Lemma filter_sublist {A : Type} (p : A -> bool) (l : list A) :
  List.filter p l `sublist_of` l.
Proof.
  induction l as [|a l IH]; simpl; [constructor|].
  destruct (p a); [apply sublist_skip|apply sublist_cons]; exact IH.
Qed.

Lemma map_sublist {A B : Type} (f : A -> B) (l k : list A) :
  l `sublist_of` k -> map f l `sublist_of` map f k.
Proof. induction 1; simpl; [constructor | apply sublist_skip | apply sublist_cons]; assumption. Qed.

Lemma NoDup_map_inj {A B : Type} (f : A -> B) (l : list A) (x y : A) :
  NoDup (map f l) -> x ∈ l -> y ∈ l -> f x = f y -> x = y.
Proof.
  induction l as [|a l IH]; simpl; intros Hnd Hx Hy Hf; [inversion Hx|].
  apply NoDup_cons in Hnd as [Ha Hnd].
  assert (Hin : forall z, z ∈ l -> f z ∈ map f l).
  { intros z Hz. apply list_elem_of_In, in_map_iff.
    exists z. split; [reflexivity|apply list_elem_of_In, Hz]. }
  apply elem_of_cons in Hx as [->|Hx]; apply elem_of_cons in Hy as [->|Hy].
  - reflexivity.
  - destruct Ha. rewrite Hf. apply Hin, Hy.
  - destruct Ha. rewrite <- Hf. apply Hin, Hx.
  - apply IH; assumption.
Qed.

Lemma NoDup_map_filter {A B : Type} (f : A -> B) (p : A -> bool) (l : list A) :
  NoDup (map f l) -> NoDup (map f (List.filter p l)).
Proof.
  induction l as [|a l IH]; simpl; intros H; [constructor|].
  apply NoDup_cons in H as [Ha H].
  destruct (p a); simpl; [|apply IH, H].
  apply NoDup_cons. split; [|apply IH, H].
  intros Hin. apply Ha.
  apply list_elem_of_In, in_map_iff in Hin as (x & Hx & Hin).
  apply filter_In in Hin as [Hin _].
  apply list_elem_of_In, in_map_iff. eauto.
Qed.

(** Two selections of a duplicate-free list filtered by a predicate that
    holds, on each, exactly for the elements of the other, are equal. *)
Lemma filter_selections {A : Type} (p : A -> bool) (t l1 l2 : list A) :
  NoDup t -> l1 `sublist_of` t -> l2 `sublist_of` t ->
  (forall x, x ∈ l1 -> (p x = true <-> x ∈ l2)) ->
  (forall x, x ∈ l2 -> (p x = true <-> x ∈ l1)) ->
  List.filter p l1 = List.filter p l2.
Proof.
  intros Hnd. revert l1 l2.
  induction Hnd as [|a t Ha Hnd IH]; intros l1 l2 H1 H2 Hp1 Hp2.
  - apply sublist_nil_r in H1, H2. subst. reflexivity.
  - apply sublist_cons_r in H1 as [H1|(l1' & -> & H1)];
      apply sublist_cons_r in H2 as [H2|(l2' & -> & H2)].
    + apply IH; assumption.
    + assert (p a = false) as Hpa.
      { destruct (p a) eqn:E; [|reflexivity]. destruct Ha.
        eapply elem_of_sublist; [|exact H1]. apply Hp2; [left|exact E]. }
      simpl. rewrite Hpa. apply IH; [assumption..| |].
      * intros x Hx. rewrite (Hp1 x Hx). rewrite elem_of_cons.
        split; [|auto]. intros [->|H]; [|exact H].
        destruct Ha. eapply elem_of_sublist; eassumption.
      * intros x Hx. apply Hp2. right. exact Hx.
    + assert (p a = false) as Hpa.
      { destruct (p a) eqn:E; [|reflexivity]. destruct Ha.
        eapply elem_of_sublist; [|exact H2]. apply Hp1; [left|exact E]. }
      simpl. rewrite Hpa. apply IH; [assumption..| |].
      * intros x Hx. apply Hp1. right. exact Hx.
      * intros x Hx. rewrite (Hp2 x Hx). rewrite elem_of_cons.
        split; [|auto]. intros [->|H]; [|exact H].
        destruct Ha. eapply elem_of_sublist; eassumption.
    + assert (p a = true) as Hpa by (apply Hp1; left).
      simpl. rewrite Hpa. f_equal. apply IH; [assumption..| |].
      * intros x Hx. rewrite (Hp1 x) by (right; exact Hx).
        rewrite elem_of_cons. split; [|auto]. intros [->|H]; [|exact H].
        destruct Ha. eapply elem_of_sublist; eassumption.
      * intros x Hx. rewrite (Hp2 x) by (right; exact Hx).
        rewrite elem_of_cons. split; [|auto]. intros [->|H]; [|exact H].
        destruct Ha. eapply elem_of_sublist; eassumption.
Qed.

(** ** Arithmetic of numpy floats *)

Ltac np_decide :=
  repeat match goal with
  | |- context [Rlt_dec ?a ?b] => destruct (Rlt_dec a b)
  | |- context [Req_dec_T ?a ?b] => destruct (Req_dec_T a b)
  end.

Ltac np_unfold :=
  unfold NP.sub, NP.square, NP.mul, NP.div, NP.add, NP.neg, NP.abs, NP.sqrt,
    NP.log10, NP.scale_inf, NP.of_Z, NP.clip1.

Ltac np_solve :=
  np_unfold; np_decide;
  try reflexivity; try (exfalso; lra); try (f_equal; lra).

Lemma add_comm (a b : npfloat) : NP.add a b = NP.add b a.
Proof. destruct a, b; np_solve. Qed.

Lemma mul_comm (a b : npfloat) : NP.mul a b = NP.mul b a.
Proof. destruct a, b; np_solve. Qed.

Lemma sub_swap (a b : npfloat) : NP.sub b a = NP.neg (NP.sub a b).
Proof. destruct a, b; np_solve. Qed.

Lemma mul_2_swap (a b : npfloat) :
  NP.mul (NP.mul (NP.of_Z 2) a) b = NP.mul (NP.mul (NP.of_Z 2) b) a.
Proof. destruct a, b; np_solve. Qed.

Lemma abs_neg (a : npfloat) : NP.abs (NP.neg a) = NP.abs a.
Proof. destruct a; np_solve. f_equal. apply Rabs_Ropp. Qed.

Lemma div_neg (a d : npfloat) : NP.div (NP.neg a) d = NP.neg (NP.div a d).
Proof. destruct a, d; np_solve. Qed.

Lemma sign_div (x y : R) : y <> 0 -> (0 < x / y <-> 0 < x * y).
Proof.
  intros Hy. unfold Rdiv.
  destruct (Rlt_dec 0 y) as [Hp|Hn].
  - pose proof (Rinv_0_lt_compat y Hp). split; intros; nra.
  - assert (y < 0) as Hlt by lra.
    pose proof (Rinv_lt_0_compat y Hlt). split; intros; nra.
Qed.

Lemma sign_div_neg (x y : R) : y <> 0 -> (x / y < 0 <-> x * y < 0).
Proof.
  intros Hy. unfold Rdiv.
  destruct (Rlt_dec 0 y) as [Hp|Hn].
  - pose proof (Rinv_0_lt_compat y Hp). split; intros; nra.
  - assert (y < 0) as Hlt by lra.
    pose proof (Rinv_lt_0_compat y Hlt). split; intros; nra.
Qed.

Ltac sign_facts :=
  repeat match goal with
  | Hy : ?y <> 0, H : context [?x / ?y] |- _ =>
      lazymatch goal with
      | _ : (0 < x / y <-> _) |- _ => fail
      | _ => pose proof (sign_div x y Hy); pose proof (sign_div_neg x y Hy)
      end
  end.

(** Dividing by two numbers in either order gives the same result. *)
Lemma div_div_swap (a b c : npfloat) :
  NP.div (NP.div a b) c = NP.div (NP.div a c) b.
Proof.
  destruct a as [x| | |], b as [y| | |], c as [z| | |]; np_unfold; np_decide;
    try reflexivity; try (exfalso; lra); try (f_equal; lra);
    try (f_equal; field; split; assumption);
    sign_facts; exfalso; intuition nra.
Qed.

Lemma dot_comm (x y : vector) : NP.dot x y = NP.dot y x.
Proof.
  unfold NP.dot. f_equal.
  revert y; induction x as [|a x IH]; intros [|b y]; simpl; try reflexivity.
  rewrite mul_comm, IH. reflexivity.
Qed.

Lemma cov_sym (x y : vector) :
  length x = length y -> NP.cov x y = NP.cov y x.
Proof. intros H. unfold NP.cov. rewrite dot_comm, H. reflexivity. Qed.

(** The correlation coefficient of two arrays of one length does not
    depend on their order. *)
Lemma corrcoef_sym (x y : vector) :
  length x = length y -> NP.corrcoef x y = NP.corrcoef y x.
Proof.
  intros H. unfold NP.corrcoef.
  rewrite (cov_sym x y H), div_div_swap. reflexivity.
Qed.

Lemma adjusted_variance_swap (e1 e2 rho : npfloat) :
  adjusted_variance e2 e1 rho = adjusted_variance e1 e2 rho.
Proof.
  unfold adjusted_variance.
  rewrite (add_comm (NP.square e2)), (mul_2_swap e2 e1). reflexivity.
Qed.

(** Exchanging the two fits negates the statistic. *)
Lemma test_statistic_swap (s1 e1 s2 e2 rho : npfloat) :
  test_statistic s2 e2 s1 e1 rho = NP.neg (test_statistic s1 e1 s2 e2 rho).
Proof.
  unfold test_statistic.
  rewrite adjusted_variance_swap, (sub_swap s1 s2), div_neg. reflexivity.
Qed.

(** What the statistic is when the adjusted variance is not positive. *)
Lemma test_statistic_degenerate (s1 e1 s2 e2 rho : npfloat) (v : R) :
  adjusted_variance e1 e2 rho = Fin v -> v <= 0 ->
  (v < 0 -> test_statistic s1 e1 s2 e2 rho = NaN) /\
  (test_statistic s1 e1 s2 e2 rho = NaN \/
   test_statistic s1 e1 s2 e2 rho = PInf \/
   test_statistic s1 e1 s2 e2 rho = NInf).
Proof.
  intros Hv Hle. unfold test_statistic. rewrite Hv.
  assert (Hsqrt : NP.sqrt (Fin v) = NaN \/ NP.sqrt (Fin v) = Fin 0 /\ v = 0).
  { unfold NP.sqrt. destruct (Rlt_dec v 0) as [|Hn]; [left; reflexivity|].
    right. assert (v = 0) as -> by lra. rewrite sqrt_0. auto. }
  split.
  - intros Hlt. unfold NP.sqrt. destruct (Rlt_dec v 0); [|lra].
    destruct (NP.sub s1 s2); reflexivity.
  - destruct Hsqrt as [->|[-> _]].
    + left. destruct (NP.sub s1 s2); reflexivity.
    + destruct (NP.sub s1 s2) as [x| | |]; np_unfold; np_decide; auto; exfalso; lra.
Qed.


(** ** Frames *)

Lemma missing_columns_nil (d : DataFrame) (cols : list string) :
  missing_columns d cols = [] <-> forall c, c ∈ cols -> c ∈ columns d.
Proof.
  unfold missing_columns, has_column.
  induction cols as [|c cols IH]; simpl.
  - split; [intros _ c Hc; inversion Hc | reflexivity].
  - destruct (bool_decide_reflect (c ∈ columns d)) as [Hc|Hc]; simpl.
    + rewrite IH. split.
      * intros H c' Hc'. apply elem_of_cons in Hc' as [->|Hc']; auto.
      * intros H c' Hc'. apply H. right. exact Hc'.
    + split; [discriminate|]. intros H. destruct Hc. apply H. left.
Qed.

Lemma to_numpy_Ok (d : DataFrame) (cols : list string) (X : matrix) :
  to_numpy d cols = Ok X <->
  (forall c, c ∈ cols -> c ∈ columns d) /\
  Forall2 (fun r x => map (cell_at r) cols = map Num x) (rows d) X.
Proof.
  unfold to_numpy.
  assert (Hrow : forall r x,
    sequence (map (fun c => to_float (cell_at r c)) cols) = Ok x <->
    map (cell_at r) cols = map Num x).
  { intros r x. rewrite sequence_map_Ok.
    revert x. induction cols as [|c cols IH]; intros x; simpl.
    - split; [intros H; inversion H; reflexivity|].
      destruct x; [constructor|discriminate].
    - split.
      + intros H; inversion H as [|? v ? x' Hc Hx]; subst.
        apply IH in Hx. simpl. rewrite Hx.
        destruct (cell_at r c); [|discriminate].
        injection Hc as ->. reflexivity.
      + destruct x as [|v x]; [discriminate|]. simpl. intros [= Hc Hx].
        constructor; [rewrite Hc; reflexivity|]. apply IH, Hx. }
  destruct (missing_columns d cols) as [|c0 miss] eqn:Hm.
  - pose proof (proj1 (missing_columns_nil _ _) Hm) as Hm'. cbv iota. rewrite sequence_map_Ok. split.
    + intros H. split; [exact Hm'|].
      eapply Forall2_impl; [exact H|]. intros r x. apply Hrow.
    + intros [_ H]. eapply Forall2_impl; [exact H|]. intros r x. apply Hrow.
  - split; [discriminate|]. intros [H _].
    apply missing_columns_nil in H. congruence.
Qed.

Lemma to_numpy_Raise (d : DataFrame) (cols : list string) (e : exn) :
  to_numpy d cols = Raise e -> e = TypeError \/ exists missing, e = KeyError missing.
Proof.
  unfold to_numpy. destruct (missing_columns d cols) as [|c miss].
  - intros H. apply sequence_Raise in H.
    apply list_elem_of_In, in_map_iff in H as (r & H & _).
    apply sequence_Raise in H.
    apply list_elem_of_In, in_map_iff in H as (c & H & _).
    destruct (cell_at r c); [discriminate|]. injection H as <-. left. reflexivity.
  - intros [= <-]. right. eauto.
Qed.

Lemma dropna_Ok (d d' : DataFrame) (cols : list string) :
  dropna d cols = Ok d' <->
  (forall c, c ∈ cols -> c ∈ columns d) /\
  d' = mkDataFrame (columns d) (List.filter (complete_row cols) (rows d)).
Proof.
  unfold dropna. destruct (missing_columns d cols) as [|c miss] eqn:Hm.
  - pose proof (proj1 (missing_columns_nil _ _) Hm) as Hc. split.
    + intros [= <-]. auto.
    + intros [_ ->]. reflexivity.
  - split; [discriminate|]. intros [H _].
    apply missing_columns_nil in H. congruence.
Qed.

Lemma dropna_columns (d d' : DataFrame) (cols : list string) :
  dropna d cols = Ok d' -> columns d' = columns d.
Proof. intros H. apply dropna_Ok in H as [_ ->]. reflexivity. Qed.

Lemma column_to_numpy_Ok (d : DataFrame) (c : string) (y : vector) :
  column_to_numpy d c = Ok y <->
  c ∈ columns d /\ map (fun r => cell_at r c) (rows d) = map Num y.
Proof.
  unfold column_to_numpy, column, has_column.
  destruct (bool_decide_reflect (c ∈ columns d)) as [Hc|Hc]; cbn.
  - unfold values. rewrite !map_map; cbn.
    rewrite <- (map_map (fun r => cell_at r c) to_float), sequence_to_float.
    split; [intros H; split; assumption | intros [_ H]; exact H].
  - split; [discriminate|]. intros [H _]. contradiction.
Qed.

Lemma map_Num_inj (y y' : vector) : map Num y = map Num y' -> y = y'.
Proof.
  revert y'; induction y as [|v y IH]; intros [|v' y']; simpl; try discriminate.
  - reflexivity.
  - intros [= -> H]. f_equal. apply IH, H.
Qed.

Lemma to_numpy_loc (d : DataFrame) (cols : list string) (X : matrix)
    (mask : Series bool) :
  to_numpy d cols = Ok X -> exists X', to_numpy (loc d mask) cols = Ok X'.
Proof.
  intros H. apply to_numpy_Ok in H as [Hc H].
  apply (Forall2_filter_l _ (fun r => default false (lookup_label mask (label r)))) in H
    as [X' H].
  exists X'. apply to_numpy_Ok. split; [exact Hc|exact H].
Qed.

Lemma column_to_numpy_loc (d : DataFrame) (c : string) (y : vector)
    (mask : Series bool) :
  column_to_numpy d c = Ok y -> exists y', column_to_numpy (loc d mask) c = Ok y'.
Proof.
  intros H. apply column_to_numpy_Ok in H as [Hc H].
  assert (exists y', map (fun r => cell_at r c) (rows (loc d mask)) = map Num y')
    as [y' Hy'].
  { cbn. revert y H. induction (rows d) as [|r rs IH]; intros y H; cbn.
    - exists []; reflexivity.
    - destruct y as [|v y]; [discriminate|]. injection H as Hr Hy.
      destruct (IH y Hy) as [y' Hy'].
      destruct (default false _); [|eauto].
      exists (v :: y'). cbn. rewrite Hr, Hy'. reflexivity. }
  exists y'. apply column_to_numpy_Ok. split; [exact Hc|exact Hy'].
Qed.

Lemma dropna_loc (d d' : DataFrame) (cols : list string) (mask : Series bool) :
  dropna d cols = Ok d' -> dropna (loc d' mask) cols = Ok (loc d' mask).
Proof.
  intros H. apply dropna_Ok in H as [Hc ->].
  apply dropna_Ok. split; [exact Hc|]. unfold loc; cbn.
  rewrite filter_filter_same. reflexivity.
Qed.

Lemma systems_dropna (d d' : DataFrame) (cols : list string) (c : cell) :
  dropna d cols = Ok d' -> c ∈ systems d' -> c ∈ systems d.
Proof.
  intros H Hc. apply dropna_Ok in H as [_ ->]. unfold systems in *; cbn in Hc.
  apply list_elem_of_In, in_map_iff in Hc as (r & <- & Hr).
  apply filter_In in Hr as [Hr _].
  apply list_elem_of_In, in_map_iff. eauto.
Qed.

Lemma series_log10_column (rs : list row) (target : string) (y : vector) :
  map (fun r => cell_at r target) rs = map Num y ->
  series_log10 (map (fun r => (label r, cell_at r target)) rs) =
    Ok (zip_with (fun (r : row) v => (label r, Num (NP.log10 v))) rs y).
Proof.
  unfold series_log10. revert y.
  induction rs as [|r rs IH]; intros [|v y]; cbn; try discriminate; [reflexivity|].
  intros [= Hr Hy]. rewrite Hr; cbn. rewrite (IH y Hy). reflexivity.
Qed.

(** ** The mask of common rows *)

Lemma lookup_label_app {A : Type} (s s' : Series A) (i : Z) :
  lookup_label (s ++ s') i =
    match lookup_label s i with
    | Some v => Some v
    | None => lookup_label s' i
    end.
Proof.
  unfold lookup_label. induction s as [|p s IH]; simpl; [reflexivity|].
  destruct (bool_decide (p.1 = i)); [reflexivity|exact IH].
Qed.

Lemma lookup_label_map {A B : Type} (f : A -> B) (s : Series A) (i : Z) :
  lookup_label (map (fun p => (p.1, f p.2)) s) i = f <$> lookup_label s i.
Proof.
  unfold lookup_label. induction s as [|p s IH]; simpl; [reflexivity|].
  destruct (bool_decide (p.1 = i)); [reflexivity|exact IH].
Qed.

Lemma lookup_label_all_false (s : Series bool) (i : Z) :
  Forall (fun p => p.2 = false) s -> default false (lookup_label s i) = false.
Proof.
  unfold lookup_label. induction 1 as [|p s Hp _ IH]; simpl; [reflexivity|].
  destruct (bool_decide (p.1 = i)); [exact Hp|exact IH].
Qed.

Lemma lookup_label_Some {A : Type} (s : Series A) (i : Z) (v : A) :
  lookup_label s i = Some v -> (i, v) ∈ s.
Proof.
  unfold lookup_label. intros H.
  destruct (List.find _ s) as [[j w]|] eqn:Hf; [|discriminate].
  injection H as ->. apply find_some in Hf as [Hin Hj].
  apply bool_decide_eq_true_1 in Hj. cbn in Hj. subst j.
  apply list_elem_of_In, Hin.
Qed.

Lemma lookup_label_NoDup {A : Type} (s : Series A) (i : Z) (v : A) :
  NoDup (map fst s) -> (i, v) ∈ s -> lookup_label s i = Some v.
Proof.
  unfold lookup_label. induction s as [|[j w] s IH]; simpl; intros Hnd Hin.
  - inversion Hin.
  - apply NoDup_cons in Hnd as [Hj Hnd].
    apply elem_of_cons in Hin as [[= <- <-]|Hin].
    + rewrite bool_decide_eq_true_2 by reflexivity. reflexivity.
    + destruct (bool_decide_reflect (j = i)) as [->|Hne]; [|apply IH; assumption].
      destruct Hj. apply list_elem_of_In, in_map_iff. exists (i, v).
      split; [reflexivity|apply list_elem_of_In, Hin].
Qed.

Lemma lookup_isin (s other : Series cell) (i : Z) :
  lookup_label (isin s other) i =
    (fun c => bool_decide (c ∈ values other)) <$> lookup_label s i.
Proof. exact (lookup_label_map (fun c => bool_decide (c ∈ values other)) s i). Qed.

Lemma labels_isin (d other : DataFrame) :
  map fst (isin (map (fun r => (label r, cell_at r "System")) (rows d))
                (map (fun r => (label r, cell_at r "System")) (rows other)))
  = map label (rows d).
Proof. unfold isin. rewrite !map_map. reflexivity. Qed.

Lemma values_system_column (d : DataFrame) :
  values (map (fun r => (label r, cell_at r "System")) (rows d)) = systems d.
Proof. unfold values, systems. rewrite map_map. reflexivity. Qed.

Lemma lookup_system_column (l : list row) (r : row) :
  NoDup (map label l) -> r ∈ l ->
  lookup_label (map (fun r => (label r, cell_at r "System")) l) (label r)
    = Some (cell_at r "System").
Proof.
  intros Hnd Hr. apply lookup_label_NoDup.
  - rewrite map_map. exact Hnd.
  - apply list_elem_of_In, in_map_iff. exists r.
    split; [reflexivity|apply list_elem_of_In, Hr].
Qed.

(** The mask at a label: both operands are [True] there. *)
Lemma lookup_series_and (a b : Series bool) (i : Z) :
  default false (lookup_label (series_and a b) i) =
  default false (lookup_label a i) && default false (lookup_label b i).
Proof.
  unfold series_and. rewrite lookup_label_app.
  induction a as [|p a IH].
  - cbn. apply lookup_label_all_false.
    apply Forall_forall. intros q Hq.
    apply list_elem_of_In, in_map_iff in Hq as (q' & <- & _). reflexivity.
  - destruct (bool_decide_reflect (p.1 = i)) as [Hp|Hp].
    + unfold lookup_label; simpl. rewrite (bool_decide_eq_true_2 _ Hp).
      cbn. rewrite Hp. reflexivity.
    + unfold lookup_label in *; simpl. rewrite (bool_decide_eq_false_2 _ Hp).
      destruct (List.find (fun q : Z * bool => bool_decide (q.1 = i))
                  (map (fun q : Z * bool => (q.1, q.2 && default false
                     (snd <$> List.find (fun p0 : Z * bool => bool_decide (p0.1 = q.1)) b))) a))
        as [q|] eqn:Hfind.
      * exact IH.
      * rewrite <- IH. cbn.
        transitivity false; [|symmetry]; apply (lookup_label_all_false _ i);
          apply Forall_forall; intros q Hq;
          apply list_elem_of_In, in_map_iff in Hq as (q' & <- & _); reflexivity.
Qed.

Lemma loc_series_and_comm (d : DataFrame) (a b : Series bool) :
  loc d (series_and a b) = loc d (series_and b a).
Proof.
  unfold loc. f_equal. apply filter_ext. intros r.
  rewrite !lookup_series_and. apply andb_comm.
Qed.

(** With distinct labels on the left, [any] of the mask says that some
    label is [True] in both operands. *)
Lemma any_series_and (a b : Series bool) :
  NoDup (map fst a) ->
  any (series_and a b) = true <->
  exists i, default false (lookup_label a i) = true /\
            default false (lookup_label b i) = true.
Proof.
  intros Hnd. unfold any, values. rewrite existsb_exists. split.
  - intros (v & Hin & ->).
    apply in_map_iff in Hin as ([i v] & Hv & Hin). cbn in Hv; subst v.
    unfold series_and in Hin. apply in_app_iff in Hin as [Hin|Hin].
    + apply in_map_iff in Hin as ([j w] & [= -> Hw] & Hin). cbn in Hw.
      apply andb_true_iff in Hw as [-> Hb]. exists i. split; [|exact Hb].
      rewrite (lookup_label_NoDup a i true Hnd); [reflexivity|].
      apply list_elem_of_In, Hin.
    + apply in_map_iff in Hin as (q & [=] & _).
  - intros (i & Ha & Hb).
    destruct (lookup_label a i) as [v|] eqn:Hl; [|discriminate]. cbn in Ha; subst v.
    apply lookup_label_Some in Hl. exists true. split; [|reflexivity].
    apply in_map_iff. exists (i, true). split; [reflexivity|].
    unfold series_and. apply in_app_iff. left.
    apply in_map_iff. exists (i, true). cbn. rewrite Hb. split; [reflexivity|].
    apply list_elem_of_In, Hl.
Qed.

Lemma any_series_and_comm (a b : Series bool) :
  NoDup (map fst a) -> NoDup (map fst b) ->
  any (series_and a b) = any (series_and b a).
Proof.
  intros Ha Hb. apply eq_true_iff_eq.
  rewrite (any_series_and a b Ha), (any_series_and b a Hb).
  split; intros (i & H1 & H2); exists i; auto.
Qed.

Lemma any_series_and_false (a b : Series bool) :
  Forall (fun p => p.2 = false) a -> any (series_and a b) = false.
Proof.
  intros Ha. unfold any, values.
  destruct (existsb _ _) eqn:E; [|reflexivity].
  apply existsb_exists in E as (v & Hin & ->).
  apply in_map_iff in Hin as ([i v] & Hv & Hin). cbn in Hv; subst v.
  unfold series_and in Hin. apply in_app_iff in Hin as [Hin|Hin].
  - apply in_map_iff in Hin as (q & [= _ Hq] & Hin).
    rewrite Forall_forall in Ha.
    rewrite (Ha q) in Hq by (apply list_elem_of_In, Hin). discriminate.
  - apply in_map_iff in Hin as (q & [=] & _).
Qed.

Lemma any_mask_rows (l1 : list row) (other : Series cell) (b : Series bool) :
  NoDup (map label l1) ->
  any (series_and (isin (map (fun r => (label r, cell_at r "System")) l1) other) b)
    = true <->
  exists r, r ∈ l1 /\
    default false
      (lookup_label
         (series_and (isin (map (fun r => (label r, cell_at r "System")) l1) other) b)
         (label r)) = true.
Proof.
  intros Hnd. rewrite any_series_and
    by (unfold isin; rewrite !map_map; exact Hnd).
  split.
  - intros (i & Ha & Hb).
    destruct (lookup_label (isin _ other) i) as [v|] eqn:Hl; [|discriminate].
    cbn in Ha. subst v. pose proof Hl as Hl'.
    apply lookup_label_Some in Hl. unfold isin in Hl.
    apply list_elem_of_In, in_map_iff in Hl as (q & Heq & Hq).
    injection Heq as Hi _. subst i.
    apply in_map_iff in Hq as (r & <- & Hr). cbn in *.
    exists r. split; [apply list_elem_of_In, Hr|].
    rewrite lookup_series_and, Hl', Hb. reflexivity.
  - intros (r & _ & Hr). rewrite lookup_series_and in Hr.
    apply andb_true_iff in Hr as [Ha Hb]. exists (label r). auto.
Qed.

(** On selections of one table, the mask marks a row of the first
    selection exactly when the row is in the second one as well. *)
Lemma mask_selects (t l1 l2 : list row) (r : row) :
  NoDup (map label t) -> NoDup (map (fun r => cell_at r "System") t) ->
  l1 `sublist_of` t -> l2 `sublist_of` t -> r ∈ l1 ->
  default false
    (lookup_label
       (series_and
          (isin (map (fun r => (label r, cell_at r "System")) l1)
                (map (fun r => (label r, cell_at r "System")) l2))
          (isin (map (fun r => (label r, cell_at r "System")) l2)
                (map (fun r => (label r, cell_at r "System")) l1)))
       (label r)) = true
  <-> r ∈ l2.
Proof.
  intros Hlab Hsys H1 H2 Hr.
  assert (Hnd1 : NoDup (map label l1))
    by (eapply sublist_NoDup; [exact Hlab|apply map_sublist, H1]).
  assert (Hnd2 : NoDup (map label l2))
    by (eapply sublist_NoDup; [exact Hlab|apply map_sublist, H2]).
  rewrite lookup_series_and, andb_true_iff, !lookup_isin.
  rewrite (lookup_system_column l1 r Hnd1 Hr). cbn.
  unfold values. rewrite !map_map. cbn. split.
  - intros [Ha _]. apply bool_decide_eq_true_1 in Ha.
    apply list_elem_of_In, in_map_iff in Ha as (r2 & Hs & Hr2).
    apply list_elem_of_In in Hr2.
    assert (r2 = r) as <-; [|exact Hr2].
    eapply (NoDup_map_inj _ t); [exact Hsys| | |exact Hs];
      eapply elem_of_sublist; eassumption.
  - intros Hr2. rewrite (lookup_system_column l2 r Hnd2 Hr2). cbn.
    split; apply bool_decide_eq_true_2, list_elem_of_In, in_map_iff;
      exists r; (split; [reflexivity|apply list_elem_of_In; assumption]).
Qed.

(** ** The prediction helper *)

(** ** The prediction helper *)

Lemma lookup_map_list {A B : Type} (f : A -> B) (l : list A) (i : nat) :
  map f l !! i = f <$> l !! i.
Proof.
  revert i; induction l as [|a l IH]; intros [|i]; simpl; try reflexivity. apply IH.
Qed.

Lemma predict_Ok (model : RegressionResults) (X : matrix) (p : vector) :
  predict model X = Ok p <->
  Forall (fun x => length x = length (params model)) X /\
  p = map (fun x => NP.dot x (params model)) X.
Proof.
  unfold predict.
  destruct (forallb _ X) eqn:E.
  - rewrite forallb_forall in E. split.
    + intros [= <-]. split; [|reflexivity]. apply Forall_forall. intros x Hx.
      apply list_elem_of_In, E in Hx. apply bool_decide_eq_true_1 in Hx. exact Hx.
    + intros [_ ->]. reflexivity.
  - split; [discriminate|]. intros [H _].
    assert (forallb (fun x => bool_decide (length x = length (params model))) X = true)
      as E'; [|congruence].
    apply forallb_forall. intros x Hx. apply bool_decide_eq_true_2.
    rewrite Forall_forall in H. apply H, list_elem_of_In, Hx.
Qed.

Lemma predict_length (model : RegressionResults) (X : matrix) (p : vector) :
  predict model X = Ok p -> length p = length X.
Proof. intros H. apply predict_Ok in H as [_ ->]. apply length_map. Qed.

Lemma predict_Raise (model : RegressionResults) (X : matrix) (e : exn) :
  predict model X = Raise e -> exists msg, e = LibraryError msg.
Proof.
  unfold predict. destruct (forallb _ X); [discriminate|]. intros [= <-]. eauto.
Qed.


(** C10.  The [features] argument of [get_predictions] has no effect: the
    result is the same for any two values of it, and the features reported
    missing are computed from the coefficient names of the model without
    the first one. *)
Theorem get_predictions_ignores_features
    (model : RegressionResults) (data : DataFrame)
    (features1 features2 : list string) :
  get_predictions model data features1 = get_predictions model data features2 /\
  (forall missing,
     get_predictions model data features1 = Raise (ValueError missing) ->
     missing = list_to_set (tail (params_index model)) ∖ list_to_set (columns data)).
Proof.
  split; [reflexivity|].
  intros missing. unfold get_predictions.
  case_bool_decide as Hidx; [discriminate|].
  case_bool_decide as Hmiss.
  - intros [= <-]. reflexivity.
  - destruct (to_numpy _ _) as [X|e] eqn:HX; cbn.
    + intros Hp. apply predict_Raise in Hp as [msg Hp]. discriminate.
    + intros [= ->]. apply to_numpy_Raise in HX as [HX|[? HX]]; discriminate.
Qed.

(** ** The growth-rate reporter *)

(** [conf_int()[1][j]] on a result fitted on arrays: bound [j] of the
    interval of the slope. *)
Lemma conf_int_entry_array (t_ppf : npfloat -> Z -> npfloat)
    (model : RegressionResults) (b se : npfloat) :
  params_index model = [] ->
  params model !! 1%nat = Some b -> bse model !! 1%nat = Some se ->
  let q := t_ppf (Fin (1 - 0.05 / 2)) (df_resid model) in
  conf_int_entry t_ppf model 1 0 = Ok (NP.sub b (NP.mul q se)) /\
  conf_int_entry t_ppf model 1 1 = Ok (NP.add b (NP.mul q se)).
Proof.
  intros Hidx Hb Hse q. unfold conf_int_entry, index, conf_int.
  rewrite bool_decide_eq_true_2 by exact Hidx.
  rewrite lookup_zip_with, Hb. cbn. rewrite Hse. cbn. split; reflexivity.
Qed.

(** [conf_int()[1][j]] on a result of the formula interface: the upper
    bound of coefficient [j]. *)
Lemma conf_int_entry_formula (t_ppf : npfloat -> Z -> npfloat)
    (model : RegressionResults) (j : nat) (b se : npfloat) :
  params_index model <> [] ->
  params model !! j = Some b -> bse model !! j = Some se ->
  let q := t_ppf (Fin (1 - 0.05 / 2)) (df_resid model) in
  conf_int_entry t_ppf model 1 j = Ok (NP.add b (NP.mul q se)).
Proof.
  intros Hidx Hb Hse q. unfold conf_int_entry, index, conf_int.
  rewrite bool_decide_eq_false_2 by exact Hidx. cbn [mbind result_bind bind].
  rewrite lookup_map_list, lookup_zip_with, Hb. cbn. rewrite Hse. reflexivity.
Qed.

(** The four lines, from the slope and the two entries read from the
    table of intervals. *)
Lemma print_growth_rates_lines
    (t_ppf : npfloat -> Z -> npfloat) (factor doubling : npfloat -> npfloat)
    (model : RegressionResults) (b c0 c1 : npfloat) :
  params model !! 1%nat = Some b ->
  conf_int_entry t_ppf model 1 0 = Ok c0 ->
  conf_int_entry t_ppf model 1 1 = Ok c1 ->
  print_growth_rates t_ppf factor doubling model =
    ([[Text "Adj. R^2="; Float 2 (rsquared_adj model)];
      [Float 2 b; Text " OOMs/year (95% CI: "; Float 2 c0; Text ", ";
       Float 2 c1; Text ")"];
      [Float 1 (factor b); Text "x/year (95% CI: ";
       Float 1 (factor c0); Text "x, "; Float 1 (factor c1); Text "x)"];
      [Text "doubling time of "; Float 0 (doubling b);
       Text " months (95% CI: "; Float 0 (doubling c1);
       Text ", "; Float 0 (doubling c0); Text ")"]], Ok tt).
Proof.
  intros Hb H0 H1. unfold print_growth_rates, index. rewrite Hb, H0, H1.
  reflexivity.
Qed.

(** ** The fit helper *)

(** C9.  [fit_ols_regression] leaves every frame that exists before the
    call as it is, the caller's dataset included, whether the call returns
    a model or raises: [dropna] makes a new frame and the logarithm is
    written to that one. *)
Theorem fit_ols_regression_preserves_input
    (smf_ols : string -> list string -> DataFrame -> result RegressionResults)
    (h : heap) (data : positive) (features : list string) (target : string)
    (logy : bool) (l : positive) (d : DataFrame) :
  h !! l = Some d ->
  (fit_ols_regression smf_ols data features target logy h).2 !! l = Some d.
Proof.
  intros Hl. unfold fit_ols_regression, mbind, M_bind, read, lift, alloc, write, mret, M_ret.
  destruct (h !! data) as [d0|]; [|exact Hl].
  destruct (dropna d0 _) as [d1|e]; [|exact Hl].
  assert (Hfresh : fresh (dom h) ≠ l).
  { intros Heq. apply (is_fresh (dom h)). rewrite Heq. apply elem_of_dom. eauto. }
  destruct logy; cbv beta;
    repeat (rewrite lookup_insert_eq; cbv beta iota).
  - destruct (column d1 target) as [s|e]; cbn.
    + destruct (series_log10 s) as [s'|e]; cbn.
      * rewrite lookup_insert_eq. cbn. rewrite !lookup_insert_ne by exact Hfresh. exact Hl.
      * rewrite lookup_insert_ne by exact Hfresh. exact Hl.
    + rewrite lookup_insert_ne by exact Hfresh. exact Hl.
  - cbn. rewrite lookup_insert_ne by exact Hfresh. exact Hl.
Qed.

(** ** The constant of a design *)

Lemma nonzero_constant_zero (v : vector) : nonzero_constant (Fin 0 :: v) = false.
Proof. cbn. destruct (Req_dec_T 0 0) as [_|H]; [reflexivity|destruct H; reflexivity]. Qed.

Lemma nonzero_constant_differs (c d : R) (v : vector) :
  d <> c -> nonzero_constant (Fin c :: Fin d :: v) = false.
Proof.
  intros H. cbn. destruct (Req_dec_T c 0); [reflexivity|].
  rewrite bool_decide_eq_false_2 by (intros [= E]; exact (H E)). reflexivity.
Qed.


Lemma add_constant_Ok (X X' : matrix) :
  add_constant X = Ok X' <->
  X <> [] /\ X' = if has_constant X then X else map (cons (Fin 1)) X.
Proof.
  unfold add_constant. destruct X as [|x X].
  - split; [discriminate|]. intros [H _]. contradiction.
  - split.
    + intros [= <-]. split; [discriminate|reflexivity].
    + intros [_ ->]. reflexivity.
Qed.

Lemma add_constant_prepend (X : matrix) :
  X <> [] -> has_constant X = false -> add_constant X = Ok (map (cons (Fin 1)) X).
Proof. intros Hne Hc. apply add_constant_Ok. rewrite Hc. auto. Qed.


Lemma add_constant_length (X X' : matrix) :
  add_constant X = Ok X' -> length X' = length X.
Proof.
  intros H. apply add_constant_Ok in H as [_ ->].
  destruct (has_constant X); [reflexivity|apply length_map].
Qed.


Lemma add_constant_Raise (X : matrix) (e : exn) :
  add_constant X = Raise e -> X = [] /\ exists msg, e = LibraryError msg.
Proof.
  unfold add_constant. destruct X; [|discriminate]. intros [= <-]. eauto.
Qed.

(** ** Stages of the slope comparison *)

Lemma design_Ok (d d' : DataFrame) (features : list string) (target : string)
    (X : matrix) (y : vector) :
  design d features target = Ok (d', X, y) <->
  dropna d (features ++ [target]) = Ok d' /\
  (exists X0, to_numpy d' features = Ok X0 /\ add_constant X0 = Ok X) /\
  column_to_numpy d' target = Ok y.
Proof.
  unfold design. split.
  - intros H. apply bind_Ok in H as (d0 & Hd & H).
    apply bind_Ok in H as (X0 & HX & H).
    apply bind_Ok in H as (X1 & Hc & H).
    apply bind_Ok in H as (y0 & Hy & [= <- <- <-]).
    eauto 6.
  - intros (Hd & (X0 & HX & Hc) & Hy).
    rewrite Hd; cbn. rewrite HX; cbn. rewrite Hc; cbn. rewrite Hy; reflexivity.
Qed.

(** The design has one row per row that passes the filter. *)
Lemma design_length (d d' : DataFrame) (features : list string) (target : string)
    (X : matrix) (y : vector) :
  design d features target = Ok (d', X, y) ->
  length X = length (rows d') /\ rows d' <> [].
Proof.
  intros H. apply design_Ok in H as (_ & (X0 & HX & Hc) & _).
  pose proof (add_constant_length _ _ Hc) as Hlen.
  apply add_constant_Ok in Hc as [Hne _].
  apply to_numpy_Ok in HX as [_ HX]. apply Forall2_length in HX.
  split; [lia|]. intros Hnil. rewrite Hnil in HX. destruct X0; [contradiction|discriminate].
Qed.

Lemma common_systems_Ok (d1 d2 : DataFrame) :
  "System" ∈ columns d1 -> "System" ∈ columns d2 ->
  common_systems d1 d2 =
    Ok (series_and
          (isin (map (fun r => (label r, cell_at r "System")) (rows d1))
                (map (fun r => (label r, cell_at r "System")) (rows d2)))
          (isin (map (fun r => (label r, cell_at r "System")) (rows d2))
                (map (fun r => (label r, cell_at r "System")) (rows d1)))).
Proof.
  intros H1 H2. unfold common_systems, column, has_column.
  rewrite !bool_decide_eq_true_2 by assumption. reflexivity.
Qed.

Lemma common_systems_inv (d1 d2 : DataFrame) (mask : Series bool) :
  common_systems d1 d2 = Ok mask ->
  mask = series_and
           (isin (map (fun r => (label r, cell_at r "System")) (rows d1))
                 (map (fun r => (label r, cell_at r "System")) (rows d2)))
           (isin (map (fun r => (label r, cell_at r "System")) (rows d2))
                 (map (fun r => (label r, cell_at r "System")) (rows d1))).
Proof.
  unfold common_systems, column.
  destruct (has_column d1 "System"); cbn; [|discriminate].
  destruct (has_column d2 "System"); cbn; [|discriminate].
  intros [= <-]. reflexivity.
Qed.

Lemma common_systems_columns (d1 d2 : DataFrame) (mask : Series bool) :
  common_systems d1 d2 = Ok mask ->
  "System" ∈ columns d1 /\ "System" ∈ columns d2.
Proof.
  unfold common_systems, column, has_column.
  destruct (bool_decide_reflect ("System" ∈ columns d1)); cbn; [|discriminate].
  destruct (bool_decide_reflect ("System" ∈ columns d2)); cbn; [|discriminate].
  auto.
Qed.

Lemma common_part_Ok (d1 d2 : DataFrame) (mask : Series bool)
    (features : list string) (target : string) (c : option Common) :
  common_part d1 d2 mask features target = Ok c <->
  if any mask then
    exists d12 X0 X y1c y2c,
      dropna (loc d1 mask) (features ++ [target]) = Ok d12 /\
      to_numpy d12 features = Ok X0 /\
      add_constant X0 = Ok X /\
      column_to_numpy (loc d1 mask) target = Ok y1c /\
      column_to_numpy (loc d2 mask) target = Ok y2c /\
      c = Some (mkCommon d12 X y1c y2c)
  else c = None.
Proof.
  unfold common_part. destruct (any mask).
  - split.
    + intros H. apply bind_Ok in H as (d12 & Hd & H).
      apply bind_Ok in H as (X0 & HX & H).
      apply bind_Ok in H as (X & Hc & H).
      apply bind_Ok in H as (y1c & H1 & H).
      apply bind_Ok in H as (y2c & H2 & [= <-]).
      exists d12, X0, X, y1c, y2c. auto 6.
    + intros (d12 & X0 & X & y1c & y2c & Hd & HX & Hc & H1 & H2 & ->).
      rewrite Hd; cbn. rewrite HX; cbn. rewrite Hc; cbn. rewrite H1; cbn.
      rewrite H2. reflexivity.
  - split; [intros [= <-]; reflexivity | intros ->; reflexivity].
Qed.



(** Datasets without a common System have an all-[False] mask. *)
Lemma disjoint_systems_no_mask (data1 data2 d1 d2 : DataFrame)
    (cols : list string) (mask : Series bool) :
  (forall c, c ∈ systems data1 -> c ∉ systems data2) ->
  dropna data1 cols = Ok d1 -> dropna data2 cols = Ok d2 ->
  common_systems d1 d2 = Ok mask ->
  any mask = false.
Proof.
  intros Hdis H1 H2 Hmask. apply common_systems_inv in Hmask as ->.
  apply any_series_and_false. apply Forall_forall. intros p Hp.
  unfold isin in Hp. apply list_elem_of_In, in_map_iff in Hp as (q & <- & Hq). cbn.
  apply bool_decide_eq_false_2. rewrite values_system_column. intros Hin.
  apply (Hdis q.2).
  - apply (systems_dropna _ _ _ _ H1). rewrite <- values_system_column.
    apply list_elem_of_In, in_map_iff. exists q. split; [reflexivity|exact Hq].
  - apply (systems_dropna _ _ _ _ H2), Hin.
Qed.

Lemma residuals_of_Ok (common : option Common) (m1 m2 : RegressionResults)
    (resid : option (vector * vector)) :
  residuals_of common m1 m2 = Ok resid <->
  match common with
  | Some c =>
      exists p1 p2,
        predict m1 (X12 c) = Ok p1 /\ predict m2 (X12 c) = Ok p2 /\
        resid = Some (NP.vsub (y1_common c) p1, NP.vsub (y2_common c) p2)
  | None => resid = None
  end.
Proof.
  unfold residuals_of. destruct common as [c|].
  - split.
    + intros H. apply bind_Ok in H as (p1 & H1 & H).
      apply bind_Ok in H as (p2 & H2 & [= <-]). eauto.
    + intros (p1 & p2 & H1 & H2 & ->). rewrite H1; cbn. rewrite H2. reflexivity.
  - split; [intros [= <-]; reflexivity|intros ->; reflexivity].
Qed.

Lemma residuals_of_Raise (common : option Common) (m1 m2 : RegressionResults)
    (e : exn) :
  residuals_of common m1 m2 = Raise e -> exists msg, e = LibraryError msg.
Proof.
  unfold residuals_of. destruct common as [c|]; [|discriminate].
  destruct (predict m1 (X12 c)) as [p1|e1] eqn:H1; cbn.
  - destruct (predict m2 (X12 c)) as [p2|e2] eqn:H2; cbn; [discriminate|].
    intros [= <-]. apply (predict_Raise _ _ _ H2).
  - intros [= <-]. apply (predict_Raise _ _ _ H1).
Qed.

Lemma common_data_log10 (logy : bool) (common : option Common) :
  common_data <$> (if logy then log10_common <$> common else common) =
  common_data <$> common.
Proof. destruct logy, common; reflexivity. Qed.

(** ** The slope comparison *)

Section SlopeComparison.

(** The regression solver and the distribution function are arbitrary. *)
Variable sm_OLS : vector -> matrix -> result RegressionResults.
Variable t_cdf : npfloat -> Z -> npfloat.

(** The call returns exactly when its stages do, with the result built
    by [compare_slopes]. *)
Lemma regression_slope_t_test_Ok
    (d1 d2 : DataFrame) (features : list string) (target : string)
    (logy adj_corr : bool) (res : SlopeTest) :
  regression_slope_t_test sm_OLS t_cdf d1 d2 features target logy adj_corr = Ok res <->
  exists d1' X1 y1 d2' X2 y2 mask common m1 m2 s1 e1 s2 e2 resid,
    design d1 features target = Ok (d1', X1, y1) /\
    design d2 features target = Ok (d2', X2, y2) /\
    common_systems d1' d2' = Ok mask /\
    common_part d1' d2' mask features target = Ok common /\
    sm_OLS (if logy then map NP.log10 y1 else y1) X1 = Ok m1 /\
    sm_OLS (if logy then map NP.log10 y2 else y2) X2 = Ok m2 /\
    params m1 !! 1%nat = Some s1 /\ bse m1 !! 1%nat = Some e1 /\
    params m2 !! 1%nat = Some s2 /\ bse m2 !! 1%nat = Some e2 /\
    residuals_of (if logy then log10_common <$> common else common) m1 m2
      = Ok resid /\
    res = compare_slopes t_cdf (common_data <$> common) resid
            m1 m2 s1 e1 s2 e2 (length X1) (length X2) adj_corr.
Proof.
  unfold regression_slope_t_test. split.
  - intros H.
    apply bind_Ok in H as ([[d1' X1] y1] & H1 & H).
    apply bind_Ok in H as ([[d2' X2] y2] & H2 & H).
    apply bind_Ok in H as (mask & Hmask & H).
    apply bind_Ok in H as (common & Hc & H).
    apply bind_Ok in H as (m1 & Hm1 & H).
    apply bind_Ok in H as (m2 & Hm2 & H).
    apply bind_Ok in H as (s1 & Hs1 & H).
    apply bind_Ok in H as (e1 & He1 & H).
    apply bind_Ok in H as (s2 & Hs2 & H).
    apply bind_Ok in H as (e2 & He2 & H).
    apply bind_Ok in H as (resid & Hr & [= <-]).
    unfold index in *.
    destruct (params m1 !! 1%nat) eqn:E1; [injection Hs1 as ->|discriminate].
    destruct (bse m1 !! 1%nat) eqn:E2; [injection He1 as ->|discriminate].
    destruct (params m2 !! 1%nat) eqn:E3; [injection Hs2 as ->|discriminate].
    destruct (bse m2 !! 1%nat) eqn:E4; [injection He2 as ->|discriminate].
    exists d1', X1, y1, d2', X2, y2, mask, common, m1, m2, s1, e1, s2, e2, resid.
    rewrite common_data_log10. repeat split; assumption.
  - intros (d1' & X1 & y1 & d2' & X2 & y2 & mask & common & m1 & m2 & s1 & e1 & s2 & e2
            & resid & H1 & H2 & Hmask & Hc & Hm1 & Hm2 & Hs1 & He1 & Hs2 & He2 & Hr & ->).
    rewrite H1; cbn. rewrite H2; cbn. rewrite Hmask; cbn. rewrite Hc; cbn.
    rewrite Hm1; cbn. rewrite Hm2; cbn.
    unfold index. rewrite Hs1, He1, Hs2, He2. cbn. rewrite Hr. cbn.
    rewrite common_data_log10. reflexivity.
Qed.

(** The function returns as soon as its stages do; the result is built
    from the fits and the residuals as in the source. *)
Lemma regression_slope_t_test_returns
    (d1 d2 d1' d2' : DataFrame) (features : list string) (target : string)
    (logy adj_corr : bool) (X1 X2 : matrix) (y1 y2 : vector)
    (mask : Series bool) (common : option Common)
    (m1 m2 : RegressionResults) (s1 e1 s2 e2 : npfloat)
    (resid : option (vector * vector)) :
  design d1 features target = Ok (d1', X1, y1) ->
  design d2 features target = Ok (d2', X2, y2) ->
  common_systems d1' d2' = Ok mask ->
  common_part d1' d2' mask features target = Ok common ->
  sm_OLS (if logy then map NP.log10 y1 else y1) X1 = Ok m1 ->
  sm_OLS (if logy then map NP.log10 y2 else y2) X2 = Ok m2 ->
  params m1 !! 1%nat = Some s1 -> bse m1 !! 1%nat = Some e1 ->
  params m2 !! 1%nat = Some s2 -> bse m2 !! 1%nat = Some e2 ->
  residuals_of (if logy then log10_common <$> common else common) m1 m2 = Ok resid ->
  exists res,
    regression_slope_t_test sm_OLS t_cdf d1 d2 features target logy adj_corr = Ok res /\
    model1 res = m1 /\ model2 res = m2 /\
    b1 res = s1 /\ SE1 res = e1 /\ b2 res = s2 /\ SE2 res = e2 /\
    data12 res = common_data <$> common /\
    residuals res = resid /\
    rho res =
      match resid with
      | Some (r1, r2) => if adj_corr then NP.corrcoef r1 r2 else Fin 0
      | None => Fin 0
      end /\
    t_stat res = test_statistic s1 e1 s2 e2 (rho res) /\
    df res = ((Z.of_nat (length (rows d1')) - 2) + (Z.of_nat (length (rows d2')) - 2))%Z /\
    p_value res =
      NP.mul (NP.of_Z 2) (NP.sub (NP.of_Z 1) (t_cdf (NP.abs (t_stat res)) (df res))).
Proof.
  intros H1 H2 Hmask Hc Hm1 Hm2 Hb1 He1 Hb2 He2 Hr.
  eexists. split.
  - apply regression_slope_t_test_Ok.
    exists d1', X1, y1, d2', X2, y2, mask, common, m1, m2, s1, e1, s2, e2, resid.
    repeat split; eassumption.
  - destruct (design_length _ _ _ _ _ _ H1) as [<- _].
    destruct (design_length _ _ _ _ _ _ H2) as [<- _].
    cbn. repeat split; reflexivity.
Qed.





(** C5.  For two datasets that share no System, the call with the
    correlation adjustment gives the very result of the call without it;
    whenever it returns, no common subset was found, [rho] is 0 and the
    statistic is the one of the uncorrelated test. *)
Theorem regression_slope_t_test_no_shared_system
    (data1 data2 : DataFrame) (features : list string) (target : string)
    (logy : bool) :
  (forall c, c ∈ systems data1 -> c ∉ systems data2) ->
  regression_slope_t_test sm_OLS t_cdf data1 data2 features target logy true =
  regression_slope_t_test sm_OLS t_cdf data1 data2 features target logy false /\
  forall adj_corr res,
    regression_slope_t_test sm_OLS t_cdf data1 data2 features target logy adj_corr
      = Ok res ->
    data12 res = None /\ rho res = Fin 0 /\
    t_stat res =
      NP.div (NP.sub (b1 res) (b2 res))
        (NP.sqrt (NP.sub (NP.add (NP.square (SE1 res)) (NP.square (SE2 res)))
                    (NP.mul (NP.mul (NP.mul (NP.of_Z 2) (SE1 res)) (SE2 res)) (Fin 0)))).
Proof.
  intros Hdis.
  assert (Hnone : forall d1 X1 y1 d2 X2 y2 mask,
    design data1 features target = Ok (d1, X1, y1) ->
    design data2 features target = Ok (d2, X2, y2) ->
    common_systems d1 d2 = Ok mask ->
    common_part d1 d2 mask features target = Ok None).
  { intros d1 X1 y1 d2 X2 y2 mask H1 H2 Hmask.
    apply design_Ok in H1 as (Hd1 & _). apply design_Ok in H2 as (Hd2 & _).
    apply common_part_Ok.
    rewrite (disjoint_systems_no_mask _ _ _ _ _ _ Hdis Hd1 Hd2 Hmask). reflexivity. }
  split.
  - unfold regression_slope_t_test.
    destruct (design data1 features target) as [[[d1 X1] y1]|e] eqn:H1; cbn; [|reflexivity].
    destruct (design data2 features target) as [[[d2 X2] y2]|e] eqn:H2; cbn; [|reflexivity].
    destruct (common_systems d1 d2) as [mask|e] eqn:Hmask; cbn; [|reflexivity].
    rewrite (Hnone _ _ _ _ _ _ _ eq_refl eq_refl Hmask); cbn.
    destruct logy; reflexivity.
  - intros adj_corr res Hres.
    apply regression_slope_t_test_Ok in Hres
      as (d1 & X1 & y1 & d2 & X2 & y2 & mask & common & m1 & m2 & s1 & e1 & s2 & e2
          & resid & H1 & H2 & Hmask & Hc & _ & _ & _ & _ & _ & _ & Hr & ->).
    rewrite (Hnone _ _ _ _ _ _ _ H1 H2 Hmask) in Hc. injection Hc as <-.
    assert (resid = None) as -> by (destruct logy; cbn in Hr; congruence).
    cbn. repeat split; reflexivity.
Qed.

(** Exchanging the roles of the two fits when the two residual arrays,
    of one length, are exchanged too. *)
Lemma compare_slopes_swap (d12 d12' : option DataFrame)
    (resid resid' : option (vector * vector)) (m1 m2 : RegressionResults)
    (s1 e1 s2 e2 : npfloat) (n1 n2 : nat) (adj_corr : bool) :
  option_Forall2
    (fun p p' => p' = (p.2, p.1) /\ length p.1 = length p.2) resid resid' ->
  t_stat (compare_slopes t_cdf d12' resid' m2 m1 s2 e2 s1 e1 n2 n1 adj_corr) =
    NP.neg (t_stat (compare_slopes t_cdf d12 resid m1 m2 s1 e1 s2 e2 n1 n2 adj_corr)) /\
  p_value (compare_slopes t_cdf d12' resid' m2 m1 s2 e2 s1 e1 n2 n1 adj_corr) =
    p_value (compare_slopes t_cdf d12 resid m1 m2 s1 e1 s2 e2 n1 n2 adj_corr).
Proof.
  intros Hc.
  assert (Hrho : rho (compare_slopes t_cdf d12' resid' m2 m1 s2 e2 s1 e1 n2 n1 adj_corr) =
                 rho (compare_slopes t_cdf d12 resid m1 m2 s1 e1 s2 e2 n1 n2 adj_corr)).
  { destruct Hc as [[r1 r2] p' [-> Hlen]|]; cbn; [|reflexivity].
    destruct adj_corr; [|reflexivity]. cbn in Hlen.
    symmetry. apply corrcoef_sym, Hlen. }
  unfold compare_slopes in *. cbn [t_stat p_value rho] in *.
  rewrite Hrho, test_statistic_swap, abs_neg.
  rewrite (Z.add_comm (Z.of_nat n2 - 2)). split; reflexivity.
Qed.

(** C2, as the code has it.  For two datasets with distinct row labels
    whose rows marked common carry the same feature values in both (the
    mask's rows of one, read in order, have the features of the mask's rows
    of the other), exchanging the datasets negates the statistic and keeps
    the p-value. *)
Theorem regression_slope_t_test_symmetric
    (A B : DataFrame) (features : list string) (target : string)
    (logy adj_corr : bool) (res : SlopeTest) :
  NoDup (map label (rows A)) -> NoDup (map label (rows B)) ->
  (forall A' B' mask,
     dropna A (features ++ [target]) = Ok A' ->
     dropna B (features ++ [target]) = Ok B' ->
     common_systems A' B' = Ok mask ->
     to_numpy (loc A' mask) features = to_numpy (loc B' mask) features) ->
  regression_slope_t_test sm_OLS t_cdf A B features target logy adj_corr = Ok res ->
  exists res',
    regression_slope_t_test sm_OLS t_cdf B A features target logy adj_corr = Ok res' /\
    t_stat res' = NP.neg (t_stat res) /\
    p_value res' = p_value res.
Proof.
  intros HndA HndB Hsame Hres.
  apply regression_slope_t_test_Ok in Hres
    as (A' & X1 & y1 & B' & X2 & y2 & mask & common & m1 & m2 & s1 & e1 & s2 & e2
        & resid & H1 & H2 & Hmask & Hc & Hm1 & Hm2 & Hs1 & He1 & Hs2 & He2 & Hr & ->).
  pose proof (proj1 (design_Ok _ _ _ _ _ _) H1) as (HdA & _ & _).
  pose proof (proj1 (design_Ok _ _ _ _ _ _) H2) as (HdB & _ & _).
  specialize (Hsame A' B' mask HdA HdB Hmask).
  destruct (common_systems_columns _ _ _ Hmask) as [HsA HsB].
  pose proof (common_systems_Ok B' A' HsB HsA) as Hmask'.
  apply common_systems_inv in Hmask. subst mask.
  set (a := isin (map (fun r => (label r, cell_at r "System")) (rows A'))
                 (map (fun r => (label r, cell_at r "System")) (rows B'))) in *.
  set (b := isin (map (fun r => (label r, cell_at r "System")) (rows B'))
                 (map (fun r => (label r, cell_at r "System")) (rows A'))) in *.
  assert (Hany : any (series_and b a) = any (series_and a b)).
  { apply any_series_and_comm; unfold a, b; rewrite labels_isin.
    - apply dropna_Ok in HdB as [_ ->]. cbn. apply NoDup_map_filter, HndB.
    - apply dropna_Ok in HdA as [_ ->]. cbn. apply NoDup_map_filter, HndA. }
  assert (exists common' resid',
    common_part B' A' (series_and b a) features target = Ok common' /\
    residuals_of (if logy then log10_common <$> common' else common') m2 m1
      = Ok resid' /\
    option_Forall2
      (fun p p' => p' = (p.2, p.1) /\ length p.1 = length p.2) resid resid')
    as (common' & resid' & Hc' & Hr' & Hrel).
  { apply common_part_Ok in Hc. destruct (any (series_and a b)) eqn:Ea.
    - destruct Hc as (d12 & X0 & X & y1c & y2c & Hd12 & HX & Hadd & Hy1c & Hy2c & ->).
      rewrite (dropna_loc _ _ _ _ HdA) in Hd12. injection Hd12 as <-.
      assert (Hl1 : length y1c = length X).
      { apply column_to_numpy_Ok in Hy1c as [_ Hy1c].
        pose proof HX as HX'. apply to_numpy_Ok in HX' as [_ HX'].
        apply Forall2_length in HX'.
        apply (f_equal length) in Hy1c. rewrite !length_map in Hy1c.
        rewrite (add_constant_length _ _ Hadd). lia. }
      assert (Hl2 : length y2c = length X).
      { apply column_to_numpy_Ok in Hy2c as [_ Hy2c].
        pose proof HX as HX'. rewrite Hsame in HX'.
        apply to_numpy_Ok in HX' as [_ HX']. apply Forall2_length in HX'.
        apply (f_equal length) in Hy2c. rewrite !length_map in Hy2c.
        rewrite (add_constant_length _ _ Hadd). lia. }
      assert (exists p1 p2,
        predict m1 X = Ok p1 /\ predict m2 X = Ok p2 /\
        resid = Some (NP.vsub (if logy then map NP.log10 y1c else y1c) p1,
                      NP.vsub (if logy then map NP.log10 y2c else y2c) p2))
        as (p1 & p2 & Hp1 & Hp2 & ->).
      { apply residuals_of_Ok in Hr. destruct logy; cbn in Hr; exact Hr. }
      exists (Some (mkCommon (loc B' (series_and b a)) X y2c y1c)).
      exists (Some (NP.vsub (if logy then map NP.log10 y2c else y2c) p2,
                    NP.vsub (if logy then map NP.log10 y1c else y1c) p1)).
      split; [|split].
      + apply common_part_Ok. rewrite Hany.
        exists (loc B' (series_and b a)), X0, X, y2c, y1c.
        rewrite (dropna_loc _ _ _ _ HdB).
        rewrite !(loc_series_and_comm _ b a), <- Hsame. auto 7.
      + apply residuals_of_Ok.
        destruct logy; cbn; exists p2, p1; auto.
      + constructor. cbn. split; [reflexivity|].
        apply predict_length in Hp1, Hp2.
        unfold NP.vsub. rewrite !length_zip_with.
        destruct logy; rewrite ?length_map; lia.
    - subst common. exists None, None. split; [|split].
      + apply common_part_Ok. rewrite Hany. reflexivity.
      + destruct logy; reflexivity.
      + assert (resid = None) as -> by (destruct logy; cbn in Hr; congruence).
        constructor. }
  eexists. split.
  - apply regression_slope_t_test_Ok.
    exists B', X2, y2, A', X1, y1, (series_and b a), common', m2, m1, s2, e2, s1, e1,
      resid'.
    repeat split; try eassumption.
  - apply compare_slopes_swap, Hrel.
Qed.

(** C1, as the code has it.  For two datasets that are row selections of
    one table with distinct row labels and distinct Systems, the common
    subset the function works on is the rows of the first dataset whose
    System occurs in the second one, after the missing-value filter: none
    is found when there is no such row, and otherwise the residuals are
    the (log10-transformed if the flag is set) target of these rows minus
    the prediction of each model on their design matrix. *)
Theorem regression_slope_t_test_common_subset
    (table data1 data2 : DataFrame) (features : list string) (target : string)
    (logy adj_corr : bool) (res : SlopeTest) :
  selections_of table data1 data2 ->
  regression_slope_t_test sm_OLS t_cdf data1 data2 features target logy adj_corr
    = Ok res ->
  let subset := spec_common_subset data1 data2 features target in
  let transform := fun y : vector => if logy then map NP.log10 y else y in
  (rows subset = [] -> data12 res = None /\ residuals res = None) /\
  (rows subset <> [] ->
   data12 res = Some subset /\
   exists (X0 X : matrix) (y p1 p2 : vector),
     to_numpy subset features = Ok X0 /\
     add_constant X0 = Ok X /\
     column_to_numpy subset target = Ok y /\
     predict (model1 res) X = Ok p1 /\
     predict (model2 res) X = Ok p2 /\
     residuals res = Some (NP.vsub (transform y) p1, NP.vsub (transform y) p2)).
Proof.
  intros [Hlab Hsys Hr1 Hr2] Hres subset transform.
  apply regression_slope_t_test_Ok in Hres
    as (d1 & X1 & y1 & d2 & X2 & y2 & mask & common & m1 & m2 & s1 & e1 & s2 & e2
        & resid & H1 & H2 & Hmask & Hc & _ & _ & _ & _ & _ & _ & Hres & ->).
  apply design_Ok in H1 as (Hd1 & _ & _). apply design_Ok in H2 as (Hd2 & _ & _).
  pose proof (dropna_loc _ _ _ mask Hd1) as Hloc1.
  apply dropna_Ok in Hd1 as [_ ->]. apply dropna_Ok in Hd2 as [_ ->].
  apply common_systems_inv in Hmask. cbn [rows] in Hmask.
  set (cols := (features ++ [target])%list) in *.
  set (l1 := List.filter (complete_row cols) (rows data1)) in *.
  set (l2 := List.filter (complete_row cols) (rows data2)) in *.
  set (P := fun r : row => default false (lookup_label mask (label r))).
  assert (Hs1 : l1 `sublist_of` rows table)
    by (etransitivity; [apply filter_sublist|exact Hr1]).
  assert (Hs2 : l2 `sublist_of` rows table)
    by (etransitivity; [apply filter_sublist|exact Hr2]).
  assert (HA : forall r, r ∈ l1 -> (P r = true <-> r ∈ l2)).
  { intros r Hr. unfold P. rewrite Hmask.
    apply (mask_selects (rows table)); assumption. }
  assert (HB : forall r, r ∈ l2 -> (P r = true <-> r ∈ l1)).
  { intros r Hr. unfold P. rewrite Hmask, lookup_series_and, andb_comm,
      <- lookup_series_and.
    apply (mask_selects (rows table)); assumption. }
  assert (Hnd : NoDup (rows table)).
  { clear -Hlab. induction (rows table) as [|a t IH]; [constructor|].
    simpl in Hlab. apply NoDup_cons in Hlab as [Ha Hlab].
    apply NoDup_cons. split; [|apply IH, Hlab].
    intros Hin. apply Ha, list_elem_of_In, in_map_iff.
    exists a. split; [reflexivity|apply list_elem_of_In, Hin]. }
  assert (H12 : List.filter P l2 = List.filter P l1)
    by (symmetry; apply (filter_selections P (rows table)); assumption).
  assert (Hsub : rows subset = List.filter P l1).
  { unfold subset, spec_common_subset. cbn [rows]. fold cols.
    rewrite filter_comm. fold l1. symmetry. apply filter_ext_in.
    intros r Hr. apply list_elem_of_In in Hr. apply eq_true_iff_eq.
    rewrite (HA r Hr), bool_decide_eq_true. unfold systems. split.
    - intros Hr'. apply list_elem_of_In, in_map_iff. exists r.
      split; [reflexivity|].
      apply list_elem_of_In, filter_In in Hr' as [Hr' _]. exact Hr'.
    - intros Hin. apply list_elem_of_In, in_map_iff in Hin as (r2 & Hs & Hin2).
      assert (r2 = r) as ->.
      { eapply (NoDup_map_inj _ (rows table)); [exact Hsys| | |exact Hs].
        - eapply elem_of_sublist; [apply list_elem_of_In, Hin2|exact Hr2].
        - eapply elem_of_sublist; [exact Hr|exact Hs1]. }
      apply list_elem_of_In, filter_In. split; [exact Hin2|].
      apply list_elem_of_In, filter_In in Hr as [_ Hr]. exact Hr. }
  assert (Hframe : loc (mkDataFrame (columns data1) l1) mask = subset).
  { unfold loc. cbn [rows columns]. fold P. rewrite <- Hsub. reflexivity. }
  assert (Hany : any mask = true <-> rows subset <> []).
  { rewrite Hsub, filter_nonempty_iff. unfold P. rewrite Hmask.
    apply any_mask_rows.
    eapply sublist_NoDup; [exact Hlab|apply map_sublist, Hs1]. }
  rewrite Hframe in Hloc1.
  apply common_part_Ok in Hc. split.
  - intros Hnil. destruct (any mask) eqn:Ea.
    + destruct (proj1 Hany eq_refl Hnil).
    + subst common.
      assert (resid = None) as -> by (destruct logy; cbn in Hres; congruence).
      split; reflexivity.
  - intros Hne. rewrite (proj2 Hany Hne) in Hc.
    destruct Hc as (d12 & X0 & X & yc1 & yc2 & Hd12 & HX & Hadd & Hy1 & Hy2 & ->).
    rewrite Hframe in *.
    assert (d12 = subset) as ->
      by (unfold cols in Hloc1; rewrite Hloc1 in Hd12; injection Hd12 as <-; reflexivity).
    assert (yc2 = yc1) as ->.
    { apply column_to_numpy_Ok in Hy1 as [_ Hy1].
      apply column_to_numpy_Ok in Hy2 as [_ Hy2].
      unfold loc in Hy2; cbn [rows] in Hy2. fold P in Hy2.
      rewrite H12, <- Hsub, Hy1 in Hy2. symmetry. apply map_Num_inj, Hy2. }
    split; [reflexivity|].
    apply residuals_of_Ok in Hres.
    assert (exists p1 p2,
      predict m1 X = Ok p1 /\ predict m2 X = Ok p2 /\
      resid = Some (NP.vsub (transform yc1) p1, NP.vsub (transform yc1) p2))
      as (p1 & p2 & Hp1 & Hp2 & ->)
      by (unfold transform; destruct logy; cbn in Hres; exact Hres).
    exists X0, X, yc1, p1, p2. cbn. auto 8.
Qed.

End SlopeComparison.

(** ** Running the program on the example data *)

Import Examples.

Lemma div_Fin (a b : R) : b <> 0 -> NP.div (Fin a) (Fin b) = Fin (a / b).
Proof.
  intros H. unfold NP.div. destruct (Req_dec_T b 0); [contradiction|reflexivity].
Qed.

Lemma sqrt_Fin (a : R) : 0 <= a -> NP.sqrt (Fin a) = Fin (sqrt a).
Proof. intros H. unfold NP.sqrt. destruct (Rlt_dec a 0); [lra|reflexivity]. Qed.

Lemma log10_Fin (a : R) : 0 < a -> NP.log10 (Fin a) = Fin (ln a / ln 10).
Proof. intros H. unfold NP.log10. destruct (Rlt_dec 0 a); [reflexivity|lra]. Qed.

Lemma clip1_Fin (r : R) : -1 <= r <= 1 -> NP.clip1 (Fin r) = Fin r.
Proof.
  intros H. unfold NP.clip1.
  destruct (Rlt_dec 1 r); [lra|]. destruct (Rlt_dec r (-1)); [lra|reflexivity].
Qed.

(** The correlation from the three covariances, [s] being the square
    root of the product of the two variances. *)
Lemma corrcoef_Fin (x y : vector) (c a b s : R) :
  NP.cov x y = Fin c -> NP.cov x x = Fin a -> NP.cov y y = Fin b ->
  0 < a -> 0 < b -> 0 < s -> s * s = a * b -> -1 <= c / s <= 1 ->
  NP.corrcoef x y = Fin (c / s).
Proof.
  intros Hc Ha Hb Hpa Hpb Hs Hss Hclip. unfold NP.corrcoef.
  rewrite Hc, Ha, Hb, !sqrt_Fin by lra.
  pose proof (sqrt_lt_R0 a Hpa). pose proof (sqrt_lt_R0 b Hpb).
  rewrite !div_Fin by lra.
  assert (sqrt a * sqrt b = s) as Hprod.
  { rewrite <- sqrt_mult by lra. apply sqrt_lem_1; nra. }
  replace (c / sqrt a / sqrt b) with (c / s)
    by (rewrite <- Hprod; field; split; lra).
  apply clip1_Fin, Hclip.
Qed.

(** Evaluation of a constant expression: its rational value is computed
    and the equation is left to [field]. *)
Ltac reify_Q e :=
  lazymatch e with
  | (?a + ?b)%R => let x := reify_Q a in let y := reify_Q b in constr:(Qplus x y)
  | (?a - ?b)%R => let x := reify_Q a in let y := reify_Q b in constr:(Qminus x y)
  | (?a * ?b)%R => let x := reify_Q a in let y := reify_Q b in constr:(Qmult x y)
  | (?a / ?b)%R => let x := reify_Q a in let y := reify_Q b in constr:(Qdiv x y)
  | (- ?a)%R => let x := reify_Q a in constr:(Qopp x)
  | IZR ?z => constr:(inject_Z z)
  end.

Ltac norm_Fin :=
  match goal with
  | |- context [Fin ?e] =>
      let q := reify_Q e in
      let r := eval vm_compute in (Qred q) in
      let c :=
        lazymatch r with
        | Qmake ?n 1 => constr:(IZR n)
        | Qmake ?n ?d => constr:((IZR n / IZR (Zpos d))%R)
        end in
      tryif constr_eq e c then fail else
      replace e with c by (field || lra)
  end.

(** [sqrt] of the square of a rational *)
Ltac norm_sqrt :=
  match goal with
  | |- context [sqrt ?e] =>
      let q := reify_Q e in
      let r := eval vm_compute in (Qred q) in
      lazymatch r with
      | Qmake ?n ?d =>
          let sn := eval vm_compute in (Z.sqrt n) in
          let sd := eval vm_compute in (Z.sqrt (Zpos d)) in
          let ok := eval vm_compute in
            (Z.eqb (sn * sn) n && Z.eqb (sd * sd) (Zpos d))%bool in
          lazymatch ok with
          | true =>
              replace (sqrt e) with (IZR sn / IZR sd)%R
                by (symmetry; apply sqrt_lem_1; lra)
          end
      end
  end.

Ltac np_step :=
  first
    [ progress unfold NP.mean, NP.center, NP.dot, NP.vsub, NP.sum, NP.cov,
        NP.square, NP.sub, NP.of_nat, NP.of_Z
    | progress cbn [NP.add NP.neg NP.mul fold_right map zip_with length Nat.sub nth]
    | match goal with
      | |- context [INR ?n] =>
          let v := eval vm_compute in (Z.of_nat n) in
          replace (INR n) with (IZR v) by (rewrite INR_IZR_INZ; reflexivity)
      | |- context [IZR (?a - ?b)] =>
          let v := eval vm_compute in (a - b)%Z in
          change (IZR (a - b)) with (IZR v)
      end
    | norm_Fin
    | rewrite div_Fin by lra
    | rewrite sqrt_Fin by lra
    | norm_sqrt ].

Ltac np_eval := repeat np_step; reflexivity.

(** Evaluation of the stages on concrete frames. *)
Ltac constant_check :=
  unfold has_constant, width, column_at;
  cbn [length seq existsb map nth];
  rewrite ?nonzero_constant_zero;
  repeat (rewrite nonzero_constant_differs by lra);
  reflexivity.

Ltac add_constant_eval :=
  apply add_constant_prepend; [discriminate | constant_check].

Ltac design_eval :=
  apply design_Ok; split; [reflexivity|];
  split; [eexists; split; [reflexivity|add_constant_eval]|reflexivity].

Ltac mask_eval :=
  match goal with
  | |- context [any ?m] =>
      let b := eval vm_compute in (any m) in
      change (any m) with b; cbv iota
  end.

Ltac common_eval :=
  apply common_part_Ok; mask_eval;
  first
    [ reflexivity
    | do 5 eexists;
      split; [reflexivity|]; split; [reflexivity|];
      split; [add_constant_eval|];
      split; [reflexivity|]; split; reflexivity ].

(** The fits of the reference solver on the example data. *)
Lemma fit_A :
  exists m,
    ols_simple [Fin (-1); Fin 2; Fin 0; Fin (-1)]
      [[Fin 1; Fin 0]; [Fin 1; Fin 1]; [Fin 1; Fin (-1)]; [Fin 1; Fin 0]] = Ok m /\
    params m = [Fin 0; Fin 1] /\ bse m !! 1%nat = Some (Fin 1).
Proof.
  eexists. split; [reflexivity|]. cbn [params bse]. split; np_eval.
Qed.

Lemma fit_A2 :
  exists m,
    ols_simple [Fin (-1); Fin 3; Fin (-1); Fin (-1)]
      [[Fin 1; Fin 0]; [Fin 1; Fin 1]; [Fin 1; Fin (-1)]; [Fin 1; Fin 0]] = Ok m /\
    params m = [Fin 0; Fin 2] /\ bse m !! 1%nat = Some (Fin 1).
Proof.
  eexists. split; [reflexivity|]. cbn [params bse]. split; np_eval.
Qed.

Lemma fit_B :
  exists m,
    ols_simple [Fin 2; Fin (-2); Fin (-2); Fin 2]
      [[Fin 1; Fin (-4)]; [Fin 1; Fin 0]; [Fin 1; Fin 0]; [Fin 1; Fin 4]] = Ok m /\
    params m = [Fin 0; Fin 0] /\ bse m !! 1%nat = Some (Fin (1 / 2)).
Proof.
  eexists. split; [reflexivity|]. cbn [params bse]. split; np_eval.
Qed.

(** The stages of a run on two of the example frames, given their fits. *)
Ltac stages mA mB HmA HmB HpA HbA HpB HbB :=
  split; [design_eval|]; split; [design_eval|];
  split; [reflexivity|]; split; [common_eval|];
  split; [exact HmA|]; split; [exact HmB|];
  split; [rewrite HpA; reflexivity|]; split; [exact HbA|];
  split; [rewrite HpB; reflexivity|]; split; [exact HbB|];
  split; [apply residuals_of_Ok; cbn [X12 y1_common y2_common];
          first [ reflexivity
                | do 2 eexists;
                  split; [unfold predict; rewrite HpA; reflexivity|];
                  split; [unfold predict; rewrite HpB; reflexivity|reflexivity] ]
         |reflexivity].

(** [A] against [B]: the rows labelled 0 and 1 are taken as common. *)
Lemma run_A_B :
  exists res,
    regression_slope_t_test ols_simple student_t_cdf A B ["x"] "y" false true = Ok res /\
    t_stat res = Fin (2 / 3).
Proof.
  destruct fit_A as (mA & HmA & HpA & HbA). destruct fit_B as (mB & HmB & HpB & HbB).
  eexists. split.
  - apply regression_slope_t_test_Ok.
    exists A, [[Fin 1; Fin 0]; [Fin 1; Fin 1]; [Fin 1; Fin (-1)]; [Fin 1; Fin 0]],
      [Fin (-1); Fin 2; Fin 0; Fin (-1)],
      B, [[Fin 1; Fin (-4)]; [Fin 1; Fin 0]; [Fin 1; Fin 0]; [Fin 1; Fin 4]],
      [Fin 2; Fin (-2); Fin (-2); Fin 2].
    eexists.
    eexists (Some (mkCommon _ [[Fin 1; Fin 0]; [Fin 1; Fin 1]]
                     [Fin (-1); Fin 2] [Fin 2; Fin (-2)])).
    exists mA, mB, (Fin 1), (Fin 1), (Fin 0), (Fin (1 / 2)). eexists.
    stages mA mB HmA HmB HpA HbA HpB HbB.
  - unfold compare_slopes. cbn [t_stat map].
    erewrite (corrcoef_Fin _ _ _ _ _ 4);
      [ | np_eval | np_eval | np_eval | lra | lra | lra | lra | lra ].
    unfold test_statistic, adjusted_variance. np_eval.
Qed.

(** [B] against [A]: the same rows, with the features of [B]. *)
Lemma run_B_A :
  exists res,
    regression_slope_t_test ols_simple student_t_cdf B A ["x"] "y" false true = Ok res /\
    t_stat res = Fin (-2).
Proof.
  destruct fit_A as (mA & HmA & HpA & HbA). destruct fit_B as (mB & HmB & HpB & HbB).
  eexists. split.
  - apply regression_slope_t_test_Ok.
    exists B, [[Fin 1; Fin (-4)]; [Fin 1; Fin 0]; [Fin 1; Fin 0]; [Fin 1; Fin 4]],
      [Fin 2; Fin (-2); Fin (-2); Fin 2],
      A, [[Fin 1; Fin 0]; [Fin 1; Fin 1]; [Fin 1; Fin (-1)]; [Fin 1; Fin 0]],
      [Fin (-1); Fin 2; Fin 0; Fin (-1)].
    eexists.
    eexists (Some (mkCommon _ [[Fin 1; Fin (-4)]; [Fin 1; Fin 0]]
                     [Fin 2; Fin (-2)] [Fin (-1); Fin 2])).
    exists mB, mA, (Fin 0), (Fin (1 / 2)), (Fin 1), (Fin 1). eexists.
    stages mB mA HmB HmA HpB HbB HpA HbA.
  - unfold compare_slopes. cbn [t_stat map].
    erewrite (corrcoef_Fin _ _ _ _ _ 2);
      [ | np_eval | np_eval | np_eval | lra | lra | lra | lra | lra ].
    unfold test_statistic, adjusted_variance. np_eval.
Qed.

(** C2, counterexample: [A] against [B] gives the statistic 2/3, [B]
    against [A] gives -2, not -2/3. *)
Lemma slope_test_not_symmetric :
  t_stat <$> regression_slope_t_test ols_simple student_t_cdf A B ["x"] "y" false true
    = Ok (Fin (2 / 3)) /\
  t_stat <$> regression_slope_t_test ols_simple student_t_cdf B A ["x"] "y" false true
    = Ok (Fin (-2)) /\
  Fin (-2) <> NP.neg (Fin (2 / 3)).
Proof.
  destruct run_A_B as (r & Hr & Ht). destruct run_B_A as (r' & Hr' & Ht').
  rewrite Hr, Hr'. cbn [fmap result_fmap]. rewrite Ht, Ht'.
  split; [reflexivity|]. split; [reflexivity|].
  cbn. intros [= H]. lra.
Qed.



(** [A] against [A2], which has the features of [A] at the same labels. *)
Lemma run_A_A2 :
  exists res,
    regression_slope_t_test ols_simple student_t_cdf A A2 ["x"] "y" false true = Ok res /\
    SE1 res = Fin 1 /\ SE2 res = Fin 1.
Proof.
  destruct fit_A as (mA & HmA & HpA & HbA). destruct fit_A2 as (mB & HmB & HpB & HbB).
  eexists. split.
  - apply regression_slope_t_test_Ok.
    exists A, [[Fin 1; Fin 0]; [Fin 1; Fin 1]; [Fin 1; Fin (-1)]; [Fin 1; Fin 0]],
      [Fin (-1); Fin 2; Fin 0; Fin (-1)],
      A2, [[Fin 1; Fin 0]; [Fin 1; Fin 1]; [Fin 1; Fin (-1)]; [Fin 1; Fin 0]],
      [Fin (-1); Fin 3; Fin (-1); Fin (-1)].
    eexists.
    eexists (Some (mkCommon _
                     [[Fin 1; Fin 0]; [Fin 1; Fin 1]; [Fin 1; Fin (-1)]; [Fin 1; Fin 0]]
                     [Fin (-1); Fin 2; Fin 0; Fin (-1)]
                     [Fin (-1); Fin 3; Fin (-1); Fin (-1)])).
    exists mA, mB, (Fin 1), (Fin 1), (Fin 2), (Fin 1). eexists.
    stages mA mB HmA HmB HpA HbA HpB HbB.
  - split; reflexivity.
Qed.





(** [A] against the same observations under other labels. *)
Lemma run_A_renumbered :
  exists res,
    regression_slope_t_test ols_simple student_t_cdf A A_renumbered ["x"] "y" false true
      = Ok res /\
    data12 res = None.
Proof.
  destruct fit_A as (mA & HmA & HpA & HbA).
  eexists. split.
  - apply regression_slope_t_test_Ok.
    exists A, [[Fin 1; Fin 0]; [Fin 1; Fin 1]; [Fin 1; Fin (-1)]; [Fin 1; Fin 0]],
      [Fin (-1); Fin 2; Fin 0; Fin (-1)],
      A_renumbered,
      [[Fin 1; Fin 0]; [Fin 1; Fin 1]; [Fin 1; Fin (-1)]; [Fin 1; Fin 0]],
      [Fin (-1); Fin 2; Fin 0; Fin (-1)].
    eexists. exists None, mA, mA, (Fin 1), (Fin 1), (Fin 1), (Fin 1). eexists.
    stages mA mA HmA HmA HpA HbA HpA HbA.
  - reflexivity.
Qed.

(** C1, counterexample: [A_renumbered] has the Systems of [A], so all the
    rows of [A] have their System in both datasets; the function finds no
    common row, the labels being different. *)
Lemma common_subset_by_label :
  data12 <$>
    regression_slope_t_test ols_simple student_t_cdf A A_renumbered ["x"] "y" false true
  = Ok None /\
  rows (spec_common_subset A A_renumbered ["x"] "y") = rows A.
Proof.
  split; [|reflexivity].
  destruct run_A_renumbered as (r & -> & Hr). cbn [fmap result_fmap].
  rewrite Hr. reflexivity.
Qed.







Lemma doubling_time_Fin (r : R) :
  r <> 0 -> ooms_to_doubling_time_months (Fin r) = Fin (12 * (ln 2 / ln 10 / r)).
Proof.
  intros H. unfold ooms_to_doubling_time_months.
  rewrite (log10_Fin 2) by lra. rewrite div_Fin by exact H. reflexivity.
Qed.

(** C8, at a result of the formula interface.  The report of [model_x]
    (Intercept 0 with standard error 1/5, slope 1/2 with standard error
    1/10) ends with the doubling time of the slope, then of the upper
    bound of the slope, then of the upper bound of the Intercept:
    [conf_int()[1]] is the column of upper bounds of the table, not the
    interval of the slope.  With the critical value 2 the lower bound of
    the slope is 3/10 and the upper bound of the Intercept 2/5; the last
    number printed is the doubling time of 2/5, which is not that of the
    lower bound. *)
Theorem print_growth_rates_doubling_time_formula_fit
    (t_ppf : npfloat -> Z -> npfloat) (factor doubling : npfloat -> npfloat) :
  let q := t_ppf (Fin (1 - 0.05 / 2)) 2%Z in
  (exists l1 l2 l3 l4 : line,
     print_growth_rates t_ppf factor doubling model_x = ([l1; l2; l3; l4], Ok tt) /\
     floats l4 =
       [doubling (Fin (1 / 2));
        doubling (NP.add (Fin (1 / 2)) (NP.mul q (Fin (1 / 10))));
        doubling (NP.add (Fin 0) (NP.mul q (Fin (1 / 5))))]) /\
  NP.add (Fin 0) (NP.mul (Fin 2) (Fin (1 / 5))) = Fin (2 / 5) /\
  NP.sub (Fin (1 / 2)) (NP.mul (Fin 2) (Fin (1 / 10))) = Fin (3 / 10) /\
  ooms_to_doubling_time_months (Fin (2 / 5))
    <> ooms_to_doubling_time_months (Fin (3 / 10)).
Proof.
  intros q. split; [|split; [|split]].
  - do 4 eexists. split.
    + apply (print_growth_rates_lines t_ppf factor doubling model_x
               (Fin (1 / 2))
               (NP.add (Fin 0) (NP.mul q (Fin (1 / 5))))
               (NP.add (Fin (1 / 2)) (NP.mul q (Fin (1 / 10))))).
      * reflexivity.
      * apply conf_int_entry_formula; [discriminate|reflexivity|reflexivity].
      * apply conf_int_entry_formula; [discriminate|reflexivity|reflexivity].
    + reflexivity.
  - np_eval.
  - np_eval.
  - rewrite !doubling_time_Fin by lra. intros [= H].
    assert (0 < ln 2) by (rewrite <- ln_1; apply ln_increasing; lra).
    assert (0 < ln 10) by (rewrite <- ln_1; apply ln_increasing; lra).
    assert (Hq : ln 2 / ln 10 <> 0).
    { apply Rgt_not_eq. apply Rdiv_lt_0_compat; assumption. }
    apply Hq.
    assert (ln 2 / ln 10 / (2 / 5) = ln 2 / ln 10 / (3 / 10)) as H' by lra.
    unfold Rdiv in H' at 1 3.
    replace (/ (2 / 5)) with (5 / 2) in H' by lra.
    replace (/ (3 / 10)) with (10 / 3) in H' by lra.
    lra.
Qed.

(** ** The theorems at the example data *)

(** distinct constants *)
Ltac distinct :=
  repeat (apply NoDup_cons; split;
          [ rewrite ?not_elem_of_cons; repeat split;
            (discriminate || apply not_elem_of_nil) | ]);
  apply NoDup_nil_2.

Ltac column_present :=
  cbn; rewrite ?elem_of_cons; auto.


Lemma NoDup_labels_A : NoDup (map label (rows A)).
Proof. cbn. distinct. Qed.

Lemma NoDup_labels_A2 : NoDup (map label (rows A2)).
Proof. cbn. distinct. Qed.

Lemma NoDup_systems_A : NoDup (systems A).
Proof. unfold systems. cbn. distinct. Qed.

(** [A] and [A_tail] are selections of the table [A]. *)
Lemma selections_A_tail : selections_of A A A_tail.
Proof.
  split.
  - exact NoDup_labels_A.
  - exact NoDup_systems_A.
  - reflexivity.
  - apply sublist_cons. reflexivity.
Qed.

(** [A] against [A_tail]. *)
Lemma run_A_A_tail :
  exists res,
    regression_slope_t_test ols_simple student_t_cdf A A_tail ["x"] "y" false true
      = Ok res.
Proof.
  edestruct (regression_slope_t_test_returns ols_simple student_t_cdf A A_tail
              A A_tail ["x"] "y" false true
              [[Fin 1; Fin 0]; [Fin 1; Fin 1]; [Fin 1; Fin (-1)]; [Fin 1; Fin 0]]
              [[Fin 1; Fin 1]; [Fin 1; Fin (-1)]; [Fin 1; Fin 0]]
              [Fin (-1); Fin 2; Fin 0; Fin (-1)] [Fin 2; Fin 0; Fin (-1)]
              (zip_with (fun (r : row) b => (label r, b)) (rows A)
                 [false; true; true; true])
              (Some (mkCommon (loc A (zip_with (fun (r : row) b => (label r, b)) (rows A)
                                        [false; true; true; true]))
                       [[Fin 1; Fin 1]; [Fin 1; Fin (-1)]; [Fin 1; Fin 0]]
                       [Fin 2; Fin 0; Fin (-1)] [Fin 2; Fin 0; Fin (-1)])))
    as (res & Hrun & _);
    [ design_eval | design_eval | reflexivity | common_eval
    | reflexivity | reflexivity | reflexivity | reflexivity | reflexivity | reflexivity
    | reflexivity | ].
  exists res. exact Hrun.
Qed.

(** [A] against [A_tail]: the common subset is the rows of [A] whose
    System is in [A_tail]. *)
Lemma regression_slope_t_test_common_subset_witness :
  exists res,
    regression_slope_t_test ols_simple student_t_cdf A A_tail ["x"] "y" false true
      = Ok res /\
    data12 res = Some (spec_common_subset A A_tail ["x"] "y").
Proof.
  destruct run_A_A_tail as (res & Hrun).
  exists res. split; [exact Hrun|].
  apply (regression_slope_t_test_common_subset ols_simple student_t_cdf
           A A A_tail ["x"] "y" false true res selections_A_tail Hrun).
  discriminate.
Defined.

(** [A] and [A2] have the same features at the same labels: the test is
    symmetric on them. *)
Lemma regression_slope_t_test_symmetric_witness :
  exists res res',
    regression_slope_t_test ols_simple student_t_cdf A A2 ["x"] "y" false true = Ok res /\
    regression_slope_t_test ols_simple student_t_cdf A2 A ["x"] "y" false true = Ok res' /\
    t_stat res' = NP.neg (t_stat res) /\
    p_value res' = p_value res.
Proof.
  destruct run_A_A2 as (res & Hrun & _).
  destruct (regression_slope_t_test_symmetric ols_simple student_t_cdf A A2
              ["x"] "y" false true res NoDup_labels_A NoDup_labels_A2)
    as (res' & Hrun' & Ht & Hp).
  - intros A' B' mask HA HB Hmask.
    apply dropna_Ok in HA as [_ ->]. apply dropna_Ok in HB as [_ ->].
    apply common_systems_inv in Hmask as ->. reflexivity.
  - exact Hrun.
  - exists res, res'. auto.
Defined.



(** [A] and [C] share no System. *)
Lemma regression_slope_t_test_no_shared_system_witness :
  regression_slope_t_test ols_simple student_t_cdf A C ["x"] "y" false true =
  regression_slope_t_test ols_simple student_t_cdf A C ["x"] "y" false false.
Proof.
  apply (regression_slope_t_test_no_shared_system ols_simple student_t_cdf
           A C ["x"] "y" false).
  intros c HA HC. unfold systems in *. cbn in HA, HC.
  rewrite !elem_of_cons, elem_of_nil in HA.
  rewrite !elem_of_cons, elem_of_nil in HC.
  destruct HA as [->|[->|[->|[->|[]]]]];
    destruct HC as [HC|[HC|[HC|[HC|[]]]]]; discriminate HC.
Defined.



(** Any [features] argument does. *)
Lemma get_predictions_ignores_features_witness :
  get_predictions model_xz A ["x"; "z"] = get_predictions model_xz A [] /\
  get_predictions model_x A ["x"] = get_predictions model_x A ["y"].
Proof.
  split.
  - apply (get_predictions_ignores_features model_xz A ["x"; "z"] []).
  - apply (get_predictions_ignores_features model_x A ["x"] ["y"]).
Defined.

(** A logarithmic fit on [A], the only frame of the heap. *)
Lemma fit_ols_regression_preserves_input_witness :
  (fit_ols_regression smf_ols_simple 1 ["x"] "y" true {[1%positive := A]}).2
    !! 1%positive = Some A.
Proof.
  apply (fit_ols_regression_preserves_input smf_ols_simple
           {[1%positive := A]} 1%positive ["x"] "y" true 1%positive A).
  reflexivity.
Defined.

(** * Further properties *)

(** ** The fit helper: columns and the logarithm *)

(** X1.  When a feature or the target is not a column of the dataset,
    [fit_ols_regression] raises a [KeyError] that lists exactly the names
    of [features + [target]] that are not columns, in that order; no
    frame is added to the memory, whatever the log flag. *)
Theorem fit_ols_regression_missing_column
    (smf_ols : string -> list string -> DataFrame -> result RegressionResults)
    (h : heap) (data : positive) (d : DataFrame) (features : list string)
    (target : string) (logy : bool) :
  h !! data = Some d ->
  (exists c, c ∈ (features ++ [target])%list /\ c ∉ columns d) ->
  let missing := missing_columns d (features ++ [target]) in
  fit_ols_regression smf_ols data features target logy h = (Raise (KeyError missing), h) /\
  missing <> [] /\
  (forall c, c ∈ missing <-> c ∈ (features ++ [target])%list /\ c ∉ columns d) /\
  missing `sublist_of` (features ++ [target])%list.
Proof.
  intros Hh (c & Hc & Hn) missing.
  assert (Hin : forall c, c ∈ missing <-> c ∈ (features ++ [target])%list /\ c ∉ columns d).
  { intros c'. unfold missing, missing_columns, has_column.
    rewrite list_elem_of_In, filter_In, <- list_elem_of_In, negb_true_iff,
      bool_decide_eq_false. reflexivity. }
  assert (Hne : missing <> []).
  { intros Hnil. assert (c ∈ missing) as Hm by (apply Hin; auto).
    rewrite Hnil in Hm. inversion Hm. }
  split; [|split; [exact Hne|split; [exact Hin|apply filter_sublist]]].
  unfold fit_ols_regression, mbind, M_bind, read, lift. rewrite Hh.
  unfold dropna. fold missing. destruct missing; [contradiction|reflexivity].
Qed.

Lemma numeric_cells {A : Type} (h : A -> cell) (l : list A) :
  (forall a, a ∈ l -> exists v, h a = Num v) ->
  exists y : vector, map h l = map Num y.
Proof.
  induction l as [|a l IH]; intros H.
  - exists []. reflexivity.
  - destruct (H a) as [v Hv]; [left|].
    destruct IH as [y Hy]; [intros b Hb; apply H; right; exact Hb|].
    exists (v :: y). cbn. rewrite Hv, Hy. reflexivity.
Qed.

(** X2.  What the solver is given.  [fit_ols_regression] fits a new
    frame that holds, in order and under their labels, the rows of the
    dataset without a missing value in the features and the target, and
    no other row.  Without the log flag the cells are those of the
    dataset; with it the target cell is replaced by its base-10
    logarithm and every other cell, the features among them, is
    unchanged.  The new frame is what the call adds to the memory. *)
Theorem fit_ols_regression_fitted_frame
    (smf_ols : string -> list string -> DataFrame -> result RegressionResults)
    (h : heap) (data : positive) (d : DataFrame) (features : list string)
    (target : string) (logy : bool) :
  h !! data = Some d ->
  (forall c, c ∈ (features ++ [target])%list -> c ∈ columns d) ->
  (logy = true ->
   forall r, r ∈ rows d -> complete_row (features ++ [target]) r = true ->
             exists v, cell_at r target = Num v) ->
  exists fitted,
    fit_ols_regression smf_ols data features target logy h =
      (smf_ols target features fitted, <[fresh (dom h) := fitted]> h) /\
    columns fitted = columns d /\
    Forall2
      (fun r r' : row =>
         label r' = label r /\
         (forall c, c <> target -> cell_at r' c = cell_at r c) /\
         cell_at r' target =
           if logy
           then match cell_at r target with
                | Num v => Num (NP.log10 v)
                | Str s => Str s
                end
           else cell_at r target)
      (List.filter (complete_row (features ++ [target])) (rows d)) (rows fitted).
Proof.
  intros Hh Hcols Hnum.
  set (d' := mkDataFrame (columns d)
               (List.filter (complete_row (features ++ [target])) (rows d))).
  assert (Hd : dropna d (features ++ [target]) = Ok d')
    by (apply dropna_Ok; auto).
  assert (Hc : target ∈ columns d)
    by (apply Hcols, elem_of_app; right; left).
  destruct logy.
  - destruct (numeric_cells (fun r => cell_at r target) (rows d')) as [y Hy'].
    { intros r Hr. cbn in Hr. apply list_elem_of_In, filter_In in Hr as [Hr Hcomp].
      apply (Hnum eq_refl r); [apply list_elem_of_In, Hr|exact Hcomp]. }
    assert (Hlen : length y = length (rows d')).
    { apply (f_equal length) in Hy'. rewrite !length_map in Hy'. symmetry. exact Hy'. }
    exists (assign_column d' target
              (zip_with (fun (r : row) v => (label r, Num (NP.log10 v))) (rows d') y)).
    split; [|split].
    + unfold fit_ols_regression, mbind, M_bind, read, lift, alloc, write.
      rewrite Hh, Hd. cbv beta iota. rewrite lookup_insert_eq. cbv beta iota.
      unfold column, has_column. cbn [columns d'].
      rewrite (bool_decide_eq_true_2 _ Hc).
      rewrite (series_log10_column _ _ _ Hy'). cbv beta iota.
      rewrite lookup_insert_eq, insert_insert_eq. reflexivity.
    + unfold assign_column, has_column. cbn [columns d'].
      rewrite (bool_decide_eq_true_2 _ Hc). reflexivity.
    + change (List.filter (complete_row (features ++ [target])) (rows d))
        with (rows d').
      apply Forall2_same_length_lookup_2.
      { unfold assign_column. cbn [rows]. rewrite !length_zip_with. lia. }
      intros i r r' Hr Hr'. unfold assign_column in Hr'. cbn [rows] in Hr'.
      apply lookup_zip_with_Some in Hr' as (r0 & p & -> & Hr0 & Hp).
      rewrite Hr in Hr0. injection Hr0 as <-.
      apply lookup_zip_with_Some in Hp as (r1 & v & -> & Hr1 & Hv).
      rewrite Hr in Hr1. injection Hr1 as <-.
      split; [reflexivity|]. split.
      * intros c Hne. unfold cell_at. cbn. rewrite lookup_insert_ne by congruence.
        reflexivity.
      * apply (f_equal (fun l => l !! i)) in Hy'.
        rewrite !lookup_map_list, Hr, Hv in Hy'. cbn in Hy'. injection Hy' as ->.
        unfold cell_at at 1. cbn. rewrite lookup_insert_eq. reflexivity.
  - exists d'. split; [|split].
    + unfold fit_ols_regression, mbind, M_bind, read, lift, alloc, write, mret, M_ret.
      rewrite Hh, Hd. cbv beta iota. rewrite lookup_insert_eq. reflexivity.
    + reflexivity.
    + cbn [rows d']. apply Forall2_same_length_lookup_2; [reflexivity|].
      intros i r r' Hr Hr'. rewrite Hr in Hr'. injection Hr' as <-. auto.
Qed.

(** ** The prediction helper: missing values *)




(** ** The growth-rate reporter: what is printed *)

(** X4.  For a model without a second coefficient (an intercept alone),
    [print_growth_rates] prints the line of the adjusted R^2 and then
    raises an [IndexError]: nothing else is printed. *)
Theorem print_growth_rates_no_slope
    (t_ppf : npfloat -> Z -> npfloat) (factor doubling : npfloat -> npfloat)
    (model : RegressionResults) :
  (length (params model) <= 1)%nat ->
  print_growth_rates t_ppf factor doubling model =
    ([[Text "Adj. R^2="; Float 2 (rsquared_adj model)]], Raise IndexError).
Proof.
  intros H. unfold print_growth_rates, index.
  rewrite (lookup_ge_None_2 (params model) 1) by lia. reflexivity.
Qed.

(** X5.  For a model with two coefficients and standard errors at
    least, [print_growth_rates] prints four lines and raises nothing.
    With [q] the 97.5% quantile of Student's t at the residual degrees of
    freedom, [b] and [se] the slope and its standard error (position 1),
    the second line shows [b], a first bound and [b + q*se].  The first
    bound is the lower bound [b - q*se] of the slope for a result fitted
    on arrays; for a result of the formula interface it is the upper
    bound [b0 + q*se0] of the Intercept (position 0), [conf_int()[1]]
    being the column of upper bounds.  The third line shows the yearly
    factor of the same three numbers in the same order, the fourth the
    doubling time of [b], of [b + q*se] and of the first bound, and the
    first line the adjusted R^2. *)
Theorem print_growth_rates_interval
    (t_ppf : npfloat -> Z -> npfloat) (factor doubling : npfloat -> npfloat)
    (model : RegressionResults) (b0 b se0 se : npfloat) :
  params model !! 0%nat = Some b0 -> params model !! 1%nat = Some b ->
  bse model !! 0%nat = Some se0 -> bse model !! 1%nat = Some se ->
  let q := t_ppf (Fin (1 - 0.05 / 2)) (df_resid model) in
  let hi := NP.add b (NP.mul q se) in
  let bound :=
    if bool_decide (params_index model = [])
    then NP.sub b (NP.mul q se)
    else NP.add b0 (NP.mul q se0) in
  exists l1 l2 l3 l4 : line,
    print_growth_rates t_ppf factor doubling model = ([l1; l2; l3; l4], Ok tt) /\
    floats l1 = [rsquared_adj model] /\
    floats l2 = [b; bound; hi] /\
    floats l3 = [factor b; factor bound; factor hi] /\
    floats l4 = [doubling b; doubling hi; doubling bound].
Proof.
  intros Hb0 Hb Hse0 Hse q hi bound.
  assert (H0 : conf_int_entry t_ppf model 1 0 = Ok bound).
  { unfold bound. case_bool_decide as Hidx.
    - apply (conf_int_entry_array t_ppf model b se Hidx Hb Hse).
    - apply (conf_int_entry_formula t_ppf model 0 b0 se0 Hidx Hb0 Hse0). }
  assert (H1 : conf_int_entry t_ppf model 1 1 = Ok hi).
  { destruct (decide (params_index model = [])) as [Hidx|Hidx].
    - apply (conf_int_entry_array t_ppf model b se Hidx Hb Hse).
    - apply (conf_int_entry_formula t_ppf model 1 b se Hidx Hb Hse). }
  rewrite (print_growth_rates_lines t_ppf factor doubling model b bound hi Hb H0 H1).
  do 4 eexists. split; [reflexivity|]. repeat split; reflexivity.
Qed.

(** ** The slope comparison: further properties *)

Lemma clip1_range (a : npfloat) :
  NP.clip1 a = NaN \/ exists r, NP.clip1 a = Fin r /\ -1 <= r <= 1.
Proof.
  destruct a as [x| | |]; cbn.
  - right. destruct (Rlt_dec 1 x); [exists 1; split; [reflexivity|lra]|].
    destruct (Rlt_dec x (-1)); [exists (-1); split; [reflexivity|lra]|].
    exists x. split; [reflexivity|lra].
  - right. exists 1. split; [reflexivity|lra].
  - right. exists (-1). split; [reflexivity|lra].
  - left. reflexivity.
Qed.

(** With both designs built, the overlapping data is found or the
    library rejects an array: nothing else is raised. *)
Lemma common_part_result (d1 d1' d2 d2' : DataFrame) (features : list string)
    (target : string) (X1 X2 : matrix) (y1 y2 : vector) (mask : Series bool) :
  design d1 features target = Ok (d1', X1, y1) ->
  design d2 features target = Ok (d2', X2, y2) ->
  (exists common, common_part d1' d2' mask features target = Ok common) \/
  (exists msg, common_part d1' d2' mask features target = Raise (LibraryError msg)).
Proof.
  intros H1 H2.
  apply design_Ok in H1 as (Hd1 & (X10 & HX1 & _) & Hy1).
  apply design_Ok in H2 as (Hd2 & (X20 & HX2 & _) & Hy2).
  unfold common_part. destruct (any mask); [|eauto].
  rewrite (dropna_loc _ _ _ mask Hd1). cbn.
  destruct (to_numpy_loc _ _ _ mask HX1) as [X' HX']. rewrite HX'; cbn.
  destruct (add_constant X') as [X''|e] eqn:E; cbn.
  - destruct (column_to_numpy_loc _ _ _ mask Hy1) as [y1c ->]; cbn.
    destruct (column_to_numpy_loc _ _ _ mask Hy2) as [y2c ->]; cbn.
    eauto.
  - apply add_constant_Raise in E as (_ & msg & ->). eauto.
Qed.

(** Rows selected by a mask that is [True] only at labels of both frames:
    with distinct labels, as many rows are selected in one as in the other. *)
Lemma filter_labels_length (l1 l2 : list row) (m : Z -> bool) :
  NoDup (map label l1) -> NoDup (map label l2) ->
  (forall i, m i = true -> i ∈ map label l1 /\ i ∈ map label l2) ->
  length (List.filter (fun r => m (label r)) l1) =
  length (List.filter (fun r => m (label r)) l2).
Proof.
  intros H1 H2 Hm.
  rewrite <- (length_map label (List.filter _ l1)),
          <- (length_map label (List.filter _ l2)).
  apply Permutation_length, NoDup_Permutation.
  - apply NoDup_map_filter, H1.
  - apply NoDup_map_filter, H2.
  - assert (Hin : forall l i, i ∈ map label l ->
              (i ∈ map label (List.filter (fun r => m (label r)) l) <-> m i = true)).
    { intros l i Hi. apply list_elem_of_In, in_map_iff in Hi as (r0 & <- & Hr0).
      rewrite list_elem_of_In, in_map_iff. split.
      - intros (r & <- & Hr). apply filter_In in Hr. tauto.
      - intros Hmi. exists r0. split; [reflexivity|]. apply filter_In. auto. }
    assert (Hsub : forall l i,
              i ∈ map label (List.filter (fun r => m (label r)) l) -> m i = true).
    { intros l i. rewrite list_elem_of_In, in_map_iff.
      intros (r & <- & Hr). apply filter_In in Hr. tauto. }
    intros i. split; intros Hi; pose proof (Hsub _ _ Hi) as Hmi;
      destruct (Hm i Hmi) as [Hi1 Hi2]; apply Hin; assumption.
Qed.

Lemma mask_true_labels (l1 l2 : list row) (i : Z) :
  default false
    (lookup_label
       (series_and
          (isin (map (fun r => (label r, cell_at r "System")) l1)
                (map (fun r => (label r, cell_at r "System")) l2))
          (isin (map (fun r => (label r, cell_at r "System")) l2)
                (map (fun r => (label r, cell_at r "System")) l1))) i) = true ->
  i ∈ map label l1 /\ i ∈ map label l2.
Proof.
  rewrite lookup_series_and, andb_true_iff, !lookup_isin.
  assert (Hl : forall (l : list row) (f : cell -> bool),
    default false
      (f <$> lookup_label (map (fun r => (label r, cell_at r "System")) l) i) = true ->
    i ∈ map label l).
  { intros l f H.
    destruct (lookup_label _ i) as [c|] eqn:E; [|discriminate].
    apply lookup_label_Some, list_elem_of_In, in_map_iff in E as (r & [= <- _] & Hr).
    apply list_elem_of_In, in_map_iff. eauto. }
  intros [Ha Hb]. split; eapply Hl; eassumption.
Qed.

Section SlopeComparisonFurther.

Variable sm_OLS : vector -> matrix -> result RegressionResults.
Variable t_cdf : npfloat -> Z -> npfloat.

Lemma rho_unadjusted (d12 : option DataFrame) (resid : option (vector * vector))
    (m1 m2 : RegressionResults) (s1 e1 s2 e2 : npfloat) (n1 n2 : nat) :
  rho (compare_slopes t_cdf d12 resid m1 m2 s1 e1 s2 e2 n1 n2 false) = Fin 0.
Proof. destruct resid as [[r1 r2]|]; reflexivity. Qed.

(** X6.  Without the correlation adjustment the statistic does not
    depend on the order of the datasets but for its sign: when the call
    on [(A, B)] returns, it has used [rho = 0], and the call on [(B, A)]
    either returns, with the opposite statistic, the same p-value, the
    same degrees of freedom and [rho = 0], or it is stopped by the
    library on the overlapping data (the constant column, the
    predictions), which is built from the first dataset and is built and
    predicted on whatever the flag. *)
Theorem regression_slope_t_test_unadjusted_symmetric
    (A B : DataFrame) (features : list string) (target : string)
    (logy : bool) (res : SlopeTest) :
  regression_slope_t_test sm_OLS t_cdf A B features target logy false = Ok res ->
  rho res = Fin 0 /\
  ((exists res',
      regression_slope_t_test sm_OLS t_cdf B A features target logy false = Ok res' /\
      t_stat res' = NP.neg (t_stat res) /\
      p_value res' = p_value res /\
      df res' = df res /\
      rho res' = Fin 0) \/
   (exists msg,
      regression_slope_t_test sm_OLS t_cdf B A features target logy false
        = Raise (LibraryError msg))).
Proof.
  intros Hres.
  apply regression_slope_t_test_Ok in Hres
    as (A' & X1 & y1 & B' & X2 & y2 & mask & common & m1 & m2 & s1 & e1 & s2 & e2
        & resid & H1 & H2 & Hmask & Hc & Hm1 & Hm2 & Hs1 & He1 & Hs2 & He2 & Hr & ->).
  split; [apply rho_unadjusted|].
  destruct (common_systems_columns _ _ _ Hmask) as [HsA HsB].
  pose proof (common_systems_Ok B' A' HsB HsA) as Hmask'.
  destruct (common_part_result B B' A A' features target X2 X1 y2 y1
              (series_and
                 (isin (map (fun r => (label r, cell_at r "System")) (rows B'))
                       (map (fun r => (label r, cell_at r "System")) (rows A')))
                 (isin (map (fun r => (label r, cell_at r "System")) (rows A'))
                       (map (fun r => (label r, cell_at r "System")) (rows B'))))
              H2 H1) as [[common' Hc']|[msg Hc']].
  - destruct (residuals_of (if logy then log10_common <$> common' else common') m2 m1)
      as [resid'|e] eqn:Hr'.
    + left. eexists. split.
      * apply regression_slope_t_test_Ok.
        exists B', X2, y2, A', X1, y1. do 2 eexists.
        exists m2, m1, s2, e2, s1, e1, resid'.
        repeat split; eassumption.
      * pose proof (rho_unadjusted (common_data <$> common) resid m1 m2 s1 e1 s2 e2
                      (length X1) (length X2)) as Hrho.
        pose proof (rho_unadjusted (common_data <$> common') resid' m2 m1 s2 e2 s1 e1
                      (length X2) (length X1)) as Hrho'.
        unfold compare_slopes in *. cbn [t_stat p_value rho df] in *.
        rewrite Hrho, Hrho', test_statistic_swap, abs_neg.
        rewrite (Z.add_comm (Z.of_nat (length X2) - 2)). repeat split; reflexivity.
    + right. apply residuals_of_Raise in Hr' as Hmsg. destruct Hmsg as [msg ->].
      exists msg. unfold regression_slope_t_test.
      rewrite H2; cbn. rewrite H1; cbn. rewrite Hmask'; cbn. rewrite Hc'; cbn.
      rewrite Hm2; cbn. rewrite Hm1; cbn. unfold index.
      rewrite Hs2, He2, Hs1, He1; cbn. rewrite Hr'. reflexivity.
  - right. exists msg. unfold regression_slope_t_test.
    rewrite H2; cbn. rewrite H1; cbn. rewrite Hmask'; cbn. rewrite Hc'. reflexivity.
Qed.

(** X7.  The column of Systems is read whatever the adjustment flag:
    when both datasets pass the filter and the extraction of the arrays
    but one of them has no column 'System', the call raises
    [KeyError 'System'], also with [adj_corr=False]. *)
Theorem regression_slope_t_test_needs_system_column
    (data1 data2 d1 d2 : DataFrame) (features : list string) (target : string)
    (logy adj_corr : bool) (X1 X2 : matrix) (y1 y2 : vector) :
  design data1 features target = Ok (d1, X1, y1) ->
  design data2 features target = Ok (d2, X2, y2) ->
  "System" ∉ columns data1 \/ "System" ∉ columns data2 ->
  regression_slope_t_test sm_OLS t_cdf data1 data2 features target logy adj_corr
    = Raise (KeyError ["System"]).
Proof.
  intros H1 H2 Hsys. unfold regression_slope_t_test.
  rewrite H1; cbn. rewrite H2; cbn.
  apply design_Ok in H1 as (Hd1 & _ & _). apply design_Ok in H2 as (Hd2 & _ & _).
  unfold common_systems, column, has_column.
  rewrite (dropna_columns _ _ _ Hd1), (dropna_columns _ _ _ Hd2).
  destruct (bool_decide_reflect ("System" ∈ columns data1)) as [Hc1|Hc1];
    [|reflexivity].
  destruct (bool_decide_reflect ("System" ∈ columns data2)) as [Hc2|Hc2];
    [|reflexivity].
  tauto.
Qed.

(** X8.  The correlation the test uses is never outside [-1, 1]: on
    every result, [rho] is NaN or a number between -1 and 1; it is 0
    when the adjustment is off and when no common subset was found. *)
Theorem regression_slope_t_test_rho_range
    (data1 data2 : DataFrame) (features : list string) (target : string)
    (logy adj_corr : bool) (res : SlopeTest) :
  regression_slope_t_test sm_OLS t_cdf data1 data2 features target logy adj_corr
    = Ok res ->
  (rho res = NaN \/ exists r, rho res = Fin r /\ -1 <= r <= 1) /\
  (adj_corr = false -> rho res = Fin 0) /\
  (data12 res = None -> rho res = Fin 0).
Proof.
  intros Hres.
  apply regression_slope_t_test_Ok in Hres
    as (d1 & X1 & y1 & d2 & X2 & y2 & mask & common & m1 & m2 & s1 & e1 & s2 & e2
        & resid & _ & _ & _ & _ & _ & _ & _ & _ & _ & _ & Hr & ->).
  assert (Hzero : exists r, Fin 0 = Fin r /\ -1 <= r <= 1)
    by (exists 0; split; [reflexivity|lra]).
  apply residuals_of_Ok in Hr.
  destruct common as [c0|].
  - assert (exists p, resid = Some p) as [[r1 r2] ->].
    { destruct logy; cbn in Hr; destruct Hr as (p1 & p2 & _ & _ & ->); eauto. }
    cbn. destruct adj_corr; cbn.
    + split; [apply clip1_range|]. split; discriminate.
    + split; [right; exact Hzero|]. split; [reflexivity|discriminate].
  - assert (resid = None) as -> by (destruct logy; exact Hr).
    cbn. split; [right; exact Hzero|]. split; reflexivity.
Qed.
(** X10.  For datasets with distinct row labels the arrays of the
    overlapping data fit together: when a common subset is found, each
    of the two residual arrays has one entry per row of [data12]; when
    none is found there are no residuals. *)
Theorem regression_slope_t_test_residual_shapes
    (data1 data2 : DataFrame) (features : list string) (target : string)
    (logy adj_corr : bool) (res : SlopeTest) :
  NoDup (map label (rows data1)) -> NoDup (map label (rows data2)) ->
  regression_slope_t_test sm_OLS t_cdf data1 data2 features target logy adj_corr
    = Ok res ->
  (data12 res = None /\ residuals res = None) \/
  (exists d12 r1 r2,
     data12 res = Some d12 /\ residuals res = Some (r1, r2) /\
     rows d12 <> [] /\
     length r1 = length (rows d12) /\ length r2 = length (rows d12)).
Proof.
  intros Hnd1 Hnd2 Hres.
  apply regression_slope_t_test_Ok in Hres
    as (d1 & X1 & y1 & d2 & X2 & y2 & mask & common & m1 & m2 & s1 & e1 & s2 & e2
        & resid & H1 & H2 & Hmask & Hc & _ & _ & _ & _ & _ & _ & Hr & ->).
  apply design_Ok in H1 as (Hd1 & _ & _). apply design_Ok in H2 as (Hd2 & _ & _).
  pose proof (dropna_loc _ _ _ mask Hd1) as Hloc1.
  apply dropna_Ok in Hd1 as [_ ->]. apply dropna_Ok in Hd2 as [_ ->].
  apply common_systems_inv in Hmask. cbn [rows] in Hmask.
  set (l1 := List.filter (complete_row (features ++ [target])) (rows data1)) in *.
  set (l2 := List.filter (complete_row (features ++ [target])) (rows data2)) in *.
  assert (Hn1 : NoDup (map label l1)) by apply NoDup_map_filter, Hnd1.
  assert (Hn2 : NoDup (map label l2)) by apply NoDup_map_filter, Hnd2.
  apply residuals_of_Ok in Hr.
  apply common_part_Ok in Hc. destruct (any mask) eqn:Hany.
  - right. destruct Hc as (d12 & X0 & X & y1c & y2c & Hd12 & HX & Hadd & Hy1c & Hy2c & ->).
    rewrite Hloc1 in Hd12. injection Hd12 as <-.
    apply to_numpy_Ok in HX as [_ HX]. apply Forall2_length in HX.
    apply add_constant_length in Hadd.
    apply column_to_numpy_Ok in Hy1c as [_ Hy1c].
    apply column_to_numpy_Ok in Hy2c as [_ Hy2c].
    apply (f_equal length) in Hy1c, Hy2c. rewrite !length_map in Hy1c, Hy2c.
    assert (Hsame : length (rows (loc (mkDataFrame (columns data2) l2) mask)) =
                    length (rows (loc (mkDataFrame (columns data1) l1) mask))).
    { cbn [loc rows]. symmetry.
      apply (filter_labels_length l1 l2
               (fun i => default false (lookup_label mask i)) Hn1 Hn2).
      intros i Hi. rewrite Hmask in Hi. apply mask_true_labels in Hi. exact Hi. }
    assert (Hne : rows (loc (mkDataFrame (columns data1) l1) mask) <> []).
    { cbn [loc rows]. apply filter_nonempty_iff.
      rewrite Hmask in Hany. apply (any_mask_rows l1 _ _ Hn1) in Hany
        as (r & Hr' & Hm). exists r. rewrite Hmask. auto. }
    destruct logy; cbn [fmap option_fmap option_map] in Hr;
      destruct Hr as (p1 & p2 & Hp1 & Hp2 & ->);
      apply predict_length in Hp1, Hp2;
      cbn [log10_common X12 y1_common y2_common common_data] in *;
      do 3 eexists;
      (split; [reflexivity|]; split; [reflexivity|]; split; [exact Hne|]);
      cbn [common_data];
      unfold NP.vsub; rewrite !length_zip_with, ?length_map; lia.
  - left. subst common. destruct logy; cbn in Hr; subst resid; auto.
Qed.

(** X11.  What the common subset is for datasets with distinct row
    labels, whatever tables they come from.  With [l1] and [l2] the rows
    that pass the missing-value filter, a row is in [data12] exactly
    when it is a row of [l1] whose System occurs in [l2] and whose label
    is the label of a row of [l2] whose System occurs in [l1]: the two
    conditions are joined at the row label.  [data12] keeps the order of
    the first dataset, and no common subset is found exactly when no row
    qualifies. *)
Theorem regression_slope_t_test_common_rows
    (data1 data2 : DataFrame) (features : list string) (target : string)
    (logy adj_corr : bool) (res : SlopeTest) :
  NoDup (map label (rows data1)) -> NoDup (map label (rows data2)) ->
  regression_slope_t_test sm_OLS t_cdf data1 data2 features target logy adj_corr
    = Ok res ->
  let l1 := List.filter (complete_row (features ++ [target])) (rows data1) in
  let l2 := List.filter (complete_row (features ++ [target])) (rows data2) in
  let system := fun r : row => cell_at r "System" in
  let selected := fun r : row =>
    r ∈ l1 /\ system r ∈ map system l2 /\
    exists r2, r2 ∈ l2 /\ label r2 = label r /\ system r2 ∈ map system l1 in
  (forall d12, data12 res = Some d12 ->
     columns d12 = columns data1 /\
     rows d12 `sublist_of` rows data1 /\
     forall r, r ∈ rows d12 <-> selected r) /\
  (data12 res = None <-> forall r, ~ selected r).
Proof.
  intros Hnd1 Hnd2 Hres l1 l2 system selected.
  apply regression_slope_t_test_Ok in Hres
    as (d1 & X1 & y1 & d2 & X2 & y2 & mask & common & m1 & m2 & s1 & e1 & s2 & e2
        & resid & H1 & H2 & Hmask & Hc & _ & _ & _ & _ & _ & _ & _ & ->).
  apply design_Ok in H1 as (Hd1 & _ & _). apply design_Ok in H2 as (Hd2 & _ & _).
  pose proof (dropna_loc _ _ _ mask Hd1) as Hloc1.
  apply dropna_Ok in Hd1 as [_ ->]. apply dropna_Ok in Hd2 as [_ ->].
  apply common_systems_inv in Hmask. cbn [rows] in Hmask.
  subst l1 l2.
  set (l1 := List.filter (complete_row (features ++ [target])) (rows data1)) in *.
  set (l2 := List.filter (complete_row (features ++ [target])) (rows data2)) in *.
  assert (Hn1 : NoDup (map label l1)) by apply NoDup_map_filter, Hnd1.
  assert (Hn2 : NoDup (map label l2)) by apply NoDup_map_filter, Hnd2.
  assert (Hsel : forall r, r ∈ l1 ->
            (default false (lookup_label mask (label r)) = true <-> selected r)).
  { intros r Hr. rewrite Hmask, lookup_series_and, andb_true_iff, !lookup_isin.
    rewrite (lookup_system_column l1 r Hn1 Hr). cbn [fmap option_fmap option_map default].
    unfold values. rewrite !map_map. cbn [snd]. fold system.
    unfold Datatypes.id. rewrite bool_decide_eq_true. unfold selected. split.
    - intros [Ha Hb]. split; [exact Hr|]. split; [exact Ha|].
      destruct (lookup_label _ (label r)) as [c|] eqn:E; [|discriminate].
      cbn in Hb. apply bool_decide_eq_true_1 in Hb.
      apply lookup_label_Some, list_elem_of_In, in_map_iff in E
        as (r2 & [= Hlab <-] & Hr2).
      exists r2. split; [apply list_elem_of_In, Hr2|]. split; [exact Hlab|exact Hb].
    - intros (_ & Ha & r2 & Hr2 & Hlab & Hb). split; [exact Ha|].
      rewrite <- Hlab, (lookup_system_column l2 r2 Hn2 Hr2). cbn.
      apply bool_decide_eq_true_2, Hb. }
  apply common_part_Ok in Hc. destruct (any mask) eqn:Hany.
  - destruct Hc as (d12 & X0 & X & y1c & y2c & Hd12 & _ & _ & _ & _ & ->).
    rewrite Hloc1 in Hd12. injection Hd12 as <-.
    assert (Hrows : forall r,
              r ∈ rows (loc (mkDataFrame (columns data1) l1) mask) <-> selected r).
    { intros r. cbn [loc rows]. rewrite list_elem_of_In, filter_In, <- list_elem_of_In.
      split.
      - intros [Hr Hm]. apply (Hsel r Hr), Hm.
      - intros Hs. pose proof Hs as (Hr & _). split; [exact Hr|]. apply (Hsel r Hr), Hs. }
    split.
    + intros d12 Hd. assert (d12 = loc (mkDataFrame (columns data1) l1) mask) as ->
        by (destruct logy; cbn in Hd; congruence).
      split; [reflexivity|]. split; [|exact Hrows].
      cbn [loc rows]. etransitivity; [apply filter_sublist|apply filter_sublist].
    + split; [destruct logy; discriminate|]. intros Hno. exfalso.
      rewrite Hmask in Hany. apply (any_mask_rows l1 _ _ Hn1) in Hany
        as (r & Hr & Hm). rewrite <- Hmask in Hm. apply (Hno r), (Hsel r Hr), Hm.
  - subst common. split; [destruct logy; discriminate|].
    split; [|destruct logy; reflexivity]. intros _ r Hs.
    pose proof Hs as (Hr & _). apply (Hsel r Hr) in Hs.
    assert (any mask = true); [|congruence].
    rewrite Hmask. apply (any_mask_rows l1 _ _ Hn1). exists r.
    rewrite <- Hmask. auto.
Qed.


(** X13.  Missing columns are reported dataset by dataset.  A feature or
    the target that is not a column of the first dataset raises a
    [KeyError] listing the names missing there, whatever the second
    dataset is; when the first dataset passes, the same holds for the
    second one. *)
Theorem regression_slope_t_test_missing_column
    (data1 data2 : DataFrame) (features : list string) (target : string)
    (logy adj_corr : bool) :
  let cols := (features ++ [target])%list in
  (missing_columns data1 cols <> [] ->
   regression_slope_t_test sm_OLS t_cdf data1 data2 features target logy adj_corr
     = Raise (KeyError (missing_columns data1 cols))) /\
  (forall d1 X1 y1,
     design data1 features target = Ok (d1, X1, y1) ->
     missing_columns data2 cols <> [] ->
     regression_slope_t_test sm_OLS t_cdf data1 data2 features target logy adj_corr
       = Raise (KeyError (missing_columns data2 cols))).
Proof.
  intros cols. split.
  - intros Hm. unfold regression_slope_t_test, design, dropna. fold cols.
    destruct (missing_columns data1 cols); [contradiction|reflexivity].
  - intros d1 X1 y1 H1 Hm. unfold regression_slope_t_test. rewrite H1; cbn.
    unfold design, dropna. fold cols.
    destruct (missing_columns data2 cols); [contradiction|reflexivity].
Qed.

End SlopeComparisonFurther.

(** ** The prediction table *)

(** The value of a column Series at a label is the cell of the first row
    carrying the label. *)
Lemma lookup_label_column {A : Type} (h : row -> A) (l : list row) (i : Z) :
  lookup_label (map (fun r => (label r, h r)) l) i =
    h <$> List.find (fun r => bool_decide (label r = i)) l.
Proof.
  unfold lookup_label. induction l as [|r l IH]; simpl; [reflexivity|].
  destruct (bool_decide (label r = i)); [reflexivity|exact IH].
Qed.

Lemma fold_insert_lookup (v : string -> cell) (fs : list string)
    (m : gmap string cell) (c : string) :
  fold_left (fun m f => <[f := v f]> m) fs m !! c =
    if bool_decide (c ∈ fs) then Some (v c) else m !! c.
Proof.
  revert m. induction fs as [|f fs IH]; intros m; cbn [fold_left].
  - rewrite bool_decide_eq_false_2 by apply not_elem_of_nil. reflexivity.
  - rewrite IH. destruct (bool_decide_reflect (c ∈ fs)) as [Hc|Hc].
    + rewrite bool_decide_eq_true_2 by (right; exact Hc). reflexivity.
    + destruct (decide (c = f)) as [->|Hne].
      * rewrite bool_decide_eq_true_2 by left. apply lookup_insert_eq.
      * rewrite bool_decide_eq_false_2
          by (rewrite elem_of_cons; intros [?|?]; contradiction).
        apply lookup_insert_ne. congruence.
Qed.

Lemma assign_aligned_fold_rows (g : string -> Series cell) (fs : list string)
    (d : DataFrame) :
  rows (fold_left (fun d f => assign_aligned d f (g f)) fs d) =
    map (fun r : row =>
           (r.1, fold_left
                   (fun m f => <[f := default (Num NaN) (lookup_label (g f) (label r))]> m)
                   fs r.2))
      (rows d).
Proof.
  revert d. induction fs as [|f fs IH]; intros d; simpl.
  - symmetry. erewrite map_ext; [apply map_id|]. intros [i m]. reflexivity.
  - rewrite IH. unfold assign_aligned. cbn [rows]. rewrite map_map. reflexivity.
Qed.


Lemma zip_map_r {A B : Type} (g : A -> B) (l : list A) :
  zip l (map g l) = map (fun a => (a, g a)) l.
Proof. induction l as [|a l IH]; simpl; [reflexivity|]. rewrite IH. reflexivity. Qed.

Lemma fold_left_map_l {A B C : Type} (f : A -> C -> A) (h : B -> C) (l : list B) (a : A) :
  fold_left f (map h l) a = fold_left (fun a b => f a (h b)) l a.
Proof. revert a. induction l as [|b l IH]; intros a; simpl; [reflexivity|apply IH]. Qed.

Lemma columns_sequence (data : DataFrame) (features : list string) :
  (forall f, f ∈ features -> f ∈ columns data) ->
  sequence (map (column data) features) =
    Ok (map (fun f => map (fun r => (label r, cell_at r f)) (rows data)) features).
Proof.
  induction features as [|f fs IH]; intros H; cbn [map sequence]; [reflexivity|].
  rewrite IH by (intros f' Hf'; apply H; right; exact Hf').
  unfold column, has_column.
  rewrite bool_decide_eq_true_2 by (apply H; left). reflexivity.
Qed.

Section PredictionTableProperties.

Variable prediction_bounds : RegressionResults -> vector -> Bounds.

(** The table the helper returns: the summary of the predictions on the
    design of the data, then one assignment per feature. *)
Lemma get_prediction_df_Ok (model : RegressionResults) (data : DataFrame)
    (features : list string) (df : DataFrame) :
  get_prediction_df prediction_bounds model data features = Ok df <->
  exists X0 X,
    to_numpy data features = Ok X0 /\
    add_constant X0 = Ok X /\
    params_index model = [] /\
    Forall (fun x => length x = length (params model)) X /\
    df = fold_left
           (fun d f => assign_aligned d f
                         (map (fun r => (label r, cell_at r f)) (rows data)))
           features
           (mkDataFrame summary_columns
              (imap (summary_row prediction_bounds model) X)).
Proof.
  unfold get_prediction_df, summary_frame. split.
  - intros H. apply bind_Ok in H as (X0 & HX & H).
    apply bind_Ok in H as (X & Hadd & H).
    apply bind_Ok in H as (pred & Hpred & H).
    apply bind_Ok in H as (cols & Hcols & [= <-]).
    pose proof (proj1 (to_numpy_Ok _ _ _) HX) as [Hc _].
    rewrite (columns_sequence _ _ Hc) in Hcols. injection Hcols as <-.
    case_bool_decide as Hidx; [discriminate|].
    destruct (forallb _ _) eqn:Hall; [|discriminate]. injection Hpred as <-.
    exists X0, X. split; [exact HX|]. split; [exact Hadd|]. split.
    { destruct (decide (params_index model = [])) as [E|E]; [exact E|contradiction]. }
    split.
    + rewrite forallb_forall in Hall. apply Forall_forall. intros x Hx.
      apply list_elem_of_In, Hall in Hx. apply bool_decide_eq_true_1 in Hx. exact Hx.
    + rewrite zip_map_r, fold_left_map_l. reflexivity.
  - intros (X0 & X & HX & Hadd & Hidx & Hall & ->). rewrite HX; cbn.
    rewrite Hadd; cbn.
    rewrite bool_decide_eq_false_2 by (rewrite Hidx; auto).
    assert (forallb (fun x => bool_decide (length x = length (params model))) X = true)
      as ->.
    { apply forallb_forall. intros x Hx. apply bool_decide_eq_true_2.
      rewrite Forall_forall in Hall. apply Hall, list_elem_of_In, Hx. }
    cbn. pose proof (proj1 (to_numpy_Ok _ _ _) HX) as [Hc _].
    rewrite (columns_sequence _ _ Hc). cbn.
    rewrite zip_map_r, fold_left_map_l. reflexivity.
Qed.

(** A row of the design of an array: the row itself when the array has
    a column that is a non-zero constant, and the row after the constant
    1 otherwise. *)
Lemma add_constant_row (X0 X : matrix) (i : nat) (xi : vector) :
  add_constant X0 = Ok X -> X !! i = Some xi ->
  exists x, X0 !! i = Some x /\ xi = if has_constant X0 then x else Fin 1 :: x.
Proof.
  intros Hadd Hxi. apply add_constant_Ok in Hadd as [_ ->].
  destruct (has_constant X0); [eauto|].
  rewrite lookup_map_list in Hxi.
  destruct (X0 !! i) as [x|]; [|discriminate]. injection Hxi as <-. eauto.
Qed.

(** A row of the returned table. *)
Lemma get_prediction_df_row (model : RegressionResults) (data : DataFrame)
    (features : list string) (df : DataFrame) (i : nat) (r : row) :
  get_prediction_df prediction_bounds model data features = Ok df ->
  rows df !! i = Some r ->
  exists (X0 : matrix) (r0 : row) (x : vector),
    to_numpy data features = Ok X0 /\
    rows data !! i = Some r0 /\
    map (cell_at r0) features = map Num x /\
    length (if has_constant X0 then x else Fin 1 :: x) = length (params model) /\
    label r = Z.of_nat i /\
    (forall f, f ∈ features ->
       cell_at r f =
         match List.find (fun r1 => bool_decide (label r1 = Z.of_nat i)) (rows data) with
         | Some r1 => cell_at r1 f
         | None => Num NaN
         end) /\
    (forall c, c ∉ features ->
       cell_at r c =
         cell_at (summary_row prediction_bounds model i
                    (if has_constant X0 then x else Fin 1 :: x)) c).
Proof.
  intros Hdf Hr.
  apply get_prediction_df_Ok in Hdf as (X0 & X & HX & Hadd & _ & Hall & ->).
  rewrite assign_aligned_fold_rows in Hr. cbn [rows] in Hr.
  rewrite lookup_map_list, list_lookup_imap in Hr.
  destruct (X !! i) as [xi|] eqn:Hxi; [|discriminate]. cbn in Hr. injection Hr as <-.
  destruct (add_constant_row X0 X i xi Hadd Hxi) as (x & Hx & Hrow0).
  rewrite Forall_forall in Hall.
  pose proof (Hall xi (list_elem_of_lookup_2 _ _ _ Hxi)) as Hlen.
  subst xi.
  pose proof HX as HX'.
  apply to_numpy_Ok in HX' as [_ HX'].
  destruct (Forall2_lookup_r _ _ _ _ _ HX' Hx) as (r0 & Hr0 & Hrow).
  exists X0, r0, x. split; [exact HX|]. split; [exact Hr0|]. split; [exact Hrow|].
  split; [exact Hlen|]. split; [reflexivity|].
  split.
  - intros f Hf. unfold cell_at at 1. cbn [snd fst label].
    rewrite (fold_insert_lookup
               (fun f => default (Num NaN)
                           (lookup_label (map (fun r => (label r, cell_at r f)) (rows data))
                              (Z.of_nat i)))).
    rewrite bool_decide_eq_true_2 by exact Hf. cbn [default].
    rewrite lookup_label_column. destruct (List.find _ _); reflexivity.
  - intros c Hc. unfold cell_at. cbn [snd fst label].
    rewrite (fold_insert_lookup
               (fun f => default (Num NaN)
                           (lookup_label (map (fun r => (label r, cell_at r f)) (rows data))
                              (Z.of_nat i)))).
    rewrite bool_decide_eq_false_2 by exact Hc. reflexivity.
Qed.

Lemma get_prediction_df_length (model : RegressionResults) (data : DataFrame)
    (features : list string) (df : DataFrame) :
  get_prediction_df prediction_bounds model data features = Ok df ->
  length (rows df) = length (rows data).
Proof.
  intros Hdf. apply get_prediction_df_Ok in Hdf as (X0 & X & HX & Hadd & _ & _ & ->).
  rewrite assign_aligned_fold_rows. cbn [rows].
  rewrite length_map, length_imap. rewrite (add_constant_length _ _ Hadd).
  apply to_numpy_Ok in HX as [_ HX]. symmetry. apply (Forall2_length _ _ _ HX).
Qed.
(** X14.  The table of [get_prediction_df] has one row per row of the
    data, numbered from 0 whatever the labels of the data are, and the
    feature columns written into it are joined on these numbers: the
    feature cell of row [i] is the cell of the row of the data labelled
    [i], and NaN when the data has no such label. *)
Theorem get_prediction_df_joins_features_by_label
    (model : RegressionResults) (data : DataFrame) (features : list string)
    (df : DataFrame) :
  get_prediction_df prediction_bounds model data features = Ok df ->
  length (rows df) = length (rows data) /\
  forall (i : nat) (r : row),
    rows df !! i = Some r ->
    label r = Z.of_nat i /\
    forall f, f ∈ features ->
      cell_at r f =
        match List.find (fun r1 => bool_decide (label r1 = Z.of_nat i)) (rows data) with
        | Some r1 => cell_at r1 f
        | None => Num NaN
        end.
Proof.
  intros Hdf. split.
  - apply (get_prediction_df_length _ _ _ _ Hdf).
  - intros i r Hr.
    destruct (get_prediction_df_row model data features df i r Hdf Hr)
      as (X0 & r0 & x & _ & _ & _ & _ & Hlab & Hfeat & _).
    split; [exact Hlab|exact Hfeat].
Qed.

Lemma find_at_position (l : list row) (k i : nat) (r0 : row) :
  (forall j r, l !! j = Some r -> label r = Z.of_nat (k + j)) ->
  l !! i = Some r0 ->
  List.find (fun r => bool_decide (label r = Z.of_nat (k + i))) l = Some r0.
Proof.
  revert k i. induction l as [|r l IH]; intros k i Hl Hi; [discriminate|].
  cbn [List.find]. destruct i as [|i].
  - injection Hi as ->. rewrite bool_decide_eq_true_2; [reflexivity|].
    apply (Hl 0%nat). reflexivity.
  - rewrite bool_decide_eq_false_2
      by (rewrite (Hl 0%nat r eq_refl); lia).
    replace (k + S i)%nat with (S k + i)%nat by lia.
    apply IH; [|exact Hi]. intros j r' Hj.
    replace (S k + j)%nat with (k + S j)%nat by lia. apply Hl. exact Hj.
Qed.

(** X15.  When the rows of the data are labelled 0, 1, 2, ... in order
    (the default index), every row of the table carries the feature
    values of the row of the data it was predicted from. *)
Theorem get_prediction_df_default_index
    (model : RegressionResults) (data : DataFrame) (features : list string)
    (df : DataFrame) :
  (forall j r0, rows data !! j = Some r0 -> label r0 = Z.of_nat j) ->
  get_prediction_df prediction_bounds model data features = Ok df ->
  forall (i : nat) (r r0 : row) (f : string),
    rows df !! i = Some r -> rows data !! i = Some r0 -> f ∈ features ->
    cell_at r f = cell_at r0 f.
Proof.
  intros Hlab Hdf i r r0 f Hr Hr0 Hf.
  destruct (get_prediction_df_row model data features df i r Hdf Hr)
    as (X0 & r0' & x & _ & _ & _ & _ & _ & Hfeat & _).
  rewrite (Hfeat f Hf).
  pose proof (find_at_position (rows data) 0 i r0 Hlab Hr0) as Hfind.
  cbn [Nat.add] in Hfind. rewrite Hfind. reflexivity.
Qed.

(** X16.  The predictions are by position, the features by label.  For
    a table whose features do not reuse the name "mean", the "mean" cell
    of row [i] is the prediction on the [i]-th row of the design of the
    data: the product with the coefficients of its feature values after
    the constant 1 or, when [add_constant] has found a non-zero constant
    column among the features and added none, of its feature values
    alone.  For a model with one coefficient more than there are
    features it is the former.  When no row of the data is labelled [i],
    as in a slice of a larger table, the feature cells beside it are all
    NaN. *)
Theorem get_prediction_df_mean_by_position
    (model : RegressionResults) (data : DataFrame) (features : list string)
    (df : DataFrame) (i : nat) (r : row) :
  "mean" ∉ features ->
  get_prediction_df prediction_bounds model data features = Ok df ->
  rows df !! i = Some r ->
  exists (X0 : matrix) (r0 : row) (x : vector),
    to_numpy data features = Ok X0 /\
    rows data !! i = Some r0 /\
    map (cell_at r0) features = map Num x /\
    cell_at r "mean" =
      Num (NP.dot (if has_constant X0 then x else Fin 1 :: x) (params model)) /\
    (length (params model) = S (length features) ->
     cell_at r "mean" = Num (NP.dot (Fin 1 :: x) (params model))) /\
    (Z.of_nat i ∉ map label (rows data) ->
     forall f, f ∈ features -> cell_at r f = Num NaN).
Proof.
  intros Hmean Hdf Hr.
  destruct (get_prediction_df_row model data features df i r Hdf Hr)
    as (X0 & r0 & x & HX & Hr0 & Hrow & Hlen & _ & Hfeat & Hother).
  exists X0, r0, x. split; [exact HX|]. split; [exact Hr0|]. split; [exact Hrow|].
  assert (Hcell : cell_at r "mean" =
            Num (NP.dot (if has_constant X0 then x else Fin 1 :: x) (params model))).
  { rewrite (Hother "mean" Hmean). reflexivity. }
  split; [exact Hcell|]. split.
  - intros Hk. rewrite Hcell.
    apply (f_equal length) in Hrow. rewrite !length_map in Hrow.
    destruct (has_constant X0); [|reflexivity].
    rewrite Hk, Hrow in Hlen. lia.
  - intros Hno f Hf. rewrite (Hfeat f Hf).
    destruct (List.find _ (rows data)) as [r1|] eqn:E; [|reflexivity].
    apply find_some in E as [Hin Hl]. apply bool_decide_eq_true_1 in Hl.
    destruct Hno. rewrite <- Hl. apply list_elem_of_In, in_map, Hin.
Qed.


End PredictionTableProperties.

(** ** The log flag and the logarithm taken beforehand *)

Lemma cell_at_log10_row_ne (target c : string) (r : row) :
  c <> target -> cell_at (log10_row target r) c = cell_at r c.
Proof.
  intros H. unfold cell_at, log10_row. cbn [snd].
  rewrite lookup_insert_ne by congruence. reflexivity.
Qed.

Lemma cell_at_log10_row (target : string) (r : row) :
  cell_at (log10_row target r) target =
    match cell_at r target with
    | Num v => Num (NP.log10 v)
    | Str s => Str s
    end.
Proof.
  unfold cell_at at 1, log10_row. cbn [snd]. rewrite lookup_insert_eq. reflexivity.
Qed.

Lemma isna_log10_row (target c : string) (r : row) :
  loggable target r ->
  isna (cell_at (log10_row target r) c) = isna (cell_at r c).
Proof.
  intros Hr. destruct (decide (c = target)) as [->|Hne].
  - rewrite cell_at_log10_row. destruct Hr as [->|(x & -> & Hx)]; [reflexivity|].
    cbn. destruct (Rlt_dec 0 x); [reflexivity|].
    destruct (Rlt_dec x 0); [lra|reflexivity].
  - rewrite cell_at_log10_row_ne by exact Hne. reflexivity.
Qed.

Lemma complete_row_log10_row (target : string) (cols : list string) (r : row) :
  loggable target r ->
  complete_row cols (log10_row target r) = complete_row cols r.
Proof.
  intros Hr. unfold complete_row.
  induction cols as [|c cols IH]; cbn [forallb]; [reflexivity|].
  rewrite IH, (isna_log10_row _ _ _ Hr). reflexivity.
Qed.

Lemma filter_complete_log10 (target : string) (cols : list string) (l : list row) :
  Forall (loggable target) l ->
  List.filter (complete_row cols) (map (log10_row target) l) =
    map (log10_row target) (List.filter (complete_row cols) l).
Proof.
  induction 1 as [|r l Hr _ IH]; cbn [map List.filter]; [reflexivity|].
  rewrite (complete_row_log10_row _ _ _ Hr), IH.
  destruct (complete_row cols r); reflexivity.
Qed.

Lemma dropna_log10_target (d d' : DataFrame) (target : string) (cols : list string) :
  Forall (loggable target) (rows d) ->
  dropna d cols = Ok d' ->
  dropna (log10_target d target) cols = Ok (log10_target d' target).
Proof.
  intros Hl H. apply dropna_Ok in H as [Hc ->]. apply dropna_Ok.
  split; [exact Hc|]. unfold log10_target. cbn [columns rows].
  rewrite (filter_complete_log10 _ _ _ Hl). reflexivity.
Qed.

Lemma to_numpy_log10_target (d : DataFrame) (target : string) (features : list string) :
  target ∉ features ->
  to_numpy (log10_target d target) features = to_numpy d features.
Proof.
  intros Ht. unfold to_numpy, missing_columns, has_column, log10_target.
  cbn [columns rows]. rewrite map_map.
  destruct (List.filter _ features); [|reflexivity]. f_equal.
  apply map_ext. intros r. f_equal. apply map_ext_in. intros c Hc.
  rewrite cell_at_log10_row_ne; [reflexivity|].
  intros ->. apply Ht, list_elem_of_In, Hc.
Qed.

Lemma column_to_numpy_log10_target (d : DataFrame) (target : string) (y : vector) :
  column_to_numpy d target = Ok y ->
  column_to_numpy (log10_target d target) target = Ok (map NP.log10 y).
Proof.
  intros H. apply column_to_numpy_Ok in H as [Hc H]. apply column_to_numpy_Ok.
  split; [exact Hc|]. unfold log10_target. cbn [rows]. rewrite !map_map.
  revert y H. induction (rows d) as [|r l IH]; intros [|v y] H; try discriminate;
    [reflexivity|].
  cbn in H. injection H as Hr Hl. cbn [map]. rewrite (IH y Hl).
  rewrite cell_at_log10_row, Hr. reflexivity.
Qed.

Lemma loc_log10_target (d : DataFrame) (target : string) (mask : Series bool) :
  loc (log10_target d target) mask = log10_target (loc d mask) target.
Proof.
  unfold loc, log10_target. cbn [columns rows]. f_equal.
  induction (rows d) as [|r l IH]; cbn [map List.filter]; [reflexivity|].
  rewrite IH. change (label (log10_row target r)) with (label r).
  destruct (default false (lookup_label mask (label r))); reflexivity.
Qed.

Lemma common_systems_log10_target (d1 d2 : DataFrame) (target : string) :
  target <> "System" ->
  common_systems (log10_target d1 target) (log10_target d2 target) =
  common_systems d1 d2.
Proof.
  intros Ht.
  assert (Hcol : forall d, column (log10_target d target) "System" = column d "System").
  { intros d. unfold column, has_column, log10_target. cbn [columns rows].
    rewrite map_map. destruct (bool_decide _); [|reflexivity]. f_equal.
    apply map_ext. intros r. rewrite cell_at_log10_row_ne by congruence. reflexivity. }
  unfold common_systems. rewrite !Hcol. reflexivity.
Qed.

Lemma design_log10_target (d d' : DataFrame) (features : list string)
    (target : string) (X : matrix) (y : vector) :
  target ∉ features ->
  Forall (loggable target) (rows d) ->
  design d features target = Ok (d', X, y) ->
  design (log10_target d target) features target =
    Ok (log10_target d' target, X, map NP.log10 y).
Proof.
  intros Ht Hl H. apply design_Ok in H as (Hd & (X0 & HX & Hadd) & Hy).
  apply design_Ok. split; [apply dropna_log10_target; assumption|].
  split; [exists X0; split; [|exact Hadd]|].
  - rewrite to_numpy_log10_target by exact Ht. exact HX.
  - apply column_to_numpy_log10_target, Hy.
Qed.

Lemma Forall_loggable_dropna (d d' : DataFrame) (target : string) (cols : list string) :
  Forall (loggable target) (rows d) -> dropna d cols = Ok d' ->
  Forall (loggable target) (rows d').
Proof.
  intros Hl H. apply dropna_Ok in H as [_ ->]. cbn [rows].
  rewrite Forall_forall in Hl. apply Forall_forall. intros r Hr.
  apply Hl. apply list_elem_of_In, filter_In in Hr as [Hr _]. apply list_elem_of_In, Hr.
Qed.

(** X18.  For a dataset whose target is a number [>= 0] wherever it is
    not missing, fitting with the log flag is fitting, without the
    flag, the dataset whose target column holds the logarithms: the
    solver is given the same frame and the call has the same result. *)
Theorem fit_ols_regression_log_flag
    (smf_ols : string -> list string -> DataFrame -> result RegressionResults)
    (h : heap) (data : positive) (d : DataFrame) (features : list string)
    (target : string) :
  h !! data = Some d ->
  (forall r, r ∈ rows d -> loggable target r) ->
  (fit_ols_regression smf_ols data features target true h).1 =
  (fit_ols_regression smf_ols data features target false
     (<[data := log10_target d target]> h)).1.
Proof.
  intros Hh Hl. apply Forall_forall in Hl.
  unfold fit_ols_regression, mbind, M_bind, read, lift, alloc, write, mret, M_ret.
  rewrite Hh, lookup_insert_eq.
  destruct (dropna d (features ++ [target])) as [d'|e] eqn:Hd.
  - rewrite (dropna_log10_target _ _ _ _ Hl Hd). cbv beta iota.
    rewrite !lookup_insert_eq. cbv beta iota.
    pose proof (Forall_loggable_dropna _ _ _ _ Hl Hd) as Hl'.
    assert (Hc : target ∈ columns d').
    { rewrite (dropna_columns _ _ _ Hd). apply dropna_Ok in Hd as [Hc _].
      apply Hc, elem_of_app. right. left. }
    destruct (numeric_cells (fun r => cell_at r target) (rows d')) as [y Hy].
    { intros r Hr. rewrite Forall_forall in Hl'.
      destruct (Hl' r Hr) as [->|(x & -> & _)]; eauto. }
    unfold column, has_column. rewrite (bool_decide_eq_true_2 _ Hc).
    rewrite (series_log10_column _ _ _ Hy). cbv beta iota.
    rewrite lookup_insert_eq. cbn [fst]. f_equal.
    unfold assign_column, log10_target, has_column.
    rewrite (bool_decide_eq_true_2 _ Hc). f_equal.
    clear -Hy. revert y Hy.
    induction (rows d') as [|r l IH]; intros [|v y] Hy; try discriminate;
      [reflexivity|].
    cbn in Hy. injection Hy as Hr Hy. cbn [zip_with map]. rewrite (IH y Hy).
    unfold log10_row. rewrite Hr. reflexivity.
  - unfold dropna in *. unfold log10_target at 1. cbn [columns].
    unfold missing_columns, has_column in *. cbn [columns].
    destruct (List.filter _ (features ++ [target])); [discriminate|].
    injection Hd as <-. reflexivity.
Qed.

Section LogFlag.

Variable sm_OLS : vector -> matrix -> result RegressionResults.
Variable t_cdf : npfloat -> Z -> npfloat.

(** X19.  The same for the slope comparison.  For datasets whose target
    is a number [>= 0] wherever it is not missing, and is neither a
    feature nor the column of Systems, the test with the log flag gives
    the fits, residuals, correlation, statistic, degrees of freedom and
    p-value of the test without the flag on the datasets whose target
    column holds the logarithms. *)
Theorem regression_slope_t_test_log_flag
    (data1 data2 : DataFrame) (features : list string) (target : string)
    (adj_corr : bool) (res : SlopeTest) :
  target ∉ features -> target <> "System" ->
  (forall r, r ∈ rows data1 -> loggable target r) ->
  (forall r, r ∈ rows data2 -> loggable target r) ->
  regression_slope_t_test sm_OLS t_cdf data1 data2 features target true adj_corr
    = Ok res ->
  exists res',
    regression_slope_t_test sm_OLS t_cdf
      (log10_target data1 target) (log10_target data2 target)
      features target false adj_corr = Ok res' /\
    model1 res' = model1 res /\ model2 res' = model2 res /\
    residuals res' = residuals res /\ rho res' = rho res /\
    t_stat res' = t_stat res /\ df res' = df res /\ p_value res' = p_value res /\
    data12 res' = (fun d => log10_target d target) <$> data12 res.
Proof.
  intros Ht Hsys Hl1 Hl2 Hres. apply Forall_forall in Hl1, Hl2.
  apply regression_slope_t_test_Ok in Hres
    as (d1 & X1 & y1 & d2 & X2 & y2 & mask & common & m1 & m2 & s1 & e1 & s2 & e2
        & resid & H1 & H2 & Hmask & Hc & Hm1 & Hm2 & Hs1 & He1 & Hs2 & He2 & Hres' & ->).
  pose proof (design_log10_target _ _ _ _ _ _ Ht Hl1 H1) as H1'.
  pose proof (design_log10_target _ _ _ _ _ _ Ht Hl2 H2) as H2'.
  apply design_Ok in H1 as (Hd1 & _ & _). apply design_Ok in H2 as (Hd2 & _ & _).
  pose proof (Forall_loggable_dropna _ _ _ _ Hl1 Hd1) as Hl1'.
  set (common' :=
         (fun c => mkCommon (log10_target (common_data c) target) (X12 c)
                     (map NP.log10 (y1_common c)) (map NP.log10 (y2_common c)))
           <$> common).
  assert (Hc' : common_part (log10_target d1 target) (log10_target d2 target) mask
                  features target = Ok common').
  { apply common_part_Ok. apply common_part_Ok in Hc.
    destruct (any mask); [|subst common; reflexivity].
    destruct Hc as (d12 & X0 & X & y1c & y2c & Hd12 & HX & Hadd & Hy1c & Hy2c & ->).
    exists (log10_target d12 target), X0, X, (map NP.log10 y1c), (map NP.log10 y2c).
    rewrite !loc_log10_target. split.
    { apply dropna_log10_target; [|exact Hd12].
      cbn [loc rows]. rewrite Forall_forall in Hl1'. apply Forall_forall.
      intros r Hr. apply Hl1'.
      apply list_elem_of_In, filter_In in Hr as [Hr _]. apply list_elem_of_In, Hr. }
    split; [rewrite to_numpy_log10_target by exact Ht; exact HX|].
    split; [exact Hadd|].
    split; [apply column_to_numpy_log10_target, Hy1c|].
    split; [apply column_to_numpy_log10_target, Hy2c|reflexivity]. }
  eexists. split.
  - apply regression_slope_t_test_Ok.
    exists (log10_target d1 target), X1, (map NP.log10 y1),
           (log10_target d2 target), X2, (map NP.log10 y2), mask, common',
           m1, m2, s1, e1, s2, e2, resid.
    split; [exact H1'|]. split; [exact H2'|].
    split; [rewrite common_systems_log10_target by exact Hsys; exact Hmask|].
    split; [exact Hc'|].
    do 6 (split; [assumption|]).
    split; [|reflexivity].
    subst common'. destruct common as [c|]; exact Hres'.
  - subst common'. destruct common as [c|]; cbn; repeat split; reflexivity.
Qed.

End LogFlag.

(** ** What the results depend on *)


Section FitsOfTheSlopeComparison.

Variable sm_OLS : vector -> matrix -> result RegressionResults.
Variable t_cdf : npfloat -> Z -> npfloat.

(** X21.  Each of the two fits of [regression_slope_t_test] is the fit
    of its own dataset: the model, slope and standard error reported
    for a dataset are the same whatever dataset it is compared with,
    whether it comes first or second, and whatever the adjustment flag
    is. *)
Theorem regression_slope_t_test_fit_of_own_dataset
    (data other other' : DataFrame) (features : list string) (target : string)
    (logy adj_corr adj_corr' : bool) (res : SlopeTest) :
  regression_slope_t_test sm_OLS t_cdf data other features target logy adj_corr
    = Ok res ->
  (forall res',
     regression_slope_t_test sm_OLS t_cdf data other' features target logy adj_corr'
       = Ok res' ->
     model1 res' = model1 res /\ b1 res' = b1 res /\ SE1 res' = SE1 res) /\
  (forall res',
     regression_slope_t_test sm_OLS t_cdf other' data features target logy adj_corr'
       = Ok res' ->
     model2 res' = model1 res /\ b2 res' = b1 res /\ SE2 res' = SE1 res).
Proof.
  intros Hres.
  apply regression_slope_t_test_Ok in Hres
    as (d1 & X1 & y1 & d2 & X2 & y2 & mask & common & m1 & m2 & s1 & e1 & s2 & e2
        & resid & H1 & _ & _ & _ & Hm1 & _ & Hs1 & He1 & _ & _ & _ & ->).
  split; intros res' Hres';
    apply regression_slope_t_test_Ok in Hres'
      as (d1' & X1' & y1' & d2' & X2' & y2' & mask' & common' & m1' & m2'
          & s1' & e1' & s2' & e2' & resid'
          & H1' & H2' & _ & _ & Hm1' & Hm2' & Hs1' & He1' & Hs2' & He2' & _ & ->);
    cbn [model1 model2 b1 b2 SE1 SE2 compare_slopes].
  - rewrite H1 in H1'. injection H1' as <- <- <-.
    rewrite Hm1 in Hm1'. injection Hm1' as <-.
    rewrite Hs1 in Hs1'. rewrite He1 in He1'.
    injection Hs1' as <-. injection He1' as <-. auto.
  - rewrite H1 in H2'. injection H2' as <- <- <-.
    rewrite Hm1 in Hm2'. injection Hm2' as <-.
    rewrite Hs1 in Hs2'. rewrite He1 in He2'.
    injection Hs2' as <-. injection He2' as <-. auto.
Qed.

End FitsOfTheSlopeComparison.

(** ** The further properties at the example data *)

Lemma NoDup_labels_B : NoDup (map label (rows B)).
Proof. cbn. distinct. Qed.

(** [A] has no column "z". *)
Lemma fit_ols_regression_missing_column_witness :
  fit_ols_regression smf_ols_simple 1 ["x"; "z"] "y" true {[1%positive := A]} =
    (Raise (KeyError ["z"]), {[1%positive := A]}).
Proof.
  destruct (fit_ols_regression_missing_column smf_ols_simple {[1%positive := A]}
              1%positive A ["x"; "z"] "y" true) as (H & _).
  - reflexivity.
  - exists "z". split; [column_present|].
    cbn. rewrite !not_elem_of_cons. repeat split; (discriminate || apply not_elem_of_nil).
  - exact H.
Defined.

(** A logarithmic fit on [A]: its four rows are complete and its targets
    are numbers. *)
Lemma fit_ols_regression_fitted_frame_witness :
  exists fitted,
    fit_ols_regression smf_ols_simple 1 ["x"] "y" true {[1%positive := A]} =
      (smf_ols_simple "y" ["x"] fitted,
       <[fresh (dom ({[1%positive := A]} : heap)) := fitted]> {[1%positive := A]}) /\
    columns fitted = columns A /\
    length (rows fitted) = 4%nat.
Proof.
  destruct (fit_ols_regression_fitted_frame smf_ols_simple {[1%positive := A]}
              1%positive A ["x"] "y" true) as (fitted & Hfit & Hcols & Hrows).
  - reflexivity.
  - intros c Hc. cbn in Hc. rewrite !elem_of_cons, elem_of_nil in Hc.
    destruct Hc as [->|[->|[]]]; column_present.
  - intros _ r Hr _. cbn in Hr. rewrite !elem_of_cons, elem_of_nil in Hr.
    destruct Hr as [->|[->|[->|[->|[]]]]]; eexists; reflexivity.
  - exists fitted. split; [exact Hfit|]. split; [exact Hcols|].
    apply Forall2_length in Hrows. rewrite <- Hrows. reflexivity.
Defined.


(** The report of [model_const], a fit with the intercept alone. *)
Lemma print_growth_rates_no_slope_witness :
  print_growth_rates (fun _ _ => Fin 2) ooms_to_factor_per_year
    ooms_to_doubling_time_months model_const =
    ([[Text "Adj. R^2="; Float 2 (Fin 0)]], Raise IndexError).
Proof.
  apply (print_growth_rates_no_slope (fun _ _ => Fin 2) ooms_to_factor_per_year
           ooms_to_doubling_time_months model_const).
  cbn. lia.
Defined.

(** The reports of [model_array] and of [model_x], which have the same
    coefficients and standard errors, with the critical value 2: the
    first shows the lower bound of the slope, the second the upper bound
    of the Intercept. *)
Lemma print_growth_rates_interval_witness :
  (exists l1 l2 l3 l4 : line,
     print_growth_rates (fun _ _ => Fin 2) ooms_to_factor_per_year
       ooms_to_doubling_time_months model_array = ([l1; l2; l3; l4], Ok tt) /\
     floats l2 =
       [Fin (1 / 2); NP.sub (Fin (1 / 2)) (NP.mul (Fin 2) (Fin (1 / 10)));
        NP.add (Fin (1 / 2)) (NP.mul (Fin 2) (Fin (1 / 10)))]) /\
  (exists l1 l2 l3 l4 : line,
     print_growth_rates (fun _ _ => Fin 2) ooms_to_factor_per_year
       ooms_to_doubling_time_months model_x = ([l1; l2; l3; l4], Ok tt) /\
     floats l2 =
       [Fin (1 / 2); NP.add (Fin 0) (NP.mul (Fin 2) (Fin (1 / 5)));
        NP.add (Fin (1 / 2)) (NP.mul (Fin 2) (Fin (1 / 10)))]).
Proof.
  split.
  - destruct (print_growth_rates_interval (fun _ _ => Fin 2) ooms_to_factor_per_year
                ooms_to_doubling_time_months model_array
                (Fin 0) (Fin (1 / 2)) (Fin (1 / 5)) (Fin (1 / 10)))
      as (l1 & l2 & l3 & l4 & Hp & _ & H2 & _);
      [reflexivity | reflexivity | reflexivity | reflexivity |].
    exists l1, l2, l3, l4. split; [exact Hp|exact H2].
  - destruct (print_growth_rates_interval (fun _ _ => Fin 2) ooms_to_factor_per_year
                ooms_to_doubling_time_months model_x
                (Fin 0) (Fin (1 / 2)) (Fin (1 / 5)) (Fin (1 / 10)))
      as (l1 & l2 & l3 & l4 & Hp & _ & H2 & _);
      [reflexivity | reflexivity | reflexivity | reflexivity |].
    exists l1, l2, l3, l4. split; [exact Hp|exact H2].
Defined.

(** [A] against [B], with the adjustment or without. *)
Lemma run_A_B_flag (adj_corr : bool) :
  exists res,
    regression_slope_t_test ols_simple student_t_cdf A B ["x"] "y" false adj_corr
      = Ok res /\
    SE1 res = Fin 1 /\ SE2 res = Fin (1 / 2).
Proof.
  destruct fit_A as (mA & HmA & HpA & HbA). destruct fit_B as (mB & HmB & HpB & HbB).
  eexists. split.
  - apply regression_slope_t_test_Ok.
    exists A, [[Fin 1; Fin 0]; [Fin 1; Fin 1]; [Fin 1; Fin (-1)]; [Fin 1; Fin 0]],
      [Fin (-1); Fin 2; Fin 0; Fin (-1)],
      B, [[Fin 1; Fin (-4)]; [Fin 1; Fin 0]; [Fin 1; Fin 0]; [Fin 1; Fin 4]],
      [Fin 2; Fin (-2); Fin (-2); Fin 2].
    eexists.
    eexists (Some (mkCommon _ [[Fin 1; Fin 0]; [Fin 1; Fin 1]]
                     [Fin (-1); Fin 2] [Fin 2; Fin (-2)])).
    exists mA, mB, (Fin 1), (Fin 1), (Fin 0), (Fin (1 / 2)). eexists.
    stages mA mB HmA HmB HpA HbA HpB HbB.
  - split; reflexivity.
Qed.

(** [A] against [B] and [B] against [A], without the adjustment. *)
Lemma regression_slope_t_test_unadjusted_symmetric_witness :
  exists res,
    regression_slope_t_test ols_simple student_t_cdf A B ["x"] "y" false false = Ok res /\
    rho res = Fin 0 /\
    ((exists res',
        regression_slope_t_test ols_simple student_t_cdf B A ["x"] "y" false false
          = Ok res' /\
        t_stat res' = NP.neg (t_stat res) /\
        p_value res' = p_value res /\
        df res' = df res /\
        rho res' = Fin 0) \/
     (exists msg,
        regression_slope_t_test ols_simple student_t_cdf B A ["x"] "y" false false
          = Raise (LibraryError msg))).
Proof.
  destruct (run_A_B_flag false) as (res & Hrun & _).
  exists res. split; [exact Hrun|].
  apply (regression_slope_t_test_unadjusted_symmetric ols_simple student_t_cdf
           A B ["x"] "y" false res Hrun).
Defined.

(** [A_unnamed] has the features and the target of [A], not its Systems. *)
Lemma regression_slope_t_test_needs_system_column_witness :
  regression_slope_t_test ols_simple student_t_cdf A_unnamed B ["x"] "y" false false
    = Raise (KeyError ["System"]).
Proof.
  apply (regression_slope_t_test_needs_system_column ols_simple student_t_cdf
           A_unnamed B A_unnamed B ["x"] "y" false false
           [[Fin 1; Fin 0]; [Fin 1; Fin 1]; [Fin 1; Fin (-1)]; [Fin 1; Fin 0]]
           [[Fin 1; Fin (-4)]; [Fin 1; Fin 0]; [Fin 1; Fin 0]; [Fin 1; Fin 4]]
           [Fin (-1); Fin 2; Fin 0; Fin (-1)] [Fin 2; Fin (-2); Fin (-2); Fin 2]).
  - design_eval.
  - design_eval.
  - left. cbn. rewrite !not_elem_of_cons.
    repeat split; (discriminate || apply not_elem_of_nil).
Defined.

(** The correlation of [A] against [B]. *)
Lemma regression_slope_t_test_rho_range_witness :
  exists res,
    regression_slope_t_test ols_simple student_t_cdf A B ["x"] "y" false true = Ok res /\
    (rho res = NaN \/ exists r, rho res = Fin r /\ -1 <= r <= 1).
Proof.
  destruct (run_A_B_flag true) as (res & Hrun & _).
  exists res. split; [exact Hrun|].
  apply (regression_slope_t_test_rho_range ols_simple student_t_cdf
           A B ["x"] "y" false true res Hrun).
Defined.

(** [A] against [B]: two rows are taken as common. *)
Lemma regression_slope_t_test_residual_shapes_witness :
  exists res,
    regression_slope_t_test ols_simple student_t_cdf A B ["x"] "y" false true = Ok res /\
    ((data12 res = None /\ residuals res = None) \/
     (exists d12 r1 r2,
        data12 res = Some d12 /\ residuals res = Some (r1, r2) /\
        rows d12 <> [] /\
        length r1 = length (rows d12) /\ length r2 = length (rows d12))).
Proof.
  destruct (run_A_B_flag true) as (res & Hrun & _).
  exists res. split; [exact Hrun|].
  apply (regression_slope_t_test_residual_shapes ols_simple student_t_cdf
           A B ["x"] "y" false true res NoDup_labels_A NoDup_labels_B Hrun).
Defined.

(** [A] against [B]: the row of [A] labelled 0 is taken as common, its
    System "a" is in [B] and the row of [B] labelled 0 holds "b", a
    System of [A]. *)
Lemma regression_slope_t_test_common_rows_witness :
  exists res d12,
    regression_slope_t_test ols_simple student_t_cdf A B ["x"] "y" false true = Ok res /\
    data12 res = Some d12 /\
    observation 0 "a" 0 (-1) ∈ rows d12.
Proof.
  destruct run_A_B as (res & Hrun & _).
  destruct (regression_slope_t_test_common_rows ols_simple student_t_cdf
              A B ["x"] "y" false true res NoDup_labels_A NoDup_labels_B Hrun)
    as [Hsome Hnone].
  destruct (data12 res) as [d12|] eqn:Hd.
  - exists res, d12. split; [exact Hrun|]. split; [exact Hd|].
    apply (Hsome d12 eq_refl). split; [cbn; left|]. split; [cbn; right; left|].
    exists (observation 0 "b" (-4) 2). split; [cbn; left|]. split; [reflexivity|].
    cbn. right. left.
  - exfalso. destruct Hnone as [Hnone _].
    apply (Hnone eq_refl (observation 0 "a" 0 (-1))).
    split; [cbn; left|]. split; [cbn; right; left|].
    exists (observation 0 "b" (-4) 2). split; [cbn; left|]. split; [reflexivity|].
    cbn. right. left.
Defined.


(** [A] has no column "z"; a frame with the rows of [A] and no column
    "x" is reported when it comes second. *)
Lemma regression_slope_t_test_missing_column_witness :
  regression_slope_t_test ols_simple student_t_cdf A B ["z"] "y" false true
    = Raise (KeyError ["z"]) /\
  regression_slope_t_test ols_simple student_t_cdf A
    (mkDataFrame ["System"; "y"] (rows A)) ["x"] "y" false true
    = Raise (KeyError ["x"]).
Proof.
  split.
  - apply (regression_slope_t_test_missing_column ols_simple student_t_cdf
             A B ["z"] "y" false true). discriminate.
  - refine (proj2 (regression_slope_t_test_missing_column ols_simple student_t_cdf
             A (mkDataFrame ["System"; "y"] (rows A)) ["x"] "y" false true)
             A [[Fin 1; Fin 0]; [Fin 1; Fin 1]; [Fin 1; Fin (-1)]; [Fin 1; Fin 0]]
             [Fin (-1); Fin 2; Fin 0; Fin (-1)] _ _).
    + design_eval.
    + discriminate.
Defined.

(** The table of [model_array] on [A] and on [A_renumbered], whose rows
    are labelled from 10. *)
Lemma table_A :
  exists df, get_prediction_df unit_bounds model_array A ["x"] = Ok df.
Proof.
  eexists. apply get_prediction_df_Ok.
  exists [[Fin 0]; [Fin 1]; [Fin (-1)]; [Fin 0]].
  eexists. split; [reflexivity|]. split; [add_constant_eval|].
  split; [reflexivity|]. split; [repeat constructor|reflexivity].
Qed.

Lemma table_A_renumbered :
  exists df, get_prediction_df unit_bounds model_array A_renumbered ["x"] = Ok df.
Proof.
  eexists. apply get_prediction_df_Ok.
  exists [[Fin 0]; [Fin 1]; [Fin (-1)]; [Fin 0]].
  eexists. split; [reflexivity|]. split; [add_constant_eval|].
  split; [reflexivity|]. split; [repeat constructor|reflexivity].
Qed.

(** [A_renumbered] has no row labelled 0: the first row of its table has
    the label 0 and no value for "x". *)
Lemma get_prediction_df_joins_features_by_label_witness :
  exists df r,
    get_prediction_df unit_bounds model_array A_renumbered ["x"] = Ok df /\
    length (rows df) = 4%nat /\
    rows df !! 0%nat = Some r /\ label r = 0%Z /\ cell_at r "x" = Num NaN.
Proof.
  destruct table_A_renumbered as [df Hdf].
  destruct (get_prediction_df_joins_features_by_label unit_bounds model_array
              A_renumbered ["x"] df Hdf) as [Hlen Hrows].
  cbn in Hlen.
  destruct (rows df) as [|r rs] eqn:E; [discriminate|].
  exists df, r. split; [exact Hdf|]. rewrite E. split; [exact Hlen|].
  split; [reflexivity|].
  destruct (Hrows 0%nat r eq_refl) as [Hlab Hx]. split; [exact Hlab|].
  apply (Hx "x"). left.
Defined.

(** The rows of [A] are labelled from 0: each row of its table shows the
    "x" of the row of [A] at the same position. *)
Lemma get_prediction_df_default_index_witness :
  exists df r,
    get_prediction_df unit_bounds model_array A ["x"] = Ok df /\
    rows df !! 1%nat = Some r /\ cell_at r "x" = Num (Fin 1).
Proof.
  destruct table_A as [df Hdf].
  pose proof (get_prediction_df_length unit_bounds _ _ _ _ Hdf) as Hlen.
  cbn in Hlen.
  destruct (rows df) as [|r0 [|r rs]] eqn:E; [discriminate..|].
  exists df, r. split; [exact Hdf|]. split; [rewrite E; reflexivity|].
  apply (get_prediction_df_default_index unit_bounds model_array A ["x"] df)
    with (i := 1%nat) (r0 := observation 1 "b" 1 2).
  - intros j r1 Hj. cbn in Hj.
    destruct j as [|[|[|[|j]]]]; cbn in Hj; try discriminate;
      injection Hj as <-; reflexivity.
  - exact Hdf.
  - rewrite E. reflexivity.
  - reflexivity.
  - left.
Defined.

(** The first row of the table of [A_renumbered]: the prediction
    [0 * 1 + 1/2 * 0] from the first row of the data, and no feature. *)
Lemma get_prediction_df_mean_by_position_witness :
  exists df r,
    get_prediction_df unit_bounds model_array A_renumbered ["x"] = Ok df /\
    rows df !! 0%nat = Some r /\
    cell_at r "mean" = Num (NP.dot [Fin 1; Fin 0] [Fin 0; Fin (1 / 2)]) /\
    cell_at r "x" = Num NaN.
Proof.
  destruct table_A_renumbered as [df Hdf].
  pose proof (get_prediction_df_length unit_bounds _ _ _ _ Hdf) as Hlen.
  cbn in Hlen.
  destruct (rows df) as [|r rs] eqn:E; [discriminate|].
  exists df, r. split; [exact Hdf|]. split; [rewrite E; reflexivity|].
  destruct (get_prediction_df_mean_by_position unit_bounds model_array
              A_renumbered ["x"] df 0%nat r)
    as (X0 & r0 & x & _ & Hr0 & Hx & _ & Hmean & Hnan).
  - rewrite not_elem_of_cons. split; [discriminate|apply not_elem_of_nil].
  - exact Hdf.
  - rewrite E. reflexivity.
  - injection Hr0 as <-. cbn in Hx.
    destruct x as [|v [|w x]]; try discriminate. injection Hx as <-.
    split; [exact (Hmean eq_refl)|]. apply Hnan; [|left].
    cbn. rewrite !not_elem_of_cons.
    repeat split; (discriminate || apply not_elem_of_nil).
Defined.


Lemma loggable_G (r : row) : r ∈ rows G -> loggable "y" r.
Proof.
  intros Hr. cbn in Hr. rewrite !elem_of_cons, elem_of_nil in Hr.
  destruct Hr as [->|[->|[->|[->|[]]]]]; right; eexists; (split; [reflexivity|lra]).
Qed.

Lemma loggable_G2 (r : row) : r ∈ rows G2 -> loggable "y" r.
Proof.
  intros Hr. cbn in Hr. rewrite !elem_of_cons, elem_of_nil in Hr.
  destruct Hr as [->|[->|[->|[]]]]; right; eexists; (split; [reflexivity|lra]).
Qed.

(** A logarithmic fit on [G], and a plain fit on its logarithms. *)
Lemma fit_ols_regression_log_flag_witness :
  (fit_ols_regression smf_ols_simple 1 ["x"] "y" true {[1%positive := G]}).1 =
  (fit_ols_regression smf_ols_simple 1 ["x"] "y" false
     (<[1%positive := log10_target G "y"]> {[1%positive := G]})).1.
Proof.
  apply (fit_ols_regression_log_flag smf_ols_simple {[1%positive := G]}
           1%positive G ["x"] "y").
  - reflexivity.
  - exact loggable_G.
Defined.

(** [G] against [G2] with the log flag. *)
Lemma run_G_G2 :
  exists res,
    regression_slope_t_test ols_simple student_t_cdf G G2 ["x"] "y" true true = Ok res.
Proof.
  edestruct (regression_slope_t_test_returns ols_simple student_t_cdf G G2
              G G2 ["x"] "y" true true
              [[Fin 1; Fin 0]; [Fin 1; Fin 1]; [Fin 1; Fin 2]; [Fin 1; Fin 3]]
              [[Fin 1; Fin 0]; [Fin 1; Fin 1]; [Fin 1; Fin 2]]
              [Fin 1; Fin 10; Fin 1000; Fin 100] [Fin 10; Fin 100; Fin 1]
              (zip_with (fun (r : row) b => (label r, b)) (rows G)
                 [true; true; false; false])
              (Some (mkCommon (loc G (zip_with (fun (r : row) b => (label r, b)) (rows G)
                                        [true; true; false; false]))
                       [[Fin 1; Fin 0]; [Fin 1; Fin 1]]
                       [Fin 1; Fin 10] [Fin 10; Fin 100])))
    as (res & Hrun & _);
    [ design_eval | design_eval | reflexivity | common_eval
    | reflexivity | reflexivity | reflexivity | reflexivity | reflexivity | reflexivity
    | reflexivity | ].
  exists res. exact Hrun.
Qed.

Lemma regression_slope_t_test_log_flag_witness :
  exists res res',
    regression_slope_t_test ols_simple student_t_cdf G G2 ["x"] "y" true true = Ok res /\
    regression_slope_t_test ols_simple student_t_cdf
      (log10_target G "y") (log10_target G2 "y") ["x"] "y" false true = Ok res' /\
    t_stat res' = t_stat res /\ p_value res' = p_value res.
Proof.
  destruct run_G_G2 as (res & Hrun).
  destruct (regression_slope_t_test_log_flag ols_simple student_t_cdf
              G G2 ["x"] "y" true res)
    as (res' & Hrun' & _ & _ & _ & _ & Ht & _ & Hp & _).
  - rewrite not_elem_of_cons. split; [discriminate|apply not_elem_of_nil].
  - discriminate.
  - exact loggable_G.
  - exact loggable_G2.
  - exact Hrun.
  - exists res, res'. auto.
Defined.


(** The fit of [A] against [B], against [A2], and when [A] comes second. *)
Lemma regression_slope_t_test_fit_of_own_dataset_witness :
  exists res res' res'',
    regression_slope_t_test ols_simple student_t_cdf A B ["x"] "y" false true = Ok res /\
    regression_slope_t_test ols_simple student_t_cdf A A2 ["x"] "y" false true = Ok res' /\
    regression_slope_t_test ols_simple student_t_cdf B A ["x"] "y" false true = Ok res'' /\
    model1 res' = model1 res /\ model2 res'' = model1 res.
Proof.
  destruct run_A_B as (res & Hrun & _).
  destruct run_A_A2 as (res' & Hrun' & _).
  destruct run_B_A as (res'' & Hrun'' & _).
  destruct (regression_slope_t_test_fit_of_own_dataset ols_simple student_t_cdf
              A B A2 ["x"] "y" false true true res Hrun) as [Hfirst _].
  destruct (regression_slope_t_test_fit_of_own_dataset ols_simple student_t_cdf
              A B B ["x"] "y" false true true res Hrun) as [_ Hsecond].
  exists res, res', res''.
  destruct (Hfirst res' Hrun') as (Hm & _).
  destruct (Hsecond res'' Hrun'') as (Hm' & _).
  auto.
Defined.
